(** * Enterprise DAB policy validator: a shallow embedding

    Source: [validation/enterprise_dab_validator.py], class
    [EnterpriseDabValidator] and [main].

    The validator loads YAML documents, runs six rule evaluators on every job
    file and one cross-environment check on [databricks.yml], collects the
    findings in three lists ([errors], [warnings], [suggestions]) and derives
    the process exit status from them.

    Python builtins and library calls the source relies on are embedded with
    the behaviour they have on the document values of the data model below;
    [yaml.dump], [repr] and the iteration order of a [set] are taken as
    parameters of the development (section [Validator]). *)

From Stdlib Require Import ZArith QArith Ascii String List Lia.
From stdpp Require Import base gmap strings list pretty.

Set Warnings "-register-all,-clear-no-such-hyp".

Local Open Scope string_scope.
Local Open Scope list_scope.

(** ** Document values

    What [yaml.safe_load] returns for a document of mappings, sequences and
    scalars.  A mapping is a Python [dict]: insertion ordered, here a list of
    entries in order.  Mapping keys are strings.  A [float] is carried by its
    rational value.  A document is a tree: two places of a document do not
    share one object, as in a document without aliases.  Where sharing
    shows, in the evaluator that writes to the document, the code is
    embedded a second time on a heap of objects (module [Shared]). *)

Inductive yaml : Type :=
| YNull
| YBool (b : bool)
| YInt (n : Z)
| YFloat (q : Q)
| YStr (s : string)
| YList (items : list yaml)
| YDict (entries : list (string * yaml)).

Abbreviation dict := (list (string * yaml)).

(** Induction over nested documents. *)
Section yaml_induction.
Variable P : yaml -> Prop.
Hypothesis Hnull : P YNull.
Hypothesis Hbool : forall b, P (YBool b).
Hypothesis Hint : forall n, P (YInt n).
Hypothesis Hfloat : forall q, P (YFloat q).
Hypothesis Hstr : forall s, P (YStr s).
Hypothesis Hlist : forall l, Forall P l -> P (YList l).
Hypothesis Hdict : forall d, Forall (fun kv => P (snd kv)) d -> P (YDict d).

Fixpoint yaml_nested_ind (y : yaml) : P y :=
  match y with
  | YNull => Hnull
  | YBool b => Hbool b
  | YInt n => Hint n
  | YFloat q => Hfloat q
  | YStr s => Hstr s
  | YList l =>
      Hlist l ((fix go (l : list yaml) : Forall P l :=
                  match l with
                  | [] => @List.Forall_nil _ P
                  | x :: l' => @List.Forall_cons _ P x l' (yaml_nested_ind x) (go l')
                  end) l)
  | YDict d =>
      Hdict d ((fix go (d : dict) : Forall (fun kv => P (snd kv)) d :=
                  match d with
                  | [] => @List.Forall_nil _ _
                  | kv :: d' =>
                      @List.Forall_cons _ (fun kv => P (snd kv)) kv d'
                        (yaml_nested_ind (snd kv)) (go d')
                  end) d)
  end.
End yaml_induction.

(** ** Python outcomes

    An evaluator either completes or raises.  Nothing in the validator
    catches what an evaluator raises, so a raised exception ends the run.
    [Unmodelled] marks the places where Python's behaviour depends on
    data this embedding does not carry (a non-string mapping key, the Unicode
    digit table, a reference to no object). *)

Inductive exn : Type :=
  AttributeError | TypeError | ValueError | RuntimeError.

Inductive result (A : Type) : Type :=
| Ok (a : A)
| Raise (e : exn)
| Unmodelled.
Arguments Ok {A} a.
Arguments Raise {A} e.
Arguments Unmodelled {A}.

Definition bind {A B : Type} (m : result A) (k : A -> result B) : result B :=
  match m with
  | Ok a => k a
  | Raise e => Raise e
  | Unmodelled => Unmodelled
  end.

Notation "x <- m ;; k" := (bind m (fun x => k))
  (at level 100, m at next level, right associativity,
   format "x  <-  m  ;;  '//' k").

(** [for x in xs: s = body(x, s)], stopping at the first exception. *)
Fixpoint for_each {A S : Type} (xs : list A) (body : A -> S -> result S) (s : S)
  : result S :=
  match xs with
  | [] => Ok s
  | x :: xs' => s' <- body x s ;; for_each xs' body s'
  end.

(** ** Python builtins on document values *)

(** [bool(x)] *)
Definition py_truthy (x : yaml) : bool :=
  match x with
  | YNull => false
  | YBool b => b
  | YInt n => negb (n =? 0)%Z
  | YFloat q => negb (Qeq_bool q 0%Q)
  | YStr s => negb (String.eqb s EmptyString)
  | YList l => match l with [] => false | _ => true end
  | YDict d => match d with [] => false | _ => true end
  end.

(** [bool(l)] for a Python list *)
Definition py_truthy_list {A : Type} (l : list A) : bool :=
  match l with [] => false | _ => true end.

(** [isinstance(x, str)] *)
Definition is_str (x : yaml) : bool :=
  match x with YStr _ => true | _ => false end.

(** [d.get(k)] on the entries of a dict: the first entry with that key
    (a dict holds a key once). *)
Fixpoint dict_lookup (k : string) (d : dict) : option yaml :=
  match d with
  | [] => None
  | (k', v) :: d' => if String.eqb k k' then Some v else dict_lookup k d'
  end.

(** [k in d] *)
Definition dict_mem (k : string) (d : dict) : bool :=
  match dict_lookup k d with Some _ => true | None => false end.

(** [d[k] = v]: an existing key keeps its position, a new key goes last. *)
Fixpoint dict_set (k : string) (v : yaml) (d : dict) : dict :=
  match d with
  | [] => [(k, v)]
  | (k', v') :: d' =>
      if String.eqb k k' then (k', v) :: d' else (k', v') :: dict_set k v d'
  end.

(** [d.update(other)] for a dict [other], and [{**d, **other}]. *)
Definition dict_update (d other : dict) : dict :=
  fold_left (fun acc kv => dict_set (fst kv) (snd kv) acc) other d.

(** [set(d.keys())] *)
Definition dict_keys (d : dict) : gset string := list_to_set (map fst d).

(** [d.get(k, default)] on the entries of a dict *)
Definition field (d : dict) (k : string) (default : yaml) : yaml :=
  match dict_lookup k d with Some v => v | None => default end.

(** [obj.get(k, default)]: only a dict has [get]. *)
Definition py_get (obj : yaml) (k : string) (default : yaml) : result yaml :=
  match obj with
  | YDict d => Ok (field d k default)
  | _ => Raise AttributeError
  end.

(** [obj.items()]: only a dict has [items]. *)
Definition py_items (obj : yaml) : result dict :=
  match obj with
  | YDict d => Ok d
  | _ => Raise AttributeError
  end.

(** The one-character strings of a string, as [for c in s] yields them. *)
Fixpoint chars (s : string) : list yaml :=
  match s with
  | EmptyString => []
  | String c s' => YStr (String c EmptyString) :: chars s'
  end.

(** [iter(obj)]: what a [for] loop over [obj] visits. *)
Definition py_iter (obj : yaml) : result (list yaml) :=
  match obj with
  | YList l => Ok l
  | YDict d => Ok (map (fun kv => YStr (fst kv)) d)
  | YStr s => Ok (chars s)
  | _ => Raise TypeError
  end.

(** [s.startswith(p)] *)
Definition startswith (s p : string) : bool := String.prefix p s.

(** [needle in hay] for two strings *)
Fixpoint contains (needle hay : string) : bool :=
  String.prefix needle hay ||
  match hay with
  | EmptyString => false
  | String _ hay' => contains needle hay'
  end.

(** [needle in obj]: substring of a string, element of a list, key of a
    dict; other values are not containers. *)
Definition py_in (needle : string) (obj : yaml) : result bool :=
  match obj with
  | YStr s => Ok (contains needle s)
  | YList l =>
      Ok (existsb (fun x => match x with
                            | YStr s => String.eqb s needle
                            | _ => false
                            end) l)
  | YDict d => Ok (dict_mem needle d)
  | _ => Raise TypeError
  end.

(** [x > k] for an integer literal [k]: numbers compare, [True] is 1 and
    [False] is 0; anything else raises [TypeError]. *)
Definition py_gt (x : yaml) (k : Z) : result bool :=
  match x with
  | YInt n => Ok (k <? n)%Z
  | YBool b => Ok (k <? (if b then 1 else 0))%Z
  | YFloat q => Ok (negb (Qle_bool q (inject_Z k)))
  | _ => Raise TypeError
  end.

(** ** Findings

    The source appends a formatted message to one of three lists.  A finding
    here is the message template together with the values interpolated into
    it, one constructor per f-string of the source. *)

Inductive finding : Type :=
| LoadFailure (file_path err : string)
    (* "Failed to load {file_path}: {str(e)}" *)
| HardcodedSensitive (path file_path value : string)
    (* "Policy violation: '{current_path}' in {file_path} must use variables,
        not hardcoded value '{value}'" *)
| JobNameNotCapitalised (job_name file_path : string)
    (* "Naming convention: Job '{job_name}' in {file_path} should start with
        capital letter" *)
| JobNameNoEnvironment (job_name : string)
    (* "Best practice: Job '{job_name}' name should include environment
        reference" *)
| ClusterKeyNotLowercase (cluster_key : string)
    (* "Naming convention: Job cluster key '{cluster_key}' should use
        lowercase with underscores" *)
| MissingRequiredTags (job_name file_path : string) (missing_tags : gset string)
    (* "Policy violation: Job '{job_name}' in {file_path} missing required
        tags: {missing_tags}" *)
| HardcodedSecret (file_path : string)
    (* "Security violation: Potential hardcoded secret found in {file_path}" *)
| NonStandardNotebookPath (notebook_path : yaml) (job_name : string)
    (* "Security concern: Notebook path '{notebook_path}' in job '{job_name}'
        uses non-standard location" *)
| ExcessiveConcurrency (job_name : string) (max_concurrent : yaml)
    (* "Security policy: Job '{job_name}' max_concurrent_runs
        ({max_concurrent}) exceeds recommended limit of 5" *)
| ManyWorkers (job_name : string) (num_workers : yaml)
    (* "Cost optimization: Job '{job_name}' cluster has {num_workers}
        workers. ..." *)
| HardcodedNodeType (job_name : string)
    (* "Cost optimization: Job '{job_name}' uses hardcoded node_type_id. ..." *)
| NoFailureNotification (job_name : string)
    (* "Best practice: Job '{job_name}' should have email notifications for
        failures" *)
| NoTimeout (job_name : string)
    (* "Best practice: Job '{job_name}' should have timeout_seconds
        configured" *)
| NoRetryOnTimeout (job_name : string)
    (* "Best practice: Job '{job_name}' should consider retry_on_timeout
        configuration" *)
| VariableMissing (var_name : string) (missing_envs : list string).
    (* "Environment consistency: Variable '{var_name}' missing in
        environments: {missing_envs}" *)

(** The three result lists of a validator instance ([__init__]). *)
Record validator : Type := mkValidator {
  errors : list finding;
  warnings : list finding;
  suggestions : list finding
}.

Definition new_validator : validator := mkValidator [] [] [].

(** [self.errors.append(f)] and its two siblings *)
Definition add_error (f : finding) (v : validator) : validator :=
  mkValidator (errors v ++ [f]) (warnings v) (suggestions v).
Definition add_warning (f : finding) (v : validator) : validator :=
  mkValidator (errors v) (warnings v ++ [f]) (suggestions v).
Definition add_suggestion (f : finding) (v : validator) : validator :=
  mkValidator (errors v) (warnings v) (suggestions v ++ [f]).

(** ** Policy constants ([__init__]) *)

Definition required_tags : gset string :=
  {[ "cost_center"; "environment"; "team" ]}.

Definition sensitive_fields : gset string :=
  {[ "existing_cluster_id"; "instance_pool_id"; "warehouse_id";
     "catalog"; "schema"; "volume"; "storage_location" ]}.

(** ** [check_variable_usage_policy]

    [check_object] is the nested function of the source; the error list it
    appends to is threaded through the walk. *)

Fixpoint check_object (file_path : string) (obj : yaml) (path : string)
  (errs : list finding) : list finding :=
  match obj with
  | YDict entries =>
      (fix items (es : dict) (errs : list finding) : list finding :=
         match es with
         | [] => errs
         | (key, value) :: es' =>
             let current_path :=
               if negb (String.eqb path EmptyString) then path +:+ "." +:+ key else key in
             let errs :=
               if bool_decide (key ∈ sensitive_fields) then
                 match value with
                 | YStr s =>
                     if negb (startswith s "${") then
                       errs ++ [HardcodedSensitive current_path file_path s]
                     else errs
                 | _ => errs
                 end
               else errs in
             items es' (check_object file_path value current_path errs)
         end) entries errs
  | YList l =>
      (fix elems (xs : list yaml) (i : nat) (errs : list finding)
         : list finding :=
         match xs with
         | [] => errs
         | item :: xs' =>
             elems xs' (S i)
               (check_object file_path item
                  (path +:+ "[" +:+ pretty i +:+ "]") errs)
         end) l 0%nat errs
  | _ => errs
  end.

Definition check_variable_usage_policy (job_config : yaml) (file_path : string)
  (v : validator) : result validator :=
  Ok (mkValidator (check_object file_path job_config EmptyString (errors v))
        (warnings v) (suggestions v)).

(** ** Regular expressions of the source

    Each pattern is a constant of the source; its matcher is written out for
    that pattern.  Strings are byte strings: the character classes below are
    the ASCII ones, which is what the patterns name. *)

Definition char_in (lo hi c : ascii) : bool :=
  (Ascii.leb lo c && Ascii.leb c hi)%char.

Definition is_upper (c : ascii) : bool := char_in "A" "Z" c.
Definition is_lower (c : ascii) : bool := char_in "a" "z" c.
Definition is_digit (c : ascii) : bool := char_in "0" "9" c.
Definition is_ascii (c : ascii) : bool := (nat_of_ascii c <? 128)%nat.

(** [\s] on ASCII: tab, newline, vertical tab, form feed, carriage return,
    the separators 28 to 31, and space. *)
Definition is_space (c : ascii) : bool :=
  let n := nat_of_ascii c in
  ((9 <=? n) && (n <=? 13) || (28 <=? n) && (n <=? 32))%nat.

Definition is_quote (c : ascii) : bool :=
  (Ascii.eqb c "'" || Ascii.eqb c "034")%char.

(** Lower case of an ASCII letter, for [re.IGNORECASE]. *)
Definition lower (c : ascii) : ascii :=
  if is_upper c then ascii_of_nat (nat_of_ascii c + 32) else c.

(** The rest of [s] after its longest prefix of characters in class [p]:
    a greedy [p*]. *)
Fixpoint skip (p : ascii -> bool) (s : string) : string :=
  match s with
  | String c s' => if p c then skip p s' else s
  | EmptyString => s
  end.

(** [re.match(r'^[A-Z][a-zA-Z0-9_]*', s)]: the pattern has no end anchor and
    the starred class also matches nothing, so the first character decides. *)
Definition match_job_name (s : string) : bool :=
  match s with
  | String c _ => is_upper c
  | EmptyString => false
  end.

(** [re.match(r'^[a-z][a-z0-9_]*$', s)]; [$] holds at the end of the string
    and just before a final newline. *)
Definition match_cluster_key (s : string) : bool :=
  match s with
  | String c s' =>
      is_lower c &&
      (let rest :=
         skip (fun c => is_lower c || is_digit c || Ascii.eqb c "_") s' in
       String.eqb rest EmptyString || String.eqb rest (String "010" EmptyString))
  | EmptyString => false
  end.

(** The words of [self.security_patterns].  The pattern of word [w] is [w],
    an optional [s], [\s*], one of [:=], [\s*], a quote (single or double),
    one or more characters that are not quotes, a quote. *)
Definition security_patterns : list string :=
  ["password"; "secret"; "token"; "key"].

(** The literal [w] at the head of [s], letter case ignored; the rest of [s]
    after it. *)
Fixpoint match_word (w s : string) : option string :=
  match w, s with
  | EmptyString, _ => Some s
  | String a w', String b s' =>
      if Ascii.eqb (lower a) (lower b) then match_word w' s' else None
  | String _ _, EmptyString => None
  end.

(** The pattern of word [w] matched at the head of [s].  Consecutive items
    of the pattern have disjoint first characters, so the greedy choice is
    the only one. *)
Definition match_secret_here (w s : string) : bool :=
  match match_word w s with
  | None => false
  | Some r =>
      let r := match r with
               | String c r' => if Ascii.eqb (lower c) "s" then r' else r
               | EmptyString => r
               end in
      match skip is_space r with
      | String c r =>
          (Ascii.eqb c ":" || Ascii.eqb c "=") &&
          match skip is_space r with
          | String q r =>
              is_quote q &&
              match r with
              | String c r =>
                  negb (is_quote c) &&
                  match skip (fun c => negb (is_quote c)) r with
                  | String q' _ => is_quote q'
                  | EmptyString => false
                  end
              | EmptyString => false
              end
          | EmptyString => false
          end
      | EmptyString => false
      end
  end.

(** [re.search(pattern_of w, s, re.IGNORECASE)]: a match at some position. *)
Fixpoint search_secret (w s : string) : bool :=
  match_secret_here w s ||
  match s with
  | String _ s' => search_secret w s'
  | EmptyString => false
  end.

(** ** More builtins *)

(** [s.isdigit()]: on ASCII text, non-empty and all decimal digits.  For
    other text the answer depends on the Unicode digit table. *)
Definition py_isdigit (s : string) : result bool :=
  let cs := list_ascii_of_string s in
  if forallb is_ascii cs then
    Ok (match cs with [] => false | _ => forallb is_digit cs end)
  else Unmodelled.

(** [int(s)] for a string of ASCII decimal digits. *)
Definition int_of_digits (s : string) : Z :=
  fold_left (fun acc c => 10 * acc + Z.of_nat (nat_of_ascii c - 48))%Z
    (list_ascii_of_string s) 0%Z.

(** The limit of the interpreter on conversions between [int] and [str]
    ([sys.int_max_str_digits], 4300 unless the interpreter is started with
    another value): [str(n)] raises [ValueError] when [n] has more decimal
    digits, and so does [int(s)] when [s] has more digits. *)
Definition int_max_str_digits : nat := 4300.

Definition int_limit : Z := (10 ^ Z.of_nat int_max_str_digits)%Z.

(** [str(n)] returns: [n] has at most [int_max_str_digits] digits. *)
Definition int_prints (n : Z) : bool := (Z.abs n <? int_limit)%Z.

(** [int(s)] returns on a string of decimal digits: every digit counts,
    leading zeros too. *)
Definition digits_convert (s : string) : bool :=
  (String.length s <=? int_max_str_digits)%nat.

(** No integer of the value is beyond the limit: [repr], [str], an f-string
    field and [yaml.dump] return on such a value and raise [ValueError] on
    any other, since each of them prints every integer it meets. *)
Fixpoint prints (x : yaml) : bool :=
  match x with
  | YInt n => int_prints n
  | YList l => forallb prints l
  | YDict d => forallb (fun kv => prints (snd kv)) d
  | _ => true
  end.

(** What interpolating [x] into an f-string may raise. *)
Definition py_format (x : yaml) : result unit :=
  if prints x then Ok tt else Raise ValueError.

(** [isinstance(x, (int, str)) and str(x).isdigit()], with [int(x)] when it
    holds.  [bool] is a subclass of [int]; [str(True)] has no digit; a
    negative integer prints with a sign.  [str(x)] comes first and raises on
    an integer beyond the limit; [int(x)] raises on a string of digits
    beyond it. *)
Definition digits_value (x : yaml) : result (option Z) :=
  match x with
  | YInt n =>
      if int_prints n then Ok (if (0 <=? n)%Z then Some n else None)
      else Raise ValueError
  | YBool _ => Ok None
  | YStr s =>
      d <- py_isdigit s ;;
      if d then
        if digits_convert s then Ok (Some (int_of_digits s))
        else Raise ValueError
      else Ok None
  | _ => Ok None
  end.

(** [obj.keys()] as a set: only a dict has [keys]. *)
Definition py_keys (obj : yaml) : result (gset string) :=
  match obj with
  | YDict d => Ok (dict_keys d)
  | _ => Raise AttributeError
  end.

(** [{**g, **t}]: both operands must be mappings. *)
Definition py_merge (g t : yaml) : result yaml :=
  match g, t with
  | YDict dg, YDict dt => Ok (YDict (dict_update dg dt))
  | _, _ => Raise TypeError
  end.

(** One element of the sequence given to [dict.update]: an iterable of
    exactly two items, the first of which becomes the key. *)
Definition update_pair (e : yaml) : result (string * yaml) :=
  match e with
  | YList [YStr k; v] => Ok (k, v)
  | YList [YList _; _] | YList [YDict _; _] => Raise TypeError
  | YList [_; _] => Unmodelled
  | YList _ => Raise ValueError
  | YStr s =>
      if forallb is_ascii (list_ascii_of_string s) then
        match s with
        | String a (String b EmptyString) =>
            Ok (String a EmptyString, YStr (String b EmptyString))
        | _ => Raise ValueError
        end
      else Unmodelled
  | YDict [(k1, _); (k2, _)] => Ok (k1, YStr k2)
  | YDict _ => Raise ValueError
  | _ => Raise TypeError
  end.

(** [tags.update(other)]: [tags] must be a dict; [other] is a mapping or an
    iterable of key/value pairs.  The result is the new content of the very
    object [tags] names. *)
Definition py_update (tags other : yaml) : result yaml :=
  match tags with
  | YDict d =>
      match other with
      | YDict o => Ok (YDict (dict_update d o))
      | YNull | YBool _ | YInt _ | YFloat _ => Raise TypeError
      | _ =>
          es <- py_iter other ;;
          d' <- for_each es
                  (fun e d => kv <- update_pair e ;;
                              Ok (dict_set (fst kv) (snd kv) d)) d ;;
          Ok (YDict d')
      end
  | _ => Raise AttributeError
  end.

(** [job_config.get("resources", {}).get("jobs", {})], then [.items()]. *)
Definition jobs_of (job_config : yaml) : result dict :=
  resources <- py_get job_config "resources" (YDict []) ;;
  jobs <- py_get resources "jobs" (YDict []) ;;
  py_items jobs.

(** [for cluster in job_def.get(field, [])] *)
Definition each_of (job_def : yaml) (field : string) : result (list yaml) :=
  xs <- py_get job_def field (YList []) ;;
  py_iter xs.

(** ** The files of a project

    The validator reads [databricks.yml] and the YAML files below
    [resources/].  A read either yields the parsed document or fails with an
    exception whose text the loader records. *)

Inductive load_failure : Type := MissingFile | MalformedSyntax | IOFailure.

Inductive file_read : Type :=
| ReadFails (why : load_failure) (err : string)
| Parsed (doc : yaml).

Record job_file : Type := mkJobFile {
  jf_path : string;       (* str(job_file) *)
  jf_relative : string;   (* str(job_file.relative_to(self.project_path)) *)
  jf_read : file_read
}.

Record project : Type := mkProject {
  databricks_yaml : string;      (* str(self.databricks_yaml) *)
  databricks_read : file_read;
  jobs_dir_exists : bool;        (* self.jobs_dir.exists() *)
  job_files : list job_file      (* the two globs, in discovery order *)
}.

(** ** [load_yaml]: [yaml.safe_load(file) or {}], any exception recorded *)
Definition load_yaml (file_path : string) (r : file_read) (v : validator)
  : yaml * validator :=
  match r with
  | Parsed doc => (if py_truthy doc then doc else YDict [], v)
  | ReadFails _ err => (YDict [], add_error (LoadFailure file_path err) v)
  end.

Section Validator.

(** [yaml.dump] of PyYAML. *)
Variable yaml_dump : yaml -> string.
(** [repr] of Python, used by [str] on a value that is not a string. *)
Variable py_repr : yaml -> string.
(** The order in which a [for] loop visits a set of strings: it depends on
    the hashes of the run.  The claims hold for every order. *)
Variable set_iter : gset string -> list string.

(** [str(x)]: the string itself, the [repr] of another value, which prints
    the integers it holds. *)
Definition py_str (x : yaml) : result string :=
  match x with
  | YStr s => Ok s
  | _ => if prints x then Ok (py_repr x) else Raise ValueError
  end.

(** [yaml.dump(x)]: the representer prints every integer with [str]. *)
Definition py_dump (x : yaml) : result string :=
  if prints x then Ok (yaml_dump x) else Raise ValueError.

(** *** [extract_environment_variables] *)
Definition extract_environment_variables (p : project) (v : validator)
  : result (dict * validator) :=
  let '(config, v) := load_yaml (databricks_yaml p) (databricks_read p) v in
  if negb (py_truthy config) then Ok ([], v) else
  global_variables <- py_get config "variables" (YDict []) ;;
  targets <- py_get config "targets" (YDict []) ;;
  items <- py_items targets ;;
  env_variables <-
    for_each items
      (fun target env_variables =>
         let '(target_name, target_config) := target in
         target_variables <- py_get target_config "variables" (YDict []) ;;
         merged_variables <- py_merge global_variables target_variables ;;
         Ok (dict_set target_name merged_variables env_variables)) [] ;;
  let env_variables :=
    if negb (py_truthy (YDict env_variables)) && py_truthy global_variables
    then dict_set "global" global_variables env_variables
    else env_variables in
  Ok (env_variables, v).

(** *** [check_naming_conventions] *)
Definition naming_cluster (cluster : yaml) (v : validator) : result validator :=
  cluster_key <- py_get cluster "job_cluster_key" (YStr EmptyString) ;;
  if py_truthy cluster_key then
    match cluster_key with
    | YStr s =>
        Ok (if negb (match_cluster_key s)
            then add_warning (ClusterKeyNotLowercase s) v else v)
    | _ => Raise TypeError
    end
  else Ok v.

Definition naming_job (file_path : string) (job : string * yaml)
  (v : validator) : result validator :=
  let '(job_name, job_def) := job in
  let v := if negb (match_job_name job_name)
           then add_warning (JobNameNotCapitalised job_name file_path) v
           else v in
  name <- py_get job_def "name" (YStr EmptyString) ;;
  name <- py_str name ;;
  let v := if negb (contains "${bundle.environment}" name)
           then add_warning (JobNameNoEnvironment job_name) v
           else v in
  clusters <- each_of job_def "job_clusters" ;;
  for_each clusters naming_cluster v.

Definition check_naming_conventions (job_config : yaml) (file_path : string)
  (v : validator) : result validator :=
  jobs <- jobs_of job_config ;;
  for_each jobs (naming_job file_path) v.

(** *** [check_required_tags]

    [tags] names the very dict stored under the job's [tags] key when the
    key is there, and a fresh dict otherwise; [tags.update] changes that
    object.  The evaluator therefore returns the document as it is after
    the loop, next to the validator.  This is the evaluator on a tree; on a
    document where an object is reached from several places, what it does
    is [Shared.check_required_tags]. *)
Definition merge_cluster_tags (cluster : yaml) (tags : yaml) : result yaml :=
  new_cluster <- py_get cluster "new_cluster" (YDict []) ;;
  cluster_tags <- py_get new_cluster "custom_tags" (YDict []) ;;
  py_update tags cluster_tags.

(** The job definition once the object its [tags] key holds has become
    [tags]. *)
Definition store_tags (job_def tags : yaml) : yaml :=
  match job_def with
  | YDict j => if dict_mem "tags" j then YDict (dict_set "tags" tags j)
               else job_def
  | _ => job_def
  end.

Definition required_tags_job (file_path : string) (job : string * yaml)
  (st : dict * validator) : result (dict * validator) :=
  let '(job_name, job_def) := job in
  let '(done, v) := st in
  tags <- py_get job_def "tags" (YDict []) ;;
  clusters <- each_of job_def "job_clusters" ;;
  tags <- for_each clusters merge_cluster_tags tags ;;
  keys <- py_keys tags ;;
  let missing_tags := required_tags ∖ keys in
  let v := if bool_decide (missing_tags ≠ ∅)
           then add_error (MissingRequiredTags job_name file_path missing_tags) v
           else v in
  Ok (done ++ [(job_name, store_tags job_def tags)], v).

(** The document once the jobs under [resources.jobs] have become [jobs]. *)
Definition store_jobs (job_config : yaml) (jobs : dict) : yaml :=
  match job_config with
  | YDict c =>
      match dict_lookup "resources" c with
      | Some (YDict r) =>
          match dict_lookup "jobs" r with
          | Some (YDict _) =>
              YDict (dict_set "resources"
                       (YDict (dict_set "jobs" (YDict jobs) r)) c)
          | _ => job_config
          end
      | _ => job_config
      end
  | _ => job_config
  end.

Definition check_required_tags (job_config : yaml) (file_path : string)
  (v : validator) : result (yaml * validator) :=
  jobs <- jobs_of job_config ;;
  st <- for_each jobs (required_tags_job file_path) ([], v) ;;
  Ok (store_jobs job_config (fst st), snd st).

(** *** [check_security_compliance] *)
Definition scan_secrets (file_path job_str : string) (v : validator)
  : validator :=
  fold_left
    (fun v pattern =>
       if search_secret pattern job_str
       then add_error (HardcodedSecret file_path) v else v)
    security_patterns v.

Definition security_task (job_name : string) (task : yaml) (v : validator)
  : result validator :=
  notebook_task <- py_get task "notebook_task" (YDict []) ;;
  notebook_path <- py_get notebook_task "notebook_path" (YStr EmptyString) ;;
  in_tmp <- py_in "/tmp/" notebook_path ;;
  suspicious <- (if in_tmp then Ok true else py_in "/personal/" notebook_path) ;;
  if suspicious then
    _ <- py_format notebook_path ;;
    Ok (add_warning (NonStandardNotebookPath notebook_path job_name) v)
  else Ok v.

Definition security_job (job : string * yaml) (v : validator)
  : result validator :=
  let '(job_name, job_def) := job in
  tasks <- each_of job_def "tasks" ;;
  v <- for_each tasks (security_task job_name) v ;;
  max_concurrent <- py_get job_def "max_concurrent_runs" (YInt 1) ;;
  too_many <- py_gt max_concurrent 5 ;;
  if too_many then
    _ <- py_format max_concurrent ;;
    Ok (add_warning (ExcessiveConcurrency job_name max_concurrent) v)
  else Ok v.

Definition check_security_compliance (job_config : yaml) (file_path : string)
  (v : validator) : result validator :=
  job_str <- py_dump job_config ;;
  let v := scan_secrets file_path job_str v in
  jobs <- jobs_of job_config ;;
  for_each jobs security_job v.

(** *** [check_cost_optimization] *)
Definition cost_cluster (job_name : string) (cluster : yaml) (v : validator)
  : result validator :=
  new_cluster <- py_get cluster "new_cluster" (YDict []) ;;
  num_workers <- py_get new_cluster "num_workers" YNull ;;
  workers <- digits_value num_workers ;;
  let v := match workers with
           | Some n => if (10 <? n)%Z
                       then add_suggestion (ManyWorkers job_name num_workers) v
                       else v
           | None => v
           end in
  node_type <- py_get new_cluster "node_type_id" YNull ;;
  Ok (match node_type with
      | YStr s => if negb (startswith s "${")
                  then add_suggestion (HardcodedNodeType job_name) v else v
      | _ => v
      end).

Definition cost_job (job : string * yaml) (v : validator) : result validator :=
  let '(job_name, job_def) := job in
  clusters <- each_of job_def "job_clusters" ;;
  for_each clusters (cost_cluster job_name) v.

Definition check_cost_optimization (job_config : yaml) (file_path : string)
  (v : validator) : result validator :=
  jobs <- jobs_of job_config ;;
  for_each jobs cost_job v.

(** *** [check_best_practices] *)
Definition best_practices_job (job : string * yaml) (v : validator)
  : result validator :=
  let '(job_name, job_def) := job in
  email_notifications <- py_get job_def "email_notifications" (YDict []) ;;
  on_failure <- py_get email_notifications "on_failure" YNull ;;
  let v := if negb (py_truthy on_failure)
           then add_suggestion (NoFailureNotification job_name) v else v in
  has_timeout <- py_in "timeout_seconds" job_def ;;
  let v := if negb has_timeout
           then add_suggestion (NoTimeout job_name) v else v in
  has_retry <- py_in "retry_on_timeout" job_def ;;
  Ok (if negb has_retry
      then add_suggestion (NoRetryOnTimeout job_name) v else v).

Definition check_best_practices (job_config : yaml) (file_path : string)
  (v : validator) : result validator :=
  jobs <- jobs_of job_config ;;
  for_each jobs best_practices_job v.

(** *** [validate_environment_consistency] *)
Definition missing_envs_of (env_variables : dict) (var_name : string)
  : result (list string) :=
  for_each env_variables
    (fun env missing_envs =>
       let '(env_name, env_vars) := env in
       present <- py_in var_name env_vars ;;
       Ok (if negb present then missing_envs ++ [env_name] else missing_envs))
    [].

Definition consistency_var (env_variables : dict) (var_name : string)
  (v : validator) : result validator :=
  missing_envs <- missing_envs_of env_variables var_name ;;
  Ok (match missing_envs with
      | [] => v
      | _ => add_warning (VariableMissing var_name missing_envs) v
      end).

Definition validate_environment_consistency (p : project) (v : validator)
  : result validator :=
  ev <- extract_environment_variables p v ;;
  let '(env_variables, v) := ev in
  if (length env_variables <? 2)%nat then Ok v else
  all_var_names <-
    for_each (map snd env_variables)
      (fun env_vars all_var_names =>
         ks <- py_keys env_vars ;; Ok (all_var_names ∪ ks)) ∅ ;;
  for_each (set_iter all_var_names) (consistency_var env_variables) v.

(** *** [validate_job_file] *)

(** The six checks in the order of the source, on one loaded document. *)
Definition run_checks (job_config : yaml) (file_path : string) (v : validator)
  : result (yaml * validator) :=
  v <- check_variable_usage_policy job_config file_path v ;;
  v <- check_naming_conventions job_config file_path v ;;
  cv <- check_required_tags job_config file_path v ;;
  let '(job_config, v) := cv in
  v <- check_security_compliance job_config file_path v ;;
  v <- check_cost_optimization job_config file_path v ;;
  v <- check_best_practices job_config file_path v ;;
  Ok (job_config, v).

Definition validate_job_file (f : job_file) (v : validator) : result validator :=
  let '(job_config, v) := load_yaml (jf_path f) (jf_read f) v in
  if negb (py_truthy job_config) then Ok v else
  cv <- run_checks job_config (jf_relative f) v ;;
  Ok (snd cv).

(** *** [validate]: the flag it returns is [len(self.errors) == 0] *)
Definition validate (p : project) (v : validator) : result (bool * validator) :=
  v <- validate_environment_consistency p v ;;
  v <- (if jobs_dir_exists p then for_each (job_files p) validate_job_file v
        else Ok v) ;;
  Ok ((length (errors v) =? 0)%nat, v).

(** *** [main]

    [print_results] only reads the three lists.  The process ends with
    [sys.exit(1)] under the condition below and with status 0 when [main]
    returns. *)
Definition exit_status (strict is_valid : bool) (v : validator) : Z :=
  if negb is_valid || (strict && py_truthy_list (warnings v)) then 1%Z else 0%Z.

Definition main (strict : bool) (p : project) : result Z :=
  r <- validate p new_validator ;;
  let '(is_valid, validator) := r in
  Ok (exit_status strict is_valid validator).

End Validator.

(** * The required-tag evaluator on shared mappings

    [yaml.safe_load] builds one Python object for a mapping or sequence
    that carries an anchor, and every alias of the anchor is a reference to
    that object.  [tags.update] in [check_required_tags] changes an object
    in place, so what it writes is seen through every reference.  Here the
    document is a heap of objects and a value is a scalar or a reference;
    the evaluator is the one of the source, run on references. *)

Module Shared.

(** The position of an object in the heap. *)
Abbreviation loc := nat.

Inductive value : Type :=
| VNull
| VBool (b : bool)
| VInt (n : Z)
| VFloat (q : Q)
| VStr (s : string)
| VRef (l : loc).

Abbreviation entries := (list (string * value)).

Inductive object : Type :=
| ODict (d : entries)
| OList (items : list value).

Abbreviation heap := (list object).

(** The builtins of [dict], on entries whose values may be references. *)
Fixpoint dict_lookup (k : string) (d : entries) : option value :=
  match d with
  | [] => None
  | (k', x) :: d' => if String.eqb k k' then Some x else dict_lookup k d'
  end.

Fixpoint dict_set (k : string) (x : value) (d : entries) : entries :=
  match d with
  | [] => [(k, x)]
  | (k', x') :: d' =>
      if String.eqb k k' then (k', x) :: d' else (k', x') :: dict_set k x d'
  end.

Definition dict_update (d other : entries) : entries :=
  fold_left (fun acc kv => dict_set (fst kv) (snd kv) acc) other d.

Definition dict_keys (d : entries) : gset string := list_to_set (map fst d).

(** [obj.get(k, default)]: only a dict has [get].  The default of the
    source is a display ([{}] or [[]]), a new object at each call; it enters
    the heap when it is the one returned.  A reference to no object does
    not occur in a loaded document. *)
Definition py_get (h : heap) (obj : value) (k : string) (default : object)
  : result (value * heap) :=
  match obj with
  | VRef l =>
      match h !! l with
      | Some (ODict d) =>
          match dict_lookup k d with
          | Some x => Ok (x, h)
          | None => Ok (VRef (length h), h ++ [default])
          end
      | Some (OList _) => Raise AttributeError
      | None => Unmodelled
      end
  | _ => Raise AttributeError
  end.

(** The one-character strings of a string. *)
Fixpoint chars (s : string) : list value :=
  match s with
  | EmptyString => []
  | String c s' => VStr (String c EmptyString) :: chars s'
  end.

(** [iter(obj)]: what a [for] loop over [obj] visits.  The loops of the
    evaluator over such a value change no list, and their body raises on
    the first key of a dict, so the items are those at the start. *)
Definition py_iter (h : heap) (obj : value) : result (list value) :=
  match obj with
  | VRef l =>
      match h !! l with
      | Some (OList xs) => Ok xs
      | Some (ODict d) => Ok (map (fun kv => VStr (fst kv)) d)
      | None => Unmodelled
      end
  | VStr s => Ok (chars s)
  | _ => Raise TypeError
  end.

(** [obj.keys()] as a set: only a dict has [keys]. *)
Definition py_keys (h : heap) (obj : value) : result (gset string) :=
  match obj with
  | VRef l =>
      match h !! l with
      | Some (ODict d) => Ok (dict_keys d)
      | Some (OList _) => Raise AttributeError
      | None => Unmodelled
      end
  | _ => Raise AttributeError
  end.

(** One element of the sequence given to [dict.update]: an iterable of
    exactly two items, the first of which becomes the key. *)
Definition update_pair (h : heap) (e : value) : result (string * value) :=
  match e with
  | VRef l =>
      match h !! l with
      | Some (OList [VStr k; x]) => Ok (k, x)
      | Some (OList [VRef _; _]) => Raise TypeError
      | Some (OList [_; _]) => Unmodelled
      | Some (OList _) => Raise ValueError
      | Some (ODict [(k1, _); (k2, _)]) => Ok (k1, VStr k2)
      | Some (ODict _) => Raise ValueError
      | None => Unmodelled
      end
  | VStr s =>
      if forallb is_ascii (list_ascii_of_string s) then
        match s with
        | String a (String b EmptyString) =>
            Ok (String a EmptyString, VStr (String b EmptyString))
        | _ => Raise ValueError
        end
      else Unmodelled
  | _ => Raise TypeError
  end.

(** [d[k] = x] on the dict at [l]. *)
Definition set_item (l : loc) (kv : string * value) (h : heap) : result heap :=
  match h !! l with
  | Some (ODict d) => Ok (<[l := ODict (dict_set (fst kv) (snd kv) d)]> h)
  | _ => Unmodelled
  end.

(** [tags.update(other)]: [tags] must be a dict; [other] is a mapping or an
    iterable of key/value pairs.  The object [tags] refers to is changed
    where it is. *)
Definition py_update (h : heap) (tags other : value) : result heap :=
  match tags with
  | VRef lt =>
      match h !! lt with
      | Some (ODict d) =>
          match other with
          | VRef lo =>
              match h !! lo with
              | Some (ODict o) => Ok (<[lt := ODict (dict_update d o)]> h)
              | Some (OList es) =>
                  for_each es
                    (fun e h => kv <- update_pair h e ;; set_item lt kv h) h
              | None => Unmodelled
              end
          | VStr s =>
              for_each (chars s)
                (fun e h => kv <- update_pair h e ;; set_item lt kv h) h
          | _ => Raise TypeError
          end
      | Some (OList _) => Raise AttributeError
      | None => Unmodelled
      end
  | _ => Raise AttributeError
  end.

(** The body of the loop over [job_clusters]. *)
Definition merge_cluster_tags (tags cluster : value) (h : heap) : result heap :=
  nc <- py_get h cluster "new_cluster" (ODict []) ;;
  let '(new_cluster, h) := nc in
  ct <- py_get h new_cluster "custom_tags" (ODict []) ;;
  let '(cluster_tags, h) := ct in
  py_update h tags cluster_tags.

(** The body of the loop over the jobs. *)
Definition required_tags_job (file_path : string) (job : string * value)
  (st : heap * validator) : result (heap * validator) :=
  let '(job_name, job_def) := job in
  let '(h, v) := st in
  t <- py_get h job_def "tags" (ODict []) ;;
  let '(tags, h) := t in
  cs <- py_get h job_def "job_clusters" (OList []) ;;
  let '(clusters, h) := cs in
  clusters <- py_iter h clusters ;;
  h <- for_each clusters (merge_cluster_tags tags) h ;;
  keys <- py_keys h tags ;;
  let missing_tags := required_tags ∖ keys in
  Ok (h,
      if bool_decide (missing_tags ≠ ∅)
      then add_error (MissingRequiredTags job_name file_path missing_tags) v
      else v).

(** What the iterator of [jobs.items()] does when asked for the item at
    position [i]: it raises when the dict no longer has the size it had
    when the loop began, and reads the entry as it is now otherwise. *)
Definition next_item (jobs : loc) (size i : nat) (h : heap)
  : result (option (string * value)) :=
  match h !! jobs with
  | Some (ODict d) =>
      if (length d =? size)%nat then Ok (d !! i) else Raise RuntimeError
  | _ => Unmodelled
  end.

(** [for job_name, job_def in jobs.items(): body], with the request that
    ends the loop. *)
Definition for_items (jobs : loc) (size : nat)
  (body : string * value -> heap * validator -> result (heap * validator))
  (st : heap * validator) : result (heap * validator) :=
  st <- for_each (seq 0 size)
          (fun i st =>
             item <- next_item jobs size i (fst st) ;;
             match item with
             | Some job => body job st
             | None => Unmodelled
             end) st ;;
  _ <- next_item jobs size size (fst st) ;;
  Ok st.

Definition check_required_tags (h : heap) (job_config : value)
  (file_path : string) (v : validator) : result (heap * validator) :=
  r <- py_get h job_config "resources" (ODict []) ;;
  let '(resources, h) := r in
  j <- py_get h resources "jobs" (ODict []) ;;
  let '(jobs, h) := j in
  match jobs with
  | VRef l =>
      match h !! l with
      | Some (ODict d) =>
          for_items l (length d) (required_tags_job file_path) (h, v)
      | Some (OList _) => Raise AttributeError
      | None => Unmodelled
      end
  | _ => Raise AttributeError
  end.

End Shared.

(** * Specification-side definitions *)

(** ** Paths into a document

    A path is the list of steps from the root: a mapping key or a sequence
    index.  Its rendering is the dotted and indexed form: an index adds
    [[i]], a key adds [.key], and the key that opens the rendering stands
    without the dot. *)

Inductive step : Type := Key (k : string) | Index (i : nat).

Definition extend_path (path : string) (s : step) : string :=
  match s with
  | Key k => if String.eqb path EmptyString then k else path +:+ "." +:+ k
  | Index i => path +:+ "[" +:+ pretty i +:+ "]"
  end.

Definition render_path (steps : list step) : string :=
  fold_left extend_path steps EmptyString.

(** Every mapping entry of a document, with the path that leads to it, in
    document order: an entry comes before the entries below it. *)
Fixpoint occurrences (obj : yaml) (here : list step)
  : list (list step * string * yaml) :=
  match obj with
  | YDict d =>
      flat_map (fun kv => (here ++ [Key (fst kv)], fst kv, snd kv)
                          :: occurrences (snd kv) (here ++ [Key (fst kv)])) d
  | YList l =>
      (fix from (xs : list yaml) (i : nat) :=
         match xs with
         | [] => []
         | x :: xs' => occurrences x (here ++ [Index i]) ++ from xs' (S i)
         end) l 0%nat
  | _ => []
  end.

(** The finding an entry calls for: its key is a sensitive field and its
    value is a string that does not start with the variable sentinel. *)
Definition hardcoded (file_path : string) (o : list step * string * yaml)
  : option finding :=
  let '(steps, key, value) := o in
  if bool_decide (key ∈ sensitive_fields) then
    match value with
    | YStr s => if startswith s "${" then None
                else Some (HardcodedSensitive (render_path steps) file_path s)
    | _ => None
    end
  else None.

(** ** Findings only grow *)

Record grows (v v' : validator) : Prop := mkGrows {
  grows_errors : errors v `prefix_of` errors v';
  grows_warnings : warnings v `prefix_of` warnings v';
  grows_suggestions : suggestions v `prefix_of` suggestions v'
}.

(** ** Documents of the expected shape

    The shape the evaluators take for granted: what they read with [get] and
    loop over has the type the schema of a bundle gives it. *)

Definition is_dict (x : yaml) : bool :=
  match x with YDict _ => true | _ => false end.

Definition is_number (x : yaml) : bool :=
  match x with YInt _ | YBool _ | YFloat _ => true | _ => false end.

Definition ascii_text (x : yaml) : bool :=
  match x with
  | YStr s => forallb is_ascii (list_ascii_of_string s)
  | _ => true
  end.

(** A string of digits is short enough for [int]. *)
Definition short_digits (x : yaml) : bool :=
  match x with
  | YStr s =>
      negb (forallb is_digit (list_ascii_of_string s)) || digits_convert s
  | _ => true
  end.

Definition wf_cluster (cluster : yaml) : bool :=
  match cluster with
  | YDict c =>
      (let key := field c "job_cluster_key" (YStr EmptyString) in
       negb (py_truthy key) || is_str key) &&
      match field c "new_cluster" (YDict []) with
      | YDict nc =>
          is_dict (field nc "custom_tags" (YDict [])) &&
          ascii_text (field nc "num_workers" YNull) &&
          short_digits (field nc "num_workers" YNull)
      | _ => false
      end
  | _ => false
  end.

Definition wf_task (task : yaml) : bool :=
  match task with
  | YDict t =>
      match field t "notebook_task" (YDict []) with
      | YDict nt => is_str (field nt "notebook_path" (YStr EmptyString))
      | _ => false
      end
  | _ => false
  end.

Definition wf_job (job_def : yaml) : bool :=
  match job_def with
  | YDict j =>
      is_dict (field j "tags" (YDict [])) &&
      match field j "job_clusters" (YList []) with
      | YList cs => forallb wf_cluster cs
      | _ => false
      end &&
      match field j "tasks" (YList []) with
      | YList ts => forallb wf_task ts
      | _ => false
      end &&
      is_number (field j "max_concurrent_runs" (YInt 1)) &&
      is_dict (field j "email_notifications" (YDict []))
  | _ => false
  end.

(** The document, [resources] and [jobs] are mappings and every job
    definition passes [ok]. *)
Definition jobs_shaped (ok : yaml -> bool) (job_config : yaml) : bool :=
  match job_config with
  | YDict c =>
      match field c "resources" (YDict []) with
      | YDict r =>
          match field r "jobs" (YDict []) with
          | YDict jobs => forallb (fun job => ok (snd job)) jobs
          | _ => false
          end
      | _ => false
      end
  | _ => false
  end.

Definition wf_config (job_config : yaml) : bool := jobs_shaped wf_job job_config.

(** How deep mappings and sequences are nested in a value. *)
Fixpoint depth (x : yaml) : nat :=
  match x with
  | YList l => S (fold_right (fun item d => Nat.max (depth item) d) 0%nat l)
  | YDict d => S (fold_right (fun kv m => Nat.max (depth (snd kv)) m) 0%nat d)
  | _ => 0%nat
  end.

(** A nesting at which the recursion of the walk and of [yaml.dump] stays
    far below the recursion limit of the interpreter (1000 frames). *)
Definition max_nesting : nat := 100.

(** The part of the shape the required-tag evaluator reads. *)
Definition tags_cluster (cluster : yaml) : bool :=
  match cluster with
  | YDict c =>
      match field c "new_cluster" (YDict []) with
      | YDict nc => is_dict (field nc "custom_tags" (YDict []))
      | _ => false
      end
  | _ => false
  end.

Definition tags_job (job_def : yaml) : bool :=
  match job_def with
  | YDict j =>
      is_dict (field j "tags" (YDict [])) &&
      match field j "job_clusters" (YList []) with
      | YList cs => forallb tags_cluster cs
      | _ => false
      end
  | _ => false
  end.

Definition tags_config (job_config : yaml) : bool :=
  jobs_shaped tags_job job_config.

(** ** Tags of a job *)

(** The jobs under [resources.jobs]. *)
Definition jobs_in (job_config : yaml) : dict :=
  match jobs_of job_config with Ok jobs => jobs | _ => [] end.

(** The job's own [tags] mapping. *)
Definition own_tags (job_def : yaml) : dict :=
  match job_def with
  | YDict j => match field j "tags" (YDict []) with YDict t => t | _ => [] end
  | _ => []
  end.

(** The entries of [job_clusters]. *)
Definition clusters_of (job_def : yaml) : list yaml :=
  match job_def with
  | YDict j =>
      match field j "job_clusters" (YList []) with YList cs => cs | _ => [] end
  | _ => []
  end.

(** [new_cluster.custom_tags] of one cluster. *)
Definition custom_tags_of (cluster : yaml) : dict :=
  match cluster with
  | YDict c =>
      match field c "new_cluster" (YDict []) with
      | YDict nc =>
          match field nc "custom_tags" (YDict []) with YDict t => t | _ => [] end
      | _ => []
      end
  | _ => []
  end.

(** The tags after the overlay: the job's own, then the custom tags of each
    cluster in turn, a later value replacing an earlier one. *)
Definition merged_tags (job_def : yaml) : dict :=
  fold_left (fun tags cluster => dict_update tags (custom_tags_of cluster))
    (clusters_of job_def) (own_tags job_def).

(** The tag names present on a job: those of its own tags and those of the
    custom tags of any of its clusters. *)
Definition present_tag_names (job_def : yaml) : gset string :=
  dict_keys (own_tags job_def) ∪
  ⋃ (map (fun cluster => dict_keys (custom_tags_of cluster)) (clusters_of job_def)).

(** The required tags a job lacks. *)
Definition missing_tags_of (job_def : yaml) : gset string :=
  required_tags ∖ present_tag_names job_def.

(** The finding the required-tag rule calls for on one job. *)
Definition missing_tags_finding (file_path : string) (job : string * yaml)
  : option finding :=
  let missing := missing_tags_of (snd job) in
  if bool_decide (missing = ∅) then None
  else Some (MissingRequiredTags (fst job) file_path missing).

(** A job once the required-tag evaluator has gone over it: the object
    under its [tags] key holds the merged tags. *)
Definition tagged (job : string * yaml) : string * yaml :=
  (fst job, store_tags (snd job) (YDict (merged_tags (snd job)))).

(** ** Variables of the environments *)

(** The variable names of one environment. *)
Definition env_var_names (env_vars : yaml) : gset string :=
  match env_vars with YDict d => dict_keys d | _ => ∅ end.

(** The union of the variable names of all environments. *)
Definition all_variable_names (env_variables : dict) : gset string :=
  ⋃ (map (fun env => env_var_names (snd env)) env_variables).

(** The environments that lack a variable, in the order of the targets. *)
Definition lacking (env_variables : dict) (var_name : string) : list string :=
  map fst (filter (fun env => var_name ∉ env_var_names (snd env)) env_variables).

(** The finding the consistency rule calls for on one variable. *)
Definition consistency_finding (env_variables : dict) (var_name : string)
  : option finding :=
  match lacking env_variables var_name with
  | [] => None
  | envs => Some (VariableMissing var_name envs)
  end.

(** The names of the top-level [variables] mapping of the bundle document. *)
Definition global_variable_names (doc : yaml) : gset string :=
  match doc with
  | YDict c => env_var_names (field c "variables" (YDict []))
  | _ => ∅
  end.

(** A document whose one job definition is a string. *)
Definition malformed_job_doc : yaml :=
  YDict [("resources",
          YDict [("jobs",
                  YDict [("Broken", YStr "oops"); ("Fine", YDict [])])])].

(** A document that assigns a quoted literal to a password key,
    [password: "hunter2"], twice over. *)
Definition hunter2_doc : yaml :=
  YDict [("db_password", YStr "hunter2"); ("password", YStr "hunter2")].

(** What PyYAML's [yaml.dump] prints for [hunter2_doc]: keys sorted, block
    style, the two strings as plain scalars, without quotes. *)
Definition newline : string := String "010" EmptyString.
Definition hunter2_dump : string :=
  "db_password: hunter2" +:+ newline +:+ "password: hunter2" +:+ newline.

(** A text in which the quotes are there, three times. *)
Definition quoted_text : string :=
  "password: 'hunter2'" +:+ newline +:+ "db_password: 'hunter2'" +:+ newline
  +:+ "PASSWORDS = 'hunter2'" +:+ newline.

(** ** Sample inputs *)

(** Stand-ins for the three parameters where a concrete run is evaluated. *)
Definition sample_repr : yaml -> string := fun _ => "<repr>".

(** A dump of a mapping of strings in PyYAML's block style, one
    [key: value] line per entry, the scalars plain. *)
Definition dump_plain_mapping (doc : yaml) : string :=
  match doc with
  | YDict d =>
      fold_right
        (fun kv out =>
           match snd kv with
           | YStr s => fst kv +:+ ": " +:+ s +:+ String "010" out
           | _ => out
           end) EmptyString d
  | _ => EmptyString
  end.

(** A project without [databricks.yml] and without a [resources] folder. *)
Definition absent_bundle : project :=
  mkProject "databricks.yml"
    (ReadFails MissingFile
       "[Errno 2] No such file or directory: 'databricks.yml'")
    false [].

(** A project with two targets and one job file. *)
Definition sample_bundle_doc : yaml :=
  YDict [("variables", YDict [("catalog", YDict [("default", YStr "main")])]);
         ("targets",
          YDict [("dev", YDict [("variables",
                                 YDict [("x", YStr "1"); ("y", YStr "2")])]);
                 ("prod", YDict [("variables", YDict [("x", YStr "1")])])])].

Definition sample_job_doc : yaml :=
  YDict [("resources",
          YDict [("jobs",
                  YDict [("Nightly",
                          YDict [("name", YStr "nightly-${bundle.environment}");
                                 ("existing_cluster_id", YStr "abc-123");
                                 ("tags", YDict [("team", YStr "data")]);
                                 ("job_clusters",
                                  YList [YDict [("job_cluster_key", YStr "main");
                                                ("new_cluster",
                                                 YDict [("num_workers", YInt 15);
                                                        ("custom_tags",
                                                         YDict [("cost_center",
                                                                 YStr "cc1")])])]])])])])].

Definition sample_project : project :=
  mkProject "databricks.yml" (Parsed sample_bundle_doc) true
    [mkJobFile "resources/nightly.yml" "resources/nightly.yml"
       (Parsed sample_job_doc);
     mkJobFile "resources/broken.yml" "resources/broken.yml"
       (ReadFails MalformedSyntax "mapping values are not allowed here")].

(** The environments of the sample project. *)
Definition sample_environments : dict :=
  [("dev", YDict [("catalog", YDict [("default", YStr "main")]);
                  ("x", YStr "1"); ("y", YStr "2")]);
   ("prod", YDict [("catalog", YDict [("default", YStr "main")]);
                   ("x", YStr "1")])].

(** ** Findings added to a validator *)

(** The validator [v] with the findings of [d] appended, list by list. *)
Definition extend (v d : validator) : validator :=
  mkValidator (errors v ++ errors d) (warnings v ++ warnings d)
    (suggestions v ++ suggestions d).

(** A step on the validator that appends findings that do not depend on
    the findings already there. *)
Definition appends_only (step : validator -> validator) : Prop :=
  exists d, forall w, step w = extend w d.

(** A computation that, when it completes from one validator, completes
    from every validator and appends the same findings. *)
Definition uniform (run : validator -> result validator) : Prop :=
  forall v v', run v = Ok v' -> exists d, forall w, run w = Ok (extend w d).

(** The same findings up to their order within each list. *)
Definition same_findings (v v' : validator) : Prop :=
  errors v ≡ₚ errors v' /\ warnings v ≡ₚ warnings v' /\
  suggestions v ≡ₚ suggestions v'.

(** The project with its job files discovered as [files]. *)
Definition with_job_files (p : project) (files : list job_file) : project :=
  mkProject (databricks_yaml p) (databricks_read p) (jobs_dir_exists p) files.

(** A step leaves one of the three lists as it was. *)
Definition keeps (list_of : validator -> list finding) (v v' : validator) : Prop :=
  list_of v' = list_of v.

(** ** Texts *)

(** Some character of the text is a quote, single or double. *)
Fixpoint has_quote (s : string) : bool :=
  match s with
  | EmptyString => false
  | String c s' => is_quote c || has_quote s'
  end.

(** Every character of the text is in class [p]. *)
Fixpoint all_chars (p : ascii -> bool) (s : string) : bool :=
  match s with
  | EmptyString => true
  | String c s' => p c && all_chars p s'
  end.

(** The class [[a-z0-9_]] of the cluster-key pattern. *)
Definition key_char (c : ascii) : bool :=
  is_lower c || is_digit c || Ascii.eqb c "_".

(** ** The bundle document *)

(** The top-level [variables] mapping. *)
Definition global_variables_of (doc : yaml) : dict :=
  match doc with
  | YDict c => match field c "variables" (YDict []) with YDict g => g | _ => [] end
  | _ => []
  end.

(** The [targets] mapping. *)
Definition targets_of (doc : yaml) : dict :=
  match doc with
  | YDict c => match field c "targets" (YDict []) with YDict ts => ts | _ => [] end
  | _ => []
  end.

(** The [variables] mapping of one target. *)
Definition target_variables_of (target_config : yaml) : dict :=
  match target_config with
  | YDict t => match field t "variables" (YDict []) with YDict tv => tv | _ => [] end
  | _ => []
  end.

(** The bundle document has the shape [extract_environment_variables]
    takes for granted: [variables] and [targets] are mappings, and so are
    every target and its [variables]. *)
Definition wf_bundle (doc : yaml) : bool :=
  match doc with
  | YDict c =>
      is_dict (field c "variables" (YDict [])) &&
      match field c "targets" (YDict []) with
      | YDict ts =>
          forallb (fun target =>
                     match snd target with
                     | YDict t => is_dict (field t "variables" (YDict []))
                     | _ => false
                     end) ts
      | _ => false
      end
  | _ => false
  end.

(** The environment of one target: the global variables overlaid with the
    target's own. *)
Definition environment_of (doc : yaml) (target : string * yaml) : string * yaml :=
  (fst target,
   YDict (dict_update (global_variables_of doc) (target_variables_of (snd target)))).

(** ** The report ([print_results])

    What [print_results] shows: the messages given to [print], in order,
    and the text of the report file when there is one.  A write to a file
    that was opened succeeds. *)

Record report : Type := mkReport {
  console : list string;      (* one entry for each call of print *)
  written : option string     (* the content of the file behind file_handle *)
}.

(** What the [try] block around [open(output_file, 'w')] and the header
    comes to. *)
Inductive file_open : Type :=
| OpenFails (err : string)
| Opened.

(** [c * n] for a one-character string [c] *)
Fixpoint repeat_char (c : ascii) (n : nat) : string :=
  match n with
  | O => EmptyString
  | S n' => String c (repeat_char c n')
  end.

(** [f"{i:2d}"]: the decimal digits of [i], right-aligned in width 2. *)
Definition pad2 (i : nat) : string :=
  let digits := pretty i in
  if (String.length digits <? 2)%nat then " " +:+ digits else digits.

(** [_write_output(message, file_handle)]; [to_file] is false where the
    source passes [None] for the handle. *)
Definition write_output (to_file : bool) (message : string) (r : report) : report :=
  mkReport (console r ++ [message])
    (if to_file
     then option_map (fun text => text +:+ message +:+ newline) (written r)
     else written r).

Section Report.

(** The message of a finding: the string the source appended to the list. *)
Variable render : finding -> string.
(** [datetime.now().strftime("%Y-%m-%d %H:%M:%S")] *)
Variable timestamp : string.
(** [str(self.project_path)] *)
Variable project_path : string.

Definition report_header : string :=
  "# Enterprise DAB Validation Report" +:+ newline +:+
  "# Generated: " +:+ timestamp +:+ newline +:+
  "# Project Path: " +:+ project_path +:+ newline +:+ newline.

(** [for i, x in enumerate(xs, i): self._write_output(f"{i:2d}. {x}", fh)] *)
Fixpoint write_numbered (fs : list finding) (i : nat) (r : report) : report :=
  match fs with
  | [] => r
  | f :: fs' =>
      write_numbered fs' (S i) (write_output true (pad2 i +:+ ". " +:+ render f) r)
  end.

(** One of the three [if self.xs:] blocks. *)
Definition write_section (title : string) (dashes : nat) (fs : list finding)
  (r : report) : report :=
  if py_truthy_list fs then
    let r := write_output true title r in
    let r := write_output true (repeat_char "-" dashes) r in
    write_numbered fs 1 r
  else r.

Definition summary_line (v : validator) : string :=
  "SUMMARY: " +:+ pretty (length (errors v)) +:+ " critical issues, " +:+
  pretty (length (warnings v)) +:+ " warnings, " +:+
  pretty (length (suggestions v)) +:+ " suggestions".

Definition print_results (output_file : option string) (opened : file_open)
  (v : validator) : report :=
  let total_issues :=
    (length (errors v) + length (warnings v) + length (suggestions v))%nat in
  let wanted :=
    match output_file with
    | Some name => negb (String.eqb name EmptyString)
    | None => false
    end in
  let name := match output_file with Some name => name | None => EmptyString end in
  let r :=
    if wanted then
      match opened with
      | Opened => mkReport [] (Some report_header)
      | OpenFails err =>
          mkReport ["Warning: Could not create output file '" +:+ name +:+
                    "': " +:+ err] None
      end
    else mkReport [] None in
  let r := write_output true (newline +:+ repeat_char "=" 80) r in
  let r := write_output true "VALIDATION RESULTS" r in
  let r := write_output true (repeat_char "=" 80) r in
  if (total_issues =? 0)%nat then
    let r := write_output true
               "STATUS: All enterprise policies are compliant." r in
    let r := write_output true
               "No issues found - configuration meets all organizational requirements."
               r in
    write_output true (repeat_char "=" 80) r
  else
    let r := write_section
               (newline +:+ "[CRITICAL] POLICY VIOLATIONS - MUST BE FIXED:")
               50 (errors v) r in
    let r := write_section
               (newline +:+
                "[WARNING] POLICY RECOMMENDATIONS - SHOULD BE ADDRESSED:")
               60 (warnings v) r in
    let r := write_section
               (newline +:+
                "[ADVISORY] OPTIMIZATION SUGGESTIONS - CONSIDER IMPLEMENTING:")
               65 (suggestions v) r in
    let r := write_output true (newline +:+ repeat_char "=" 80) r in
    let r := write_output true (summary_line v) r in
    let r := write_output true (repeat_char "=" 80) r in
    if wanted && bool_decide (written r ≠ None) then
      write_output false (newline +:+ "Validation report saved to: " +:+ name) r
    else r.

(** *** The lines of a report *)

(** The text a file gets from a list of messages: each one and a newline. *)
Definition text_of (lines : list string) : string :=
  fold_right (fun message text => message +:+ newline +:+ text) EmptyString lines.

Definition numbered_lines (fs : list finding) : list string :=
  imap (fun i f => pad2 (S i) +:+ ". " +:+ render f) fs.

Definition section_lines (title : string) (dashes : nat) (fs : list finding)
  : list string :=
  match fs with
  | [] => []
  | _ => title :: repeat_char "-" dashes :: numbered_lines fs
  end.

(** The report proper: the heading, then the statement of compliance or
    the sections that are not empty in the order errors, warnings,
    suggestions, then the summary. *)
Definition report_lines (v : validator) : list string :=
  [newline +:+ repeat_char "=" 80; "VALIDATION RESULTS"; repeat_char "=" 80] ++
  match errors v, warnings v, suggestions v with
  | [], [], [] =>
      ["STATUS: All enterprise policies are compliant.";
       "No issues found - configuration meets all organizational requirements.";
       repeat_char "=" 80]
  | _, _, _ =>
      section_lines (newline +:+ "[CRITICAL] POLICY VIOLATIONS - MUST BE FIXED:")
        50 (errors v) ++
      section_lines
        (newline +:+ "[WARNING] POLICY RECOMMENDATIONS - SHOULD BE ADDRESSED:")
        60 (warnings v) ++
      section_lines
        (newline +:+
         "[ADVISORY] OPTIMIZATION SUGGESTIONS - CONSIDER IMPLEMENTING:")
        65 (suggestions v) ++
      [newline +:+ repeat_char "=" 80; summary_line v; repeat_char "=" 80]
  end.

End Report.

(** The report after the messages [lines] went to the console and, when a
    file is open, to the file. *)
Definition emit (lines : list string) (r : report) : report :=
  mkReport (console r ++ lines)
    (option_map (fun text => text +:+ text_of lines) (written r)).

(** ** More sample inputs *)

(** The readable job file of the sample project. *)
Definition sample_job_file : job_file :=
  mkJobFile "resources/nightly.yml" "resources/nightly.yml" (Parsed sample_job_doc).

(** The unreadable one. *)
Definition broken_job_file : job_file :=
  mkJobFile "resources/broken.yml" "resources/broken.yml"
    (ReadFails MalformedSyntax "mapping values are not allowed here").

(** A job with its own tags and a cluster without custom tags. *)
Definition plain_job_doc : yaml :=
  YDict [("resources",
          YDict [("jobs",
                  YDict [("Hourly",
                          YDict [("tags", YDict [("team", YStr "data")]);
                                 ("job_clusters",
                                  YList [YDict [("job_cluster_key", YStr "main");
                                                ("new_cluster",
                                                 YDict [("num_workers", YInt 2)])]])])])])].

(** A bundle document without targets. *)
Definition untargeted_bundle_doc : yaml :=
  YDict [("variables", YDict [("catalog", YDict [("default", YStr "main")])])].

Definition untargeted_project : project :=
  mkProject "databricks.yml" (Parsed untargeted_bundle_doc) false [].

(** A bundle document whose two targets define the same variables. *)
Definition consistent_bundle_doc : yaml :=
  YDict [("targets",
          YDict [("dev", YDict [("variables", YDict [("x", YStr "1")])]);
                 ("prod", YDict [("variables", YDict [("x", YStr "2")])])])].

Definition consistent_project : project :=
  mkProject "databricks.yml" (Parsed consistent_bundle_doc) false [].

Definition consistent_environments : dict :=
  [("dev", YDict [("x", YStr "1")]); ("prod", YDict [("x", YStr "2")])].

(** A stand-in for the message of a finding. *)
Definition sample_render : finding -> string := fun _ => "finding".

(** ** Documents with shared mappings

    What the required-tag rule says about a document held in a heap, read
    off the heap the evaluator starts from. *)

(** The mapping, or the sequence, a value refers to. *)
Definition mapping_at (h : Shared.heap) (x : Shared.value)
  : option Shared.entries :=
  match x with
  | Shared.VRef l =>
      match h !! l with Some (Shared.ODict d) => Some d | _ => None end
  | _ => None
  end.

Definition sequence_at (h : Shared.heap) (x : Shared.value)
  : option (list Shared.value) :=
  match x with
  | Shared.VRef l =>
      match h !! l with Some (Shared.OList xs) => Some xs | _ => None end
  | _ => None
  end.

(** The value a mapping holds under a key. *)
Definition entry_of (k : string) (d : Shared.entries) : option Shared.value :=
  (fun found => snd (snd found)) <$> list_find (fun kv => fst kv = k) d.

(** The value under key [k] of the mapping [x] refers to. *)
Definition child (h : Shared.heap) (x : Shared.value) (k : string)
  : option Shared.value :=
  d ← mapping_at h x; entry_of k d.

(** The jobs under [resources.jobs]. *)
Definition jobs_at (h : Shared.heap) (config : Shared.value) : Shared.entries :=
  default [] (resources ← child h config "resources";
              jobs ← child h resources "jobs";
              mapping_at h jobs).

Definition own_tags_at (h : Shared.heap) (job_def : Shared.value)
  : Shared.entries :=
  default [] (tags ← child h job_def "tags"; mapping_at h tags).

Definition clusters_at (h : Shared.heap) (job_def : Shared.value)
  : list Shared.value :=
  default [] (clusters ← child h job_def "job_clusters"; sequence_at h clusters).

Definition custom_tags_at (h : Shared.heap) (cluster : Shared.value)
  : Shared.entries :=
  default [] (new_cluster ← child h cluster "new_cluster";
              custom_tags ← child h new_cluster "custom_tags";
              mapping_at h custom_tags).

(** The names of a mapping. *)
Definition names_of (d : Shared.entries) : gset string :=
  list_to_set (fst <$> d).

(** The tag names present on a job: those of its own tags and those of the
    custom tags of any of its clusters. *)
Definition present_tags_at (h : Shared.heap) (job_def : Shared.value)
  : gset string :=
  names_of (own_tags_at h job_def) ∪
  ⋃ ((fun cluster => names_of (custom_tags_at h cluster)) <$> clusters_at h job_def).

Definition missing_tags_at (h : Shared.heap) (job_def : Shared.value)
  : gset string :=
  required_tags ∖ present_tags_at h job_def.

(** The finding the required-tag rule calls for on one job. *)
Definition missing_finding_at (h : Shared.heap) (file_path : string)
  (job : string * Shared.value) : option finding :=
  let missing := missing_tags_at h (snd job) in
  if bool_decide (missing = ∅) then None
  else Some (MissingRequiredTags (fst job) file_path missing).

(** *** The shape the evaluator reads *)

Definition refers_to_mapping (h : Shared.heap) (x : Shared.value) : bool :=
  bool_decide (is_Some (mapping_at h x)).

(** A key that is absent, or holds what [ok] accepts. *)
Definition absent_or (ok : Shared.value -> bool) (x : option Shared.value)
  : bool :=
  match x with Some x => ok x | None => true end.

Definition shared_cluster (h : Shared.heap) (cluster : Shared.value) : bool :=
  refers_to_mapping h cluster &&
  absent_or
    (fun new_cluster =>
       refers_to_mapping h new_cluster &&
       absent_or (refers_to_mapping h) (child h new_cluster "custom_tags"))
    (child h cluster "new_cluster").

Definition shared_job (h : Shared.heap) (job_def : Shared.value) : bool :=
  refers_to_mapping h job_def &&
  absent_or (refers_to_mapping h) (child h job_def "tags") &&
  absent_or
    (fun clusters =>
       match sequence_at h clusters with
       | Some cs => forallb (shared_cluster h) cs
       | None => false
       end)
    (child h job_def "job_clusters").

(** The document, [resources] and [jobs] are mappings, and so are every
    job, its [tags], every cluster, its [new_cluster] and [custom_tags];
    [job_clusters] is a sequence. *)
Definition shared_config (h : Shared.heap) (config : Shared.value) : bool :=
  refers_to_mapping h config &&
  absent_or
    (fun resources =>
       refers_to_mapping h resources &&
       absent_or
         (fun jobs =>
            match mapping_at h jobs with
            | Some js => forallb (fun job => shared_job h (snd job)) js
            | None => false
            end)
         (child h resources "jobs"))
    (child h config "resources").

(** *** The objects the evaluator touches *)

Definition loc_of (x : Shared.value) : list Shared.loc :=
  match x with Shared.VRef l => [l] | _ => [] end.

Definition locs_of (x : option Shared.value) : list Shared.loc :=
  from_option loc_of [] x.

(** The object under the [tags] key of a job: the one [tags.update]
    writes to. *)
Definition tags_locs_job (h : Shared.heap) (job_def : Shared.value)
  : list Shared.loc :=
  locs_of (child h job_def "tags").

Definition tags_locs (h : Shared.heap) (config : Shared.value)
  : list Shared.loc :=
  jobs_at h config ≫= (fun job => tags_locs_job h (snd job)).

(** The objects the evaluator reads on its way: a cluster, its
    [new_cluster] and [custom_tags]; a job and its [job_clusters]; the
    document, [resources] and [jobs]. *)
Definition read_locs_cluster (h : Shared.heap) (cluster : Shared.value)
  : list Shared.loc :=
  loc_of cluster ++
  locs_of (child h cluster "new_cluster") ++
  locs_of (new_cluster ← child h cluster "new_cluster";
           child h new_cluster "custom_tags").

Definition read_locs_job (h : Shared.heap) (job_def : Shared.value)
  : list Shared.loc :=
  loc_of job_def ++
  locs_of (child h job_def "job_clusters") ++
  (clusters_at h job_def ≫= read_locs_cluster h).

Definition read_locs (h : Shared.heap) (config : Shared.value)
  : list Shared.loc :=
  loc_of config ++
  locs_of (child h config "resources") ++
  locs_of (resources ← child h config "resources"; child h resources "jobs") ++
  (jobs_at h config ≫= (fun job => read_locs_job h (snd job))).

(** No [tags] mapping is shared: the objects under the [tags] keys of the
    jobs are distinct from one another and from every object the evaluator
    reads on its way. *)
Definition tags_unshared (h : Shared.heap) (config : Shared.value) : Prop :=
  NoDup (tags_locs h config) /\
  Forall (fun l => l ∉ read_locs h config) (tags_locs h config).

(** Every object of [h] outside [W] is in [h'], as it was. *)
Definition keeps_objects (W : list Shared.loc) (h h' : Shared.heap) : Prop :=
  forall l o, l ∉ W -> h !! l = Some o -> h' !! l = Some o.

(** A cluster as the evaluator finds it in [h]: the custom tags it
    contributes and the objects read to get them. *)
Inductive cluster_view (h : Shared.heap) (cluster : Shared.value)
  : Shared.entries -> list Shared.loc -> Prop :=
| cluster_plain lc cd :
    cluster = Shared.VRef lc -> h !! lc = Some (Shared.ODict cd) ->
    entry_of "new_cluster" cd = None ->
    cluster_view h cluster [] [lc]
| cluster_untagged lc cd lnc ncd :
    cluster = Shared.VRef lc -> h !! lc = Some (Shared.ODict cd) ->
    entry_of "new_cluster" cd = Some (Shared.VRef lnc) ->
    h !! lnc = Some (Shared.ODict ncd) ->
    entry_of "custom_tags" ncd = None ->
    cluster_view h cluster [] [lc; lnc]
| cluster_tagged lc cd lnc ncd lct ctd :
    cluster = Shared.VRef lc -> h !! lc = Some (Shared.ODict cd) ->
    entry_of "new_cluster" cd = Some (Shared.VRef lnc) ->
    h !! lnc = Some (Shared.ODict ncd) ->
    entry_of "custom_tags" ncd = Some (Shared.VRef lct) ->
    h !! lct = Some (Shared.ODict ctd) ->
    cluster_view h cluster ctd [lc; lnc; lct].

(** The tags of a job after the overlay. *)
Definition merged_tags_at (h : Shared.heap) (job_def : Shared.value)
  : Shared.entries :=
  fold_left (fun tags cluster => Shared.dict_update tags (custom_tags_at h cluster))
    (clusters_at h job_def) (own_tags_at h job_def).

(** *** The tree a reference unfolds to

    [holds h x v]: followed through the heap [h], the value [v] reads as
    the tree [x].  An object reached from two places unfolds to two equal
    subtrees. *)
Fixpoint holds (h : Shared.heap) (x : yaml) (v : Shared.value) {struct x}
  : Prop :=
  match x with
  | YNull => v = Shared.VNull
  | YBool b => v = Shared.VBool b
  | YInt n => v = Shared.VInt n
  | YFloat q => v = Shared.VFloat q
  | YStr s => v = Shared.VStr s
  | YList l =>
      exists loc vs,
        v = Shared.VRef loc /\ h !! loc = Some (Shared.OList vs) /\
        (fix all (l : list yaml) (vs : list Shared.value) : Prop :=
           match l, vs with
           | [], [] => True
           | x :: l', v :: vs' => holds h x v /\ all l' vs'
           | _, _ => False
           end) l vs
  | YDict d =>
      exists loc es,
        v = Shared.VRef loc /\ h !! loc = Some (Shared.ODict es) /\
        (fix all (d : dict) (es : Shared.entries) : Prop :=
           match d, es with
           | [], [] => True
           | (k, x) :: d', (k', v) :: es' => k = k' /\ holds h x v /\ all d' es'
           | _, _ => False
           end) d es
  end.

(** An entry of a mapping and what it unfolds to. *)
Definition holds_entry (h : Shared.heap) (e : string * yaml)
  (e' : string * Shared.value) : Prop :=
  fst e = fst e' /\ holds h (snd e) (snd e').

(** *** A document with an anchor

    [[
    x-common-tags: &common {team: data}
    resources:
      jobs:
        Ingest:
          tags: *common
          job_clusters:
            - job_cluster_key: main
              new_cluster:
                custom_tags: {cost_center: cc1, environment: prod}
        Report:
          tags: *common
    ]]
    The two jobs refer to the one mapping of the anchor. *)
Definition anchored_heap : Shared.heap :=
  [ Shared.ODict [("x-common-tags", Shared.VRef 1); ("resources", Shared.VRef 2)];
    Shared.ODict [("team", Shared.VStr "data")];
    Shared.ODict [("jobs", Shared.VRef 3)];
    Shared.ODict [("Ingest", Shared.VRef 4); ("Report", Shared.VRef 9)];
    Shared.ODict [("tags", Shared.VRef 1); ("job_clusters", Shared.VRef 5)];
    Shared.OList [Shared.VRef 6];
    Shared.ODict [("job_cluster_key", Shared.VStr "main");
                  ("new_cluster", Shared.VRef 7)];
    Shared.ODict [("custom_tags", Shared.VRef 8)];
    Shared.ODict [("cost_center", Shared.VStr "cc1");
                  ("environment", Shared.VStr "prod")];
    Shared.ODict [("tags", Shared.VRef 1)] ].

Definition anchored_config : Shared.value := Shared.VRef 0.

(** The same document with the tags written out in each job: no object is
    shared. *)
Definition unshared_heap : Shared.heap :=
  [ Shared.ODict [("resources", Shared.VRef 1)];
    Shared.ODict [("jobs", Shared.VRef 2)];
    Shared.ODict [("Ingest", Shared.VRef 3); ("Report", Shared.VRef 9)];
    Shared.ODict [("tags", Shared.VRef 4); ("job_clusters", Shared.VRef 5)];
    Shared.ODict [("team", Shared.VStr "data")];
    Shared.OList [Shared.VRef 6];
    Shared.ODict [("job_cluster_key", Shared.VStr "main");
                  ("new_cluster", Shared.VRef 7)];
    Shared.ODict [("custom_tags", Shared.VRef 8)];
    Shared.ODict [("cost_center", Shared.VStr "cc1");
                  ("environment", Shared.VStr "prod")];
    Shared.ODict [("tags", Shared.VRef 10)];
    Shared.ODict [("team", Shared.VStr "data")] ].

Definition unshared_config : Shared.value := Shared.VRef 0.

(** The tree the document with the tags written out unfolds to. *)
Definition unshared_doc : yaml :=
  YDict [("resources",
          YDict [("jobs",
                  YDict [("Ingest",
                          YDict [("tags", YDict [("team", YStr "data")]);
                                 ("job_clusters",
                                  YList [YDict [("job_cluster_key", YStr "main");
                                                ("new_cluster",
                                                 YDict [("custom_tags",
                                                         YDict [("cost_center", YStr "cc1");
                                                                ("environment", YStr "prod")])])]])]);
                         ("Report",
                          YDict [("tags", YDict [("team", YStr "data")])])])])].

(** * Lemmas *)

Lemma bind_Ok {A B : Type} (m : result A) (k : A -> result B) (b : B) :
  bind m k = Ok b -> exists a, m = Ok a /\ k a = Ok b.
Proof. destruct m; simpl; eauto; discriminate. Qed.

Ltac inv_ok :=
  repeat match goal with
    | H : bind _ _ = Ok _ |- _ =>
        apply bind_Ok in H; destruct H as (? & ? & H)
    | H : Raise _ = Ok _ |- _ => discriminate H
    | H : Unmodelled = Ok _ |- _ => discriminate H
    | H : Ok _ = Ok _ |- _ => injection H as H
    | H : match ?x with _ => _ end = Ok _ |- _ => destruct x eqn:?
    end; simplify_eq.

Lemma for_each_app {A S : Type} (xs ys : list A) (body : A -> S -> result S) s :
  for_each (xs ++ ys) body s = (s' <- for_each xs body s ;; for_each ys body s').
Proof.
  revert s. induction xs as [|x xs IH]; intros s; simpl; [done|].
  destruct (body x s); simpl; auto.
Qed.

(** A relation that every iteration respects is respected by the loop. *)
Lemma for_each_rel {A S : Type} (R : S -> S -> Prop) `{!PreOrder R}
  (xs : list A) (body : A -> S -> result S) :
  (forall x s s', x ∈ xs -> body x s = Ok s' -> R s s') ->
  forall s s', for_each xs body s = Ok s' -> R s s'.
Proof.
  induction xs as [|x xs IH]; intros Hbody s s' H; simpl in H.
  - injection H as <-. reflexivity.
  - inv_ok. transitivity x0.
    + eapply Hbody; [left|done].
    + apply IH; [|done]. intros y t t' Hy. apply Hbody. by right.
Qed.

(** A loop whose iterations all complete completes. *)
Lemma for_each_total {A S : Type} (I : S -> Prop)
  (xs : list A) (body : A -> S -> result S) :
  (forall x s, x ∈ xs -> I s -> exists s', body x s = Ok s' /\ I s') ->
  forall s, I s -> exists s', for_each xs body s = Ok s' /\ I s'.
Proof.
  induction xs as [|x xs IH]; intros Hbody s Hs; simpl.
  - eauto.
  - destruct (Hbody x s) as (s1 & -> & H1); [left|done|]. simpl.
    apply IH; [|done]. intros y t Hy. apply Hbody. by right.
Qed.

Global Instance grows_preorder : PreOrder grows.
Proof.
  split.
  - intros v. by split.
  - intros v1 v2 v3 [] []. split; etrans; eauto.
Qed.

Lemma grows_add_error f v : grows v (add_error f v).
Proof. split; simpl; [by apply prefix_app_r|done..]. Qed.
Lemma grows_add_warning f v : grows v (add_warning f v).
Proof. split; simpl; [done|by apply prefix_app_r|done]. Qed.
Lemma grows_add_suggestion f v : grows v (add_suggestion f v).
Proof. split; simpl; [done..|by apply prefix_app_r]. Qed.

Lemma grows_then_error f v v' : grows v v' -> grows v (add_error f v').
Proof. intros. etrans; [done|apply grows_add_error]. Qed.
Lemma grows_then_warning f v v' : grows v v' -> grows v (add_warning f v').
Proof. intros. etrans; [done|apply grows_add_warning]. Qed.
Lemma grows_then_suggestion f v v' : grows v v' -> grows v (add_suggestion f v').
Proof. intros. etrans; [done|apply grows_add_suggestion]. Qed.

(** Works back from the last validator of a body to its first. *)
Ltac grows_chain :=
  repeat first
    [ reflexivity
    | apply grows_then_error
    | apply grows_then_warning
    | apply grows_then_suggestion
    | match goal with
      | H : grows ?e ?x |- grows _ ?x =>
          is_var x; transitivity e; [|exact H]; clear H
      | |- grows _ (if ?c then _ else _) => destruct c
      | |- grows _ (match ?x with _ => _ end) => destruct x
      end ].

(** ** The walk of [check_variable_usage_policy] *)

Lemma render_path_snoc steps s :
  render_path (steps ++ [s]) = extend_path (render_path steps) s.
Proof. unfold render_path. by rewrite fold_left_app. Qed.

Lemma list_omap_app {A B : Type} (f : A -> option B) (l1 l2 : list A) :
  list_omap A B f (l1 ++ l2) = list_omap A B f l1 ++ list_omap A B f l2.
Proof. apply (omap_app f l1 l2). Qed.

Lemma check_object_occurrences file_path obj :
  forall steps errs,
    check_object file_path obj (render_path steps) errs
    = errs ++ omap (hardcoded file_path) (occurrences obj steps).
Proof.
  induction obj as [| | | | |l IH|d IH] using yaml_nested_ind;
    intros steps errs; simpl; try by rewrite app_nil_r.
  - (* a sequence: the loop over [enumerate(obj)] *)
    set (path := render_path steps).
    revert errs. generalize 0%nat.
    induction IH as [|x l Hx _ IHl]; intros i errs; simpl.
    + by rewrite app_nil_r.
    + rewrite IHl. rewrite omap_app, app_assoc. f_equal.
      replace (path +:+ "[" +:+ pretty i +:+ "]")
        with (render_path (steps ++ [Index i]))
        by (by rewrite render_path_snoc).
      by rewrite Hx.
  - (* a mapping: the loop over [obj.items()] *)
    set (path := render_path steps).
    revert errs. induction IH as [|[key value] d Hv _ IHd]; intros errs; simpl.
    + by rewrite app_nil_r.
    + rewrite IHd. clear IHd.
      replace (if negb (String.eqb path EmptyString)
               then path +:+ "." +:+ key else key)
        with (render_path (steps ++ [Key key])).
      2:{ rewrite render_path_snoc. simpl. fold path.
          by destruct (String.eqb path EmptyString). }
      simpl in Hv. rewrite Hv.
      destruct (bool_decide (key ∈ sensitive_fields));
        [destruct value; try destruct (startswith s "${")|];
        simpl; rewrite ?list_omap_app, <- ?app_assoc; done.
Qed.

(** ** Every evaluator only appends *)

Lemma for_each_grows {A : Type} (xs : list A) (body : A -> validator -> result validator) :
  (forall x v v', body x v = Ok v' -> grows v v') ->
  forall v v', for_each xs body v = Ok v' -> grows v v'.
Proof. intros Hbody. apply for_each_rel; [apply _|]. intros x s s' _. apply Hbody. Qed.

Lemma load_yaml_grows path r v : grows v (snd (load_yaml path r v)).
Proof. destruct r; simpl; [apply grows_add_error|reflexivity]. Qed.

Lemma check_variable_usage_policy_spec job_config file_path v :
  check_variable_usage_policy job_config file_path v
  = Ok (mkValidator
          (errors v ++ omap (hardcoded file_path) (occurrences job_config []))
          (warnings v) (suggestions v)).
Proof.
  unfold check_variable_usage_policy.
  by rewrite <- (check_object_occurrences file_path job_config [] (errors v)).
Qed.

Lemma check_variable_usage_policy_grows job_config file_path v v' :
  check_variable_usage_policy job_config file_path v = Ok v' -> grows v v'.
Proof.
  rewrite check_variable_usage_policy_spec. intros [= <-].
  split; simpl; [by apply prefix_app_r|done..].
Qed.

Section Grows.
Variable yaml_dump : yaml -> string.
Variable py_repr : yaml -> string.
Variable set_iter : gset string -> list string.

Lemma naming_cluster_grows c v v' : naming_cluster c v = Ok v' -> grows v v'.
Proof. unfold naming_cluster. intros H. inv_ok; grows_chain. Qed.

Lemma naming_job_grows file_path job v v' :
  naming_job py_repr file_path job v = Ok v' -> grows v v'.
Proof.
  unfold naming_job. destruct job as [job_name job_def]. intros H. inv_ok.
  apply (for_each_grows _ _ naming_cluster_grows) in H. grows_chain.
Qed.

Lemma check_naming_conventions_grows job_config file_path v v' :
  check_naming_conventions py_repr job_config file_path v = Ok v' -> grows v v'.
Proof.
  unfold check_naming_conventions. intros H. inv_ok.
  eapply for_each_grows; [|done]. apply naming_job_grows.
Qed.

Lemma required_tags_job_grows file_path job st st' :
  required_tags_job file_path job st = Ok st' -> grows (snd st) (snd st').
Proof.
  unfold required_tags_job. destruct job as [job_name job_def], st as [done v].
  intros H. inv_ok. simpl. grows_chain.
Qed.

Lemma check_required_tags_grows job_config file_path v cv :
  check_required_tags job_config file_path v = Ok cv -> grows v (snd cv).
Proof.
  unfold check_required_tags. intros H. inv_ok. simpl.
  set (R := fun s s' : dict * validator => grows (snd s) (snd s')).
  assert (HR : PreOrder R).
  { split; [intros ?; red; reflexivity|intros ? ? ? ? ?; red; by etrans]. }
  change (R ([], v) x0).
  eapply (for_each_rel R); [|done].
  intros ? ? ? _. apply required_tags_job_grows.
Qed.

Lemma scan_secrets_grows file_path job_str v :
  grows v (scan_secrets file_path job_str v).
Proof.
  unfold scan_secrets. generalize security_patterns. intros ps.
  assert (Hgen : forall v0, grows v v0 ->
    grows v (fold_left
               (fun v pattern =>
                  if search_secret pattern job_str
                  then add_error (HardcodedSecret file_path) v else v) ps v0)).
  { induction ps as [|p ps IH]; intros v0 Hv0; simpl; [done|].
    apply IH. grows_chain; done. }
  by apply Hgen.
Qed.

Lemma security_task_grows job_name task v v' :
  security_task job_name task v = Ok v' -> grows v v'.
Proof. unfold security_task. intros H. inv_ok; grows_chain. Qed.

Lemma security_job_grows job v v' : security_job job v = Ok v' -> grows v v'.
Proof.
  unfold security_job. destruct job as [job_name job_def]. intros H.
  inv_ok;
    match goal with
    | H : for_each _ (security_task _) _ = Ok _ |- _ =>
        apply (for_each_grows _ _ (security_task_grows job_name)) in H
    end;
    grows_chain.
Qed.

Lemma check_security_compliance_grows job_config file_path v v' :
  check_security_compliance yaml_dump job_config file_path v = Ok v' ->
  grows v v'.
Proof.
  unfold check_security_compliance. intros H. inv_ok.
  etrans; [apply scan_secrets_grows|].
  eapply for_each_grows; [|done]. apply security_job_grows.
Qed.

Lemma cost_cluster_grows job_name cluster v v' :
  cost_cluster job_name cluster v = Ok v' -> grows v v'.
Proof. unfold cost_cluster. intros H. inv_ok; grows_chain. Qed.

Lemma check_cost_optimization_grows job_config file_path v v' :
  check_cost_optimization job_config file_path v = Ok v' -> grows v v'.
Proof.
  unfold check_cost_optimization. intros H. inv_ok.
  eapply for_each_grows; [|done]. intros [job_name job_def] w w' Hw.
  unfold cost_job in Hw. inv_ok.
  eapply for_each_grows; [|done]. apply cost_cluster_grows.
Qed.

Lemma check_best_practices_grows job_config file_path v v' :
  check_best_practices job_config file_path v = Ok v' -> grows v v'.
Proof.
  unfold check_best_practices. intros H. inv_ok.
  eapply for_each_grows; [|done]. intros [job_name job_def] w w' Hw.
  unfold best_practices_job in Hw. inv_ok; grows_chain.
Qed.

Lemma run_checks_grows job_config file_path v cv :
  run_checks yaml_dump py_repr job_config file_path v = Ok cv ->
  grows v (snd cv).
Proof.
  unfold run_checks. intros H. inv_ok. simpl.
  repeat match goal with
    | H : check_variable_usage_policy _ _ _ = Ok _ |- _ =>
        apply check_variable_usage_policy_grows in H
    | H : check_naming_conventions _ _ _ _ = Ok _ |- _ =>
        apply check_naming_conventions_grows in H
    | H : check_required_tags _ _ _ = Ok _ |- _ =>
        apply check_required_tags_grows in H; simpl in H
    | H : check_security_compliance _ _ _ _ = Ok _ |- _ =>
        apply check_security_compliance_grows in H
    | H : check_cost_optimization _ _ _ = Ok _ |- _ =>
        apply check_cost_optimization_grows in H
    | H : check_best_practices _ _ _ = Ok _ |- _ =>
        apply check_best_practices_grows in H
    end.
  grows_chain.
Qed.

Lemma validate_job_file_grows f v v' :
  validate_job_file yaml_dump py_repr f v = Ok v' -> grows v v'.
Proof.
  unfold validate_job_file. intros H.
  pose proof (load_yaml_grows (jf_path f) (jf_read f) v) as Hload.
  destruct (load_yaml (jf_path f) (jf_read f) v) as [job_config v1].
  simpl in Hload. inv_ok; [done|].
  match goal with
  | H : run_checks _ _ _ _ _ = Ok _ |- _ => apply run_checks_grows in H
  end.
  by etrans.
Qed.

Lemma job_files_grow fs v v' :
  for_each fs (validate_job_file yaml_dump py_repr) v = Ok v' -> grows v v'.
Proof. apply for_each_grows, validate_job_file_grows. Qed.

End Grows.

(** ** Dictionaries *)

Lemma dict_lookup_set k k' v d :
  dict_lookup k (dict_set k' v d)
  = if String.eqb k k' then Some v else dict_lookup k d.
Proof.
  induction d as [|[k1 v1] d IH]; simpl.
  - by destruct (String.eqb_spec k k').
  - destruct (String.eqb_spec k' k1) as [->|Hne]; simpl.
    + by destruct (String.eqb_spec k k1).
    + rewrite IH.
      destruct (String.eqb_spec k k1), (String.eqb_spec k k'); congruence.
Qed.

Lemma field_set_same k v d default : field (dict_set k v d) k default = v.
Proof. unfold field. by rewrite dict_lookup_set, String.eqb_refl. Qed.

Lemma field_set_other k k' v d default :
  String.eqb k k' = false ->
  field (dict_set k' v d) k default = field d k default.
Proof. intros Hne. unfold field. by rewrite dict_lookup_set, Hne. Qed.

Lemma dict_keys_set k v d : dict_keys (dict_set k v d) = {[k]} ∪ dict_keys d.
Proof.
  unfold dict_keys. induction d as [|[k1 v1] d IH]; simpl.
  - set_solver.
  - destruct (String.eqb_spec k k1) as [->|Hne]; simpl.
    + set_solver.
    + rewrite IH. set_solver.
Qed.

Lemma dict_keys_update d o :
  dict_keys (dict_update d o) = dict_keys d ∪ dict_keys o.
Proof.
  unfold dict_update. revert d.
  induction o as [|[k v] o IH]; intros d; simpl.
  - unfold dict_keys at 3. simpl. set_solver.
  - rewrite IH, dict_keys_set. unfold dict_keys at 4. simpl.
    fold (dict_keys o). set_solver.
Qed.

(** ** What the expected shape gives *)

Lemma jobs_shaped_inv ok job_config :
  jobs_shaped ok job_config = true ->
  exists c r jobs,
    job_config = YDict c /\
    field c "resources" (YDict []) = YDict r /\
    field r "jobs" (YDict []) = YDict jobs /\
    Forall (fun job => ok (snd job) = true) jobs.
Proof.
  unfold jobs_shaped. intros H.
  destruct job_config as [| | | | | |c]; try discriminate.
  destruct (field c "resources" (YDict [])) as [| | | | | |r] eqn:Hr;
    try discriminate.
  destruct (field r "jobs" (YDict [])) as [| | | | | |jobs] eqn:Hj;
    try discriminate.
  exists c, r, jobs. repeat split; try done.
  apply Forall_forall. intros job Hin.
  rewrite forallb_forall in H. apply H. by apply list_elem_of_In.
Qed.

Lemma jobs_shaped_jobs ok job_config :
  jobs_shaped ok job_config = true ->
  exists jobs,
    jobs_of job_config = Ok jobs /\
    Forall (fun job => ok (snd job) = true) jobs.
Proof.
  intros H. apply jobs_shaped_inv in H as (c & r & jobs & -> & Hr & Hj & Hwf).
  exists jobs. split; [|done].
  unfold jobs_of. simpl. rewrite Hr. simpl. by rewrite Hj.
Qed.

Lemma jobs_shaped_weaken (ok ok' : yaml -> bool) job_config :
  (forall job_def, ok job_def = true -> ok' job_def = true) ->
  jobs_shaped ok job_config = true -> jobs_shaped ok' job_config = true.
Proof.
  intros Himp. unfold jobs_shaped.
  destruct job_config as [| | | | | |c]; try done.
  destruct (field c "resources" (YDict [])) as [| | | | | |r]; try done.
  destruct (field r "jobs" (YDict [])) as [| | | | | |jobs]; try done.
  rewrite !forallb_forall. intros H job Hin. apply Himp. by apply H.
Qed.

Lemma wf_config_jobs job_config :
  wf_config job_config = true ->
  exists jobs,
    jobs_of job_config = Ok jobs /\
    Forall (fun job => wf_job (snd job) = true) jobs.
Proof. apply jobs_shaped_jobs. Qed.

Lemma tags_cluster_inv cluster :
  tags_cluster cluster = true ->
  exists c nc tags,
    cluster = YDict c /\
    field c "new_cluster" (YDict []) = YDict nc /\
    field nc "custom_tags" (YDict []) = YDict tags.
Proof.
  unfold tags_cluster. intros H.
  destruct cluster as [| | | | | |c]; try discriminate.
  destruct (field c "new_cluster" (YDict [])) as [| | | | | |nc] eqn:Hnc;
    try discriminate.
  destruct (field nc "custom_tags" (YDict [])) as [| | | | | |tags] eqn:Ht;
    try discriminate.
  by exists c, nc, tags.
Qed.

Lemma tags_job_inv job_def :
  tags_job job_def = true ->
  exists j tags cs,
    job_def = YDict j /\
    field j "tags" (YDict []) = YDict tags /\
    field j "job_clusters" (YList []) = YList cs /\
    Forall (fun c => tags_cluster c = true) cs.
Proof.
  unfold tags_job. intros H.
  destruct job_def as [| | | | | |j]; try discriminate.
  apply andb_prop in H as [Htags H].
  destruct (field j "tags" (YDict [])) as [| | | | | |tags] eqn:Ht;
    try discriminate.
  destruct (field j "job_clusters" (YList [])) as [| | | | |cs|] eqn:Hc;
    try discriminate.
  exists j, tags, cs. repeat split; try done.
  apply Forall_forall. intros c Hin.
  rewrite forallb_forall in H. apply H. by apply list_elem_of_In.
Qed.

Lemma wf_job_inv job_def :
  wf_job job_def = true ->
  exists j tags cs ts,
    job_def = YDict j /\
    field j "tags" (YDict []) = YDict tags /\
    field j "job_clusters" (YList []) = YList cs /\
    Forall (fun c => wf_cluster c = true) cs /\
    field j "tasks" (YList []) = YList ts /\
    Forall (fun t => wf_task t = true) ts /\
    is_number (field j "max_concurrent_runs" (YInt 1)) = true /\
    is_dict (field j "email_notifications" (YDict [])) = true.
Proof.
  unfold wf_job. intros H.
  destruct job_def as [| | | | | |j]; try discriminate.
  repeat (apply andb_prop in H as [H ?]).
  destruct (field j "tags" (YDict [])) as [| | | | | |tags] eqn:Ht;
    try discriminate.
  destruct (field j "job_clusters" (YList [])) as [| | | | |cs|] eqn:Hc;
    try discriminate.
  destruct (field j "tasks" (YList [])) as [| | | | |ts|] eqn:Hts;
    try discriminate.
  exists j, tags, cs, ts. repeat split; try done.
  - apply Forall_forall. intros c Hin.
    match goal with
    | H : forallb wf_cluster cs = true |- _ => rewrite forallb_forall in H; apply H
    end.
    by apply list_elem_of_In.
  - apply Forall_forall. intros t Hin.
    match goal with
    | H : forallb wf_task ts = true |- _ => rewrite forallb_forall in H; apply H
    end.
    by apply list_elem_of_In.
Qed.

Lemma wf_cluster_inv cluster :
  wf_cluster cluster = true ->
  exists c nc tags,
    cluster = YDict c /\
    (py_truthy (field c "job_cluster_key" (YStr EmptyString)) = false \/
     is_str (field c "job_cluster_key" (YStr EmptyString)) = true) /\
    field c "new_cluster" (YDict []) = YDict nc /\
    field nc "custom_tags" (YDict []) = YDict tags /\
    ascii_text (field nc "num_workers" YNull) = true /\
    short_digits (field nc "num_workers" YNull) = true.
Proof.
  unfold wf_cluster. intros H.
  destruct cluster as [| | | | | |c]; try discriminate.
  apply andb_prop in H as [Hkey H].
  destruct (field c "new_cluster" (YDict [])) as [| | | | | |nc] eqn:Hnc;
    try discriminate.
  apply andb_prop in H as [H Hshort].
  apply andb_prop in H as [Htags Hnum].
  destruct (field nc "custom_tags" (YDict [])) as [| | | | | |tags] eqn:Ht;
    try discriminate.
  exists c, nc, tags. repeat split; try done.
  apply orb_prop in Hkey as [Hkey|Hkey]; [left|by right].
  by apply negb_true_iff.
Qed.

Lemma wf_task_inv task :
  wf_task task = true ->
  exists t nt path,
    task = YDict t /\
    field t "notebook_task" (YDict []) = YDict nt /\
    field nt "notebook_path" (YStr EmptyString) = YStr path.
Proof.
  unfold wf_task. intros H.
  destruct task as [| | | | | |t]; try discriminate.
  destruct (field t "notebook_task" (YDict [])) as [| | | | | |nt] eqn:Hnt;
    try discriminate.
  destruct (field nt "notebook_path" (YStr EmptyString)) as [| | | |path| |] eqn:Hp;
    try discriminate.
  by exists t, nt, path.
Qed.

Lemma wf_cluster_tags cluster :
  wf_cluster cluster = true -> tags_cluster cluster = true.
Proof.
  intros H. apply wf_cluster_inv in H as (c & nc & tags & -> & _ & Hnc & Ht & _).
  unfold tags_cluster. by rewrite Hnc, Ht.
Qed.

Lemma wf_job_tags job_def : wf_job job_def = true -> tags_job job_def = true.
Proof.
  intros H.
  apply wf_job_inv in H as (j & tags & cs & ts & -> & Ht & Hcs & Hwf & _).
  unfold tags_job. rewrite Ht, Hcs. simpl.
  apply forallb_forall. intros c Hin. apply wf_cluster_tags.
  rewrite Forall_forall in Hwf. apply Hwf. by apply list_elem_of_In.
Qed.

Lemma wf_config_tags job_config :
  wf_config job_config = true -> tags_config job_config = true.
Proof. apply jobs_shaped_weaken, wf_job_tags. Qed.

(** ** On a document of the expected shape every evaluator completes *)

Lemma for_each_completes {A S : Type} (xs : list A) (body : A -> S -> result S) :
  Forall (fun x => forall s, exists s', body x s = Ok s') xs ->
  forall s, exists s', for_each xs body s = Ok s'.
Proof.
  intros Hbody s.
  destruct (for_each_total (fun _ => True) xs body) with (s := s)
    as (s' & Hs' & _); [|done|by eauto].
  intros x t Hx _. rewrite Forall_forall in Hbody.
  destruct (Hbody x Hx t) as (t' & Ht'). eauto.
Qed.

Lemma each_of_list j field_name xs :
  field j field_name (YList []) = YList xs ->
  each_of (YDict j) field_name = Ok xs.
Proof. intros H. unfold each_of. simpl. by rewrite H. Qed.

Lemma naming_cluster_total cluster v :
  wf_cluster cluster = true -> exists v', naming_cluster cluster v = Ok v'.
Proof.
  intros H. apply wf_cluster_inv in H as (c & nc & tags & -> & Hkey & _).
  unfold naming_cluster. simpl. destruct Hkey as [Hkey|Hkey].
  - rewrite Hkey. eauto.
  - destruct (field c "job_cluster_key" (YStr EmptyString)); try discriminate.
    destruct (py_truthy (YStr s)); eauto.
Qed.

(** *** Values that print *)

Lemma prints_lookup k d x :
  prints (YDict d) = true -> dict_lookup k d = Some x -> prints x = true.
Proof.
  simpl. induction d as [|[k' x'] d IH]; simpl; [done|].
  intros H. apply andb_prop in H as [Hx Hd].
  destruct (String.eqb k k'); [by intros [= <-]|by apply IH].
Qed.

Lemma prints_field d k default :
  prints (YDict d) = true -> prints default = true ->
  prints (field d k default) = true.
Proof.
  intros Hd Hdef. unfold field.
  destruct (dict_lookup k d) eqn:Hk; [by eapply prints_lookup|done].
Qed.

Lemma prints_item l x : prints (YList l) = true -> x ∈ l -> prints x = true.
Proof.
  simpl. rewrite forallb_forall. intros H Hin. apply H. by apply list_elem_of_In.
Qed.

Lemma prints_set k x d :
  prints (YDict d) = true -> prints x = true ->
  prints (YDict (dict_set k x d)) = true.
Proof.
  simpl. intros Hd Hx. induction d as [|[k' x'] d IH]; simpl.
  - by rewrite Hx.
  - simpl in Hd. apply andb_prop in Hd as [Hx' Hd].
    destruct (String.eqb k k'); simpl.
    + by rewrite Hx, Hd.
    + by rewrite Hx', IH.
Qed.

Lemma prints_update o : forall d,
  prints (YDict d) = true -> prints (YDict o) = true ->
  prints (YDict (dict_update d o)) = true.
Proof.
  unfold dict_update. induction o as [|[k x] o IH]; intros d Hd Ho; simpl; [done|].
  simpl in Ho. apply andb_prop in Ho as [Hx Ho].
  apply IH; [|done]. by apply prints_set.
Qed.

Lemma py_format_prints x : prints x = true -> py_format x = Ok tt.
Proof. unfold py_format. by intros ->. Qed.

Lemma cost_cluster_total job_name cluster v :
  wf_cluster cluster = true -> prints cluster = true ->
  exists v', cost_cluster job_name cluster v = Ok v'.
Proof.
  intros H Hp.
  apply wf_cluster_inv in H as (c & nc & tags & -> & _ & Hnc & _ & Hnum & Hshort).
  assert (Hpn : prints (field nc "num_workers" YNull) = true).
  { apply prints_field; [|done]. rewrite <- Hnc. by apply prints_field. }
  unfold cost_cluster. simpl. rewrite Hnc. simpl.
  destruct (field nc "num_workers" YNull) as [| |n| |s| |]; simpl; eauto.
  - simpl in Hpn. rewrite Hpn. simpl. eauto.
  - unfold py_isdigit. simpl in Hnum. rewrite Hnum. simpl.
    destruct (list_ascii_of_string s) as [|a cs] eqn:Hcs; simpl; [eauto|].
    simpl in Hshort. rewrite Hcs in Hshort. simpl in Hshort.
    destruct (is_digit a && forallb is_digit cs); simpl; [|eauto].
    simpl in Hshort. rewrite Hshort. simpl. eauto.
Qed.

Lemma security_task_total job_name task v :
  wf_task task = true -> exists v', security_task job_name task v = Ok v'.
Proof.
  intros H. apply wf_task_inv in H as (t & nt & path & -> & Hnt & Hpath).
  unfold security_task. simpl. rewrite Hnt. simpl. rewrite Hpath. simpl.
  destruct (contains "/tmp/" path); simpl; [eauto|].
  destruct (contains "/personal/" path); simpl; eauto.
Qed.

Section Totality.
Variable yaml_dump : yaml -> string.
Variable py_repr : yaml -> string.

Lemma py_str_prints x :
  prints x = true -> exists s, py_str py_repr x = Ok s.
Proof. intros H. unfold py_str. rewrite H. destruct x; eauto. Qed.

Lemma naming_job_total file_path job v :
  wf_job (snd job) = true -> prints (snd job) = true ->
  exists v', naming_job py_repr file_path job v = Ok v'.
Proof.
  destruct job as [job_name job_def]. simpl. intros H Hp.
  apply wf_job_inv in H as (j & tags & cs & ts & -> & _ & Hcs & Hwf & _).
  unfold naming_job. simpl.
  destruct (py_str_prints (field j "name" (YStr EmptyString))) as (name & ->);
    [by apply prints_field|].
  simpl. rewrite (each_of_list _ _ _ Hcs). simpl.
  apply for_each_completes.
  eapply Forall_impl; [exact Hwf|]. intros c Hc w. by apply naming_cluster_total.
Qed.

Lemma cost_job_total job v :
  wf_job (snd job) = true -> prints (snd job) = true ->
  exists v', cost_job job v = Ok v'.
Proof.
  destruct job as [job_name job_def]. simpl. intros H Hp.
  apply wf_job_inv in H as (j & tags & cs & ts & -> & _ & Hcs & Hwf & _).
  unfold cost_job. rewrite (each_of_list _ _ _ Hcs). simpl.
  assert (Hpcs : prints (YList cs) = true).
  { rewrite <- Hcs. by apply prints_field. }
  apply for_each_completes. rewrite Forall_forall in Hwf.
  apply Forall_forall. intros c Hc w.
  apply cost_cluster_total; [by apply Hwf|by eapply prints_item].
Qed.

Lemma security_job_total job v :
  wf_job (snd job) = true -> prints (snd job) = true ->
  exists v', security_job job v = Ok v'.
Proof.
  destruct job as [job_name job_def]. simpl. intros H Hp.
  apply wf_job_inv in H
    as (j & tags & cs & ts & -> & _ & _ & _ & Hts & Hwf & Hmax & _).
  unfold security_job. rewrite (each_of_list _ _ _ Hts). simpl.
  destruct (for_each_completes ts (security_task job_name)) with (s := v)
    as (v1 & ->).
  { eapply Forall_impl; [exact Hwf|]. intros t Ht w.
    by apply security_task_total. }
  simpl.
  assert (Hpm : prints (field j "max_concurrent_runs" (YInt 1)) = true)
    by (by apply prints_field).
  destruct (field j "max_concurrent_runs" (YInt 1)) as [|b|n|q| | |];
    try discriminate; simpl.
  - destruct (5 <? (if b then 1 else 0))%Z; simpl; eauto.
  - destruct (5 <? n)%Z; simpl; [|eauto].
    rewrite (py_format_prints (YInt n) Hpm). simpl. eauto.
  - destruct (negb (Qle_bool q (inject_Z 5))); simpl; eauto.
Qed.

Lemma best_practices_job_total job v :
  wf_job (snd job) = true -> exists v', best_practices_job job v = Ok v'.
Proof.
  destruct job as [job_name job_def]. simpl. intros H.
  apply wf_job_inv in H
    as (j & tags & cs & ts & -> & _ & _ & _ & _ & _ & _ & Hmail).
  unfold best_practices_job. simpl.
  destruct (field j "email_notifications" (YDict [])); try discriminate.
  simpl. eauto.
Qed.

(** The jobs of a document that prints print. *)
Lemma prints_jobs job_config jobs :
  prints job_config = true -> jobs_of job_config = Ok jobs ->
  Forall (fun job => prints (snd job) = true) jobs.
Proof.
  intros Hp Hjobs. unfold jobs_of in Hjobs.
  destruct job_config as [| | | | | |c]; try discriminate. simpl in Hjobs.
  assert (Hr : prints (field c "resources" (YDict [])) = true)
    by (by apply prints_field).
  destruct (field c "resources" (YDict [])) as [| | | | | |r]; try discriminate.
  simpl in Hjobs.
  assert (Hj : prints (field r "jobs" (YDict [])) = true)
    by (by apply prints_field).
  destruct (field r "jobs" (YDict [])) as [| | | | | |js]; try discriminate.
  injection Hjobs as <-. simpl in Hj. rewrite forallb_forall in Hj.
  apply Forall_forall. intros job Hin. apply Hj. by apply list_elem_of_In.
Qed.

(** One lemma for the four evaluators that are a loop over the jobs. *)
Lemma jobs_loop_total (body : string * yaml -> validator -> result validator)
  job_config v :
  (forall job w, wf_job (snd job) = true -> prints (snd job) = true ->
                 exists w', body job w = Ok w') ->
  wf_config job_config = true -> prints job_config = true ->
  exists v', (jobs <- jobs_of job_config ;; for_each jobs body v) = Ok v'.
Proof.
  intros Hbody H Hp. apply wf_config_jobs in H as (jobs & Hjobs & Hwf).
  pose proof (prints_jobs _ _ Hp Hjobs) as Hpj. rewrite Hjobs. simpl.
  apply for_each_completes. rewrite Forall_forall in Hwf, Hpj.
  apply Forall_forall. intros job Hjob w. apply Hbody; auto.
Qed.

Lemma check_naming_conventions_total job_config file_path v :
  wf_config job_config = true -> prints job_config = true ->
  exists v', check_naming_conventions py_repr job_config file_path v = Ok v'.
Proof. apply jobs_loop_total. intros. by apply naming_job_total. Qed.

Lemma check_security_compliance_total job_config file_path v :
  wf_config job_config = true -> prints job_config = true ->
  exists v', check_security_compliance yaml_dump job_config file_path v = Ok v'.
Proof.
  intros H Hp. unfold check_security_compliance, py_dump. rewrite Hp. simpl.
  apply jobs_loop_total; [|done..]. intros. by apply security_job_total.
Qed.

Lemma check_cost_optimization_total job_config file_path v :
  wf_config job_config = true -> prints job_config = true ->
  exists v', check_cost_optimization job_config file_path v = Ok v'.
Proof. apply jobs_loop_total. intros. by apply cost_job_total. Qed.

Lemma check_best_practices_total job_config file_path v :
  wf_config job_config = true -> prints job_config = true ->
  exists v', check_best_practices job_config file_path v = Ok v'.
Proof. apply jobs_loop_total. intros. by apply best_practices_job_total. Qed.

End Totality.

(** ** The required-tag evaluator on a document of the expected shape *)

Lemma merge_clusters_wf cs : forall tags,
  Forall (fun c => tags_cluster c = true) cs ->
  for_each cs merge_cluster_tags (YDict tags)
  = Ok (YDict (fold_left
                 (fun tags cluster => dict_update tags (custom_tags_of cluster))
                 cs tags)).
Proof.
  induction cs as [|c cs IH]; intros tags Hwf; simpl; [done|].
  apply Forall_cons in Hwf as [Hc Hcs].
  apply tags_cluster_inv in Hc as (d & nc & ct & -> & Hnc & Hct).
  unfold merge_cluster_tags at 1. simpl. rewrite Hnc. simpl. rewrite Hct. simpl.
  by rewrite IH.
Qed.

Lemma dict_keys_merged job_def :
  dict_keys (merged_tags job_def) = present_tag_names job_def.
Proof.
  unfold merged_tags, present_tag_names.
  generalize (own_tags job_def). induction (clusters_of job_def) as [|c cs IH];
    intros tags; simpl.
  - set_solver.
  - rewrite IH, dict_keys_update. set_solver.
Qed.

Lemma required_tags_job_wf file_path job done v :
  tags_job (snd job) = true ->
  required_tags_job file_path job (done, v)
  = Ok (done ++ [tagged job],
        match missing_tags_finding file_path job with
        | Some f => add_error f v
        | None => v
        end).
Proof.
  destruct job as [job_name job_def]. simpl. intros H.
  pose proof H as Hinv.
  apply tags_job_inv in Hinv as (j & tags & cs & -> & Htags & Hcs & Hwf).
  unfold required_tags_job. simpl. rewrite Htags.
  rewrite (each_of_list _ _ _ Hcs). simpl.
  rewrite (merge_clusters_wf cs tags Hwf). simpl.
  assert (Hm : fold_left
                 (fun tags cluster => dict_update tags (custom_tags_of cluster))
                 cs tags = merged_tags (YDict j)).
  { unfold merged_tags, own_tags, clusters_of. by rewrite Htags, Hcs. }
  rewrite Hm. unfold tagged, missing_tags_finding, missing_tags_of. simpl.
  rewrite <- dict_keys_merged.
  do 2 f_equal.
  destruct (decide (required_tags ∖ dict_keys (merged_tags (YDict j)) = ∅))
    as [He|Hne].
  - rewrite (bool_decide_eq_true_2 _ He).
    by rewrite bool_decide_eq_false_2 by (by intros ?).
  - rewrite (bool_decide_eq_false_2 _ Hne).
    by rewrite bool_decide_eq_true_2.
Qed.

Lemma required_tags_loop file_path jobs : forall done v,
  Forall (fun job => tags_job (snd job) = true) jobs ->
  for_each jobs (required_tags_job file_path) (done, v)
  = Ok (done ++ map tagged jobs,
        mkValidator (errors v ++ omap (missing_tags_finding file_path) jobs)
          (warnings v) (suggestions v)).
Proof.
  induction jobs as [|job jobs IH]; intros done v Hwf; simpl.
  - rewrite !app_nil_r. by destruct v.
  - apply Forall_cons in Hwf as [Hjob Hjobs].
    rewrite (required_tags_job_wf _ _ _ _ Hjob). simpl.
    rewrite IH by done. rewrite <- app_assoc. simpl. do 2 f_equal.
    destruct (missing_tags_finding file_path job); simpl; [|done].
    by rewrite <- app_assoc.
Qed.

Lemma check_required_tags_wf job_config file_path v :
  tags_config job_config = true ->
  check_required_tags job_config file_path v
  = Ok (store_jobs job_config (map tagged (jobs_in job_config)),
        mkValidator
          (errors v ++ omap (missing_tags_finding file_path) (jobs_in job_config))
          (warnings v) (suggestions v)).
Proof.
  intros H. apply jobs_shaped_jobs in H as (jobs & Hjobs & Hwf).
  unfold check_required_tags, jobs_in. rewrite Hjobs. simpl.
  by rewrite (required_tags_loop _ _ [] v Hwf).
Qed.

(** ** The expected shape survives the merge of the tags *)

Lemma wf_job_tagged job :
  wf_job (snd job) = true -> wf_job (snd (tagged job)) = true.
Proof.
  destruct job as [job_name job_def]. simpl. intros H.
  destruct job_def as [| | | | | |j]; try discriminate. simpl.
  destruct (dict_mem "tags" j); [|done].
  unfold wf_job in *. rewrite field_set_same.
  rewrite !field_set_other by reflexivity.
  repeat (apply andb_prop in H as [H ?]).
  repeat (apply andb_true_intro; split); done.
Qed.

Lemma wf_config_store_jobs job_config :
  wf_config job_config = true ->
  wf_config (store_jobs job_config (map tagged (jobs_in job_config))) = true.
Proof.
  intros H. pose proof H as Hinv.
  apply wf_config_jobs in Hinv as (jobs & Hjobs & Hwf).
  unfold jobs_in. rewrite Hjobs.
  destruct job_config as [| | | | | |c]; try done. simpl.
  destruct (dict_lookup "resources" c) as [[| | | | | |r]|]; try done.
  destruct (dict_lookup "jobs" r) as [[| | | | | |old]|]; try done.
  unfold wf_config, jobs_shaped. rewrite field_set_same, field_set_same.
  apply forallb_forall. intros job Hin. apply list_elem_of_In in Hin.
  apply list_elem_of_fmap in Hin as (job0 & -> & Hin0).
  apply wf_job_tagged. rewrite Forall_forall in Hwf. by apply Hwf.
Qed.

(** *** The merge of the tags brings in no integer that was not there *)

Lemma prints_own_tags job_def :
  prints job_def = true -> prints (YDict (own_tags job_def)) = true.
Proof.
  intros Hp. unfold own_tags. destruct job_def as [| | | | | |j]; try done.
  assert (Ht : prints (field j "tags" (YDict [])) = true)
    by (by apply prints_field).
  by destruct (field j "tags" (YDict [])).
Qed.

Lemma prints_custom_tags cluster :
  prints cluster = true -> prints (YDict (custom_tags_of cluster)) = true.
Proof.
  intros Hp. unfold custom_tags_of. destruct cluster as [| | | | | |c]; try done.
  assert (Hnc : prints (field c "new_cluster" (YDict [])) = true)
    by (by apply prints_field).
  destruct (field c "new_cluster" (YDict [])) as [| | | | | |nc]; try done.
  assert (Ht : prints (field nc "custom_tags" (YDict [])) = true)
    by (by apply prints_field).
  by destruct (field nc "custom_tags" (YDict [])).
Qed.

Lemma prints_clusters job_def :
  prints job_def = true -> prints (YList (clusters_of job_def)) = true.
Proof.
  intros Hp. unfold clusters_of. destruct job_def as [| | | | | |j]; try done.
  assert (Hcs : prints (field j "job_clusters" (YList [])) = true)
    by (by apply prints_field).
  by destruct (field j "job_clusters" (YList [])).
Qed.

Lemma prints_merged_tags job_def :
  prints job_def = true -> prints (YDict (merged_tags job_def)) = true.
Proof.
  intros Hp. unfold merged_tags.
  pose proof (prints_own_tags _ Hp) as Hown.
  pose proof (prints_clusters _ Hp) as Hcs.
  revert Hown Hcs. generalize (own_tags job_def), (clusters_of job_def).
  intros tags cs. revert tags.
  induction cs as [|c cs IH]; intros tags Htags Hcs; simpl; [done|].
  apply IH.
  - apply prints_update; [done|]. apply prints_custom_tags.
    eapply prints_item; [exact Hcs|left].
  - simpl in Hcs. by apply andb_prop in Hcs as [_ Hcs].
Qed.

Lemma prints_tagged job :
  prints (snd job) = true -> prints (snd (tagged job)) = true.
Proof.
  destruct job as [job_name job_def]. simpl. intros Hp.
  pose proof (prints_merged_tags _ Hp) as Hm.
  unfold store_tags. destruct job_def as [| | | | | |j]; try done.
  destruct (dict_mem "tags" j); [|done]. by apply prints_set.
Qed.

Lemma prints_store_jobs job_config :
  prints job_config = true ->
  prints (store_jobs job_config (map tagged (jobs_in job_config))) = true.
Proof.
  intros Hp. unfold store_jobs.
  destruct job_config as [| | | | | |c]; try done.
  destruct (dict_lookup "resources" c) as [[| | | | | |r]|] eqn:Hr; try done.
  destruct (dict_lookup "jobs" r) as [[| | | | | |old]|] eqn:Hj; try done.
  pose proof (prints_lookup _ _ _ Hp Hr) as Hpr.
  apply prints_set; [done|]. apply prints_set; [done|].
  assert (Hjobs : jobs_of (YDict c) = Ok old).
  { unfold jobs_of, field. simpl. unfold field. rewrite Hr. simpl.
    unfold field. by rewrite Hj. }
  pose proof (prints_jobs _ _ Hp Hjobs) as Hpj.
  unfold jobs_in. rewrite Hjobs. simpl. apply forallb_forall.
  intros job Hin. apply list_elem_of_In in Hin.
  apply list_elem_of_fmap in Hin as (job0 & -> & Hin0).
  apply prints_tagged. rewrite Forall_forall in Hpj. by apply Hpj.
Qed.

Section Suite.
Variable yaml_dump : yaml -> string.
Variable py_repr : yaml -> string.

Lemma run_checks_total job_config file_path v :
  wf_config job_config = true -> prints job_config = true ->
  exists v',
    run_checks yaml_dump py_repr job_config file_path v
    = Ok (store_jobs job_config (map tagged (jobs_in job_config)), v').
Proof.
  intros H Hp. unfold run_checks.
  rewrite check_variable_usage_policy_spec. simpl.
  edestruct (check_naming_conventions_total py_repr) as (v1 & ->);
    [exact H|exact Hp|].
  simpl. rewrite (check_required_tags_wf _ _ _ (wf_config_tags _ H)). simpl.
  pose proof (wf_config_store_jobs _ H) as H'.
  pose proof (prints_store_jobs _ Hp) as Hp'.
  edestruct (check_security_compliance_total yaml_dump) as (v2 & ->);
    [exact H'|exact Hp'|].
  simpl.
  edestruct check_cost_optimization_total as (v3 & ->); [exact H'|exact Hp'|].
  simpl.
  edestruct check_best_practices_total as (v4 & ->); [exact H'|exact Hp'|].
  simpl. eauto.
Qed.

End Suite.

(** ** The environments of the bundle document *)

Lemma dict_mem_keys k d : dict_mem k d = true <-> k ∈ dict_keys d.
Proof.
  unfold dict_mem, dict_keys. induction d as [|[k1 v1] d IH]; simpl.
  - split; [done|]. set_solver.
  - destruct (String.eqb_spec k k1) as [->|Hne].
    + split; [|done]. set_solver.
    + rewrite IH. set_solver.
Qed.

Lemma Forall_dict_set (P : yaml -> Prop) k v d :
  P v -> Forall (fun e => P (snd e)) d ->
  Forall (fun e => P (snd e)) (dict_set k v d).
Proof.
  intros Hv. induction 1 as [|[k1 v1] d Hd Hrest IH]; simpl.
  - by repeat constructor.
  - destruct (String.eqb k k1); by constructor.
Qed.

Lemma extract_loaded p v env v1 :
  extract_environment_variables p v = Ok (env, v1) ->
  v1 = snd (load_yaml (databricks_yaml p) (databricks_read p) v).
Proof.
  unfold extract_environment_variables.
  destruct (load_yaml (databricks_yaml p) (databricks_read p) v) as [config v0].
  intros H. by inv_ok.
Qed.

(** Every environment the loop over the targets builds is a merged
    mapping that holds the global variables. *)
Lemma extract_targets_loop (g : yaml) targets : forall env0 env,
  for_each targets
    (fun target env_variables =>
       let '(target_name, target_config) := target in
       target_variables <- py_get target_config "variables" (YDict []) ;;
       merged_variables <- py_merge g target_variables ;;
       Ok (dict_set target_name merged_variables env_variables)) env0 = Ok env ->
  Forall (fun e => is_dict (snd e) = true /\
                   env_var_names g ⊆ env_var_names (snd e)) env0 ->
  Forall (fun e => is_dict (snd e) = true /\
                   env_var_names g ⊆ env_var_names (snd e)) env.
Proof.
  induction targets as [|[name config] targets IH]; intros env0 env H Hinv;
    simpl in H.
  - by injection H as <-.
  - apply bind_Ok in H as (env1 & Hstep & H).
    eapply IH; [exact H|]. clear H IH.
    apply bind_Ok in Hstep as (tv & _ & Hstep).
    apply bind_Ok in Hstep as (merged & Hmerge & Hstep).
    injection Hstep as <-.
    apply (Forall_dict_set
             (fun x => is_dict x = true /\ env_var_names g ⊆ env_var_names x));
      [|done].
    unfold py_merge in Hmerge.
    destruct g as [| | | | | |dg]; try discriminate.
    destruct tv as [| | | | | |dt]; try discriminate.
    injection Hmerge as <-. simpl. split; [done|].
    rewrite dict_keys_update. set_solver.
Qed.

Lemma extract_environments p v doc env v1 :
  databricks_read p = Parsed doc ->
  extract_environment_variables p v = Ok (env, v1) ->
  Forall (fun e => global_variable_names doc ⊆ env_var_names (snd e)) env /\
  (2 <= length env -> Forall (fun e => is_dict (snd e) = true) env).
Proof.
  unfold extract_environment_variables. intros Hread. rewrite Hread. simpl.
  destruct (py_truthy doc) eqn:Htruthy; simpl.
  2:{ intros [= <- <-]. split; [done|]. simpl. lia. }
  rewrite Htruthy. simpl. intros H.
  apply bind_Ok in H as (g & Hg & H).
  apply bind_Ok in H as (targets & Htargets & H).
  apply bind_Ok in H as (items & Hitems & H).
  apply bind_Ok in H as (env1 & Hloop & H).
  destruct doc as [| | | | | |c]; try discriminate.
  simpl in Hg. injection Hg as <-.
  apply extract_targets_loop in Hloop; [|done].
  simpl. destruct env1 as [|e env1]; simpl in H.
  - destruct (py_truthy (field c "variables" (YDict []))); simpl in H;
      injection H as <- <-.
    + split; [|simpl; lia]. by repeat constructor.
    + split; [done|simpl; lia].
  - injection H as <- <-. split.
    + eapply Forall_impl; [exact Hloop|]. by intros ? [_ ?].
    + intros _. eapply Forall_impl; [exact Hloop|]. by intros ? [? _].
Qed.

Lemma extract_failed_read p v why err :
  databricks_read p = ReadFails why err ->
  extract_environment_variables p v
  = Ok ([], add_error (LoadFailure (databricks_yaml p) err) v).
Proof.
  unfold extract_environment_variables. intros ->. by simpl.
Qed.

(** ** The comparison of the environments *)

Lemma all_var_names_loop env : forall acc,
  Forall (fun e => is_dict (snd e) = true) env ->
  for_each (map snd env)
    (fun env_vars all_var_names =>
       ks <- py_keys env_vars ;; Ok (all_var_names ∪ ks)) acc
  = Ok (acc ∪ all_variable_names env).
Proof.
  unfold all_variable_names.
  induction env as [|[name vars] env IH]; intros acc Hd; simpl.
  - f_equal. set_solver.
  - apply Forall_cons in Hd as [Hvars Hd]. simpl in Hvars.
    destruct vars as [| | | | | |d]; try discriminate. simpl.
    rewrite IH by done. f_equal. set_solver.
Qed.

Lemma missing_envs_loop var_name env : forall acc,
  Forall (fun e => is_dict (snd e) = true) env ->
  for_each env
    (fun env missing_envs =>
       let '(env_name, env_vars) := env in
       present <- py_in var_name env_vars ;;
       Ok (if negb present then missing_envs ++ [env_name] else missing_envs))
    acc
  = Ok (acc ++ lacking env var_name).
Proof.
  unfold lacking.
  induction env as [|[name vars] env IH]; intros acc Hd; simpl.
  - by rewrite app_nil_r.
  - apply Forall_cons in Hd as [Hvars Hd]. simpl in Hvars.
    destruct vars as [| | | | | |d]; try discriminate. simpl.
    rewrite IH by done. f_equal.
    rewrite filter_cons. simpl.
    destruct (dict_mem var_name d) eqn:Hmem; simpl.
    + apply dict_mem_keys in Hmem. by rewrite decide_False by (by intros ?).
    + rewrite decide_True.
      * simpl. by rewrite <- app_assoc.
      * intros Hin. apply dict_mem_keys in Hin. congruence.
Qed.

Lemma consistency_var_spec env var_name v :
  Forall (fun e => is_dict (snd e) = true) env ->
  consistency_var env var_name v
  = Ok (match consistency_finding env var_name with
        | Some f => add_warning f v
        | None => v
        end).
Proof.
  intros Hd. unfold consistency_var, missing_envs_of, consistency_finding.
  rewrite (missing_envs_loop var_name env [] Hd). simpl.
  by destruct (lacking env var_name).
Qed.

Lemma consistency_loop env vars : forall v,
  Forall (fun e => is_dict (snd e) = true) env ->
  for_each vars (consistency_var env) v
  = Ok (mkValidator (errors v)
          (warnings v ++ omap (consistency_finding env) vars) (suggestions v)).
Proof.
  induction vars as [|var vars IH]; intros v Hd; simpl.
  - rewrite app_nil_r. by destruct v.
  - rewrite consistency_var_spec by done. simpl. rewrite IH by done.
    destruct (consistency_finding env var); simpl; [|done].
    by rewrite <- app_assoc.
Qed.

Section Consistency.
Variable set_iter : gset string -> list string.

Lemma consistency_few p v env v1 :
  extract_environment_variables p v = Ok (env, v1) ->
  (length env < 2)%nat ->
  validate_environment_consistency set_iter p v = Ok v1.
Proof.
  intros Hex Hlen. unfold validate_environment_consistency. rewrite Hex. simpl.
  apply Nat.ltb_lt in Hlen. by rewrite Hlen.
Qed.

Lemma consistency_many p v env v1 :
  extract_environment_variables p v = Ok (env, v1) ->
  (2 <= length env)%nat ->
  Forall (fun e => is_dict (snd e) = true) env ->
  validate_environment_consistency set_iter p v
  = Ok (mkValidator (errors v1)
          (warnings v1 ++
           omap (consistency_finding env) (set_iter (all_variable_names env)))
          (suggestions v1)).
Proof.
  intros Hex Hlen Hd. unfold validate_environment_consistency.
  rewrite Hex. simpl.
  apply Nat.ltb_ge in Hlen. rewrite Hlen.
  rewrite (all_var_names_loop env ∅ Hd). simpl.
  rewrite union_empty_l_L. by apply consistency_loop.
Qed.

End Consistency.

(** ** The scan for secrets: one finding for each pattern that matches *)

Lemma scan_secrets_per_pattern file_path job_str v :
  errors (scan_secrets file_path job_str v)
  = errors v ++
    map (fun _ => HardcodedSecret file_path)
      (filter (fun w => search_secret w job_str = true) security_patterns).
Proof.
  unfold scan_secrets, security_patterns. simpl. rewrite !filter_cons, filter_nil.
  destruct (search_secret "password" job_str),
    (search_secret "secret" job_str),
    (search_secret "token" job_str),
    (search_secret "key" job_str); simpl;
    repeat (rewrite decide_True by done);
    repeat (rewrite decide_False by done);
    simpl; rewrite <- ?app_assoc, ?app_nil_r; done.
Qed.

(** A text that shows the quoted literal three times gets one finding. *)
Example scan_quoted_text :
  errors (scan_secrets "job.yml" quoted_text new_validator)
  = [HardcodedSecret "job.yml"].
Proof. reflexivity. Qed.

(** The dump of [hunter2_doc] gets none. *)
Example scan_hunter2_dump :
  errors (scan_secrets "job.yml" hunter2_dump new_validator) = [].
Proof. reflexivity. Qed.

(** ** The rules on small documents *)

Example hardcoded_in_sequence :
  omap (hardcoded "job.yml")
    (occurrences
       (YDict [("jobs",
                YList [YDict [("catalog", YStr "main")];
                       YDict [("schema", YStr "${var.schema}");
                              ("volume", YInt 3)]])]) [])
  = [HardcodedSensitive "jobs[0].catalog" "job.yml" "main"].
Proof. vm_compute. reflexivity. Qed.

Example sample_job_lacks_environment :
  omap (missing_tags_finding "job.yml") (jobs_in sample_job_doc)
  = [MissingRequiredTags "Nightly" "job.yml" {["environment"]}].
Proof. vm_compute. reflexivity. Qed.

(** * The claims *)

Section Claims.
Variable yaml_dump : yaml -> string.
Variable py_repr : yaml -> string.
Variable set_iter : gset string -> list string.
Hypothesis set_iter_perm : forall X, set_iter X ≡ₚ elements X.

(** C1. For every run that reaches the end of [main], the exit code is 0
    when there is no accumulated error and either no warning or no
    [--strict], and 1 when an error is present or [--strict] is set and a
    warning is present; the suggestions do not enter the exit code. *)
Theorem exit_code_policy (strict : bool) (p : project) is_valid v :
  validate yaml_dump py_repr set_iter p new_validator = Ok (is_valid, v) ->
  exists code,
    main yaml_dump py_repr set_iter strict p = Ok code /\
    (code = 0%Z <-> errors v = [] /\ (warnings v = [] \/ strict = false)) /\
    (code = 1%Z <-> errors v <> [] \/ (strict = true /\ warnings v <> [])) /\
    (forall other_suggestions,
        exit_status strict is_valid
          (mkValidator (errors v) (warnings v) other_suggestions) = code).
Proof.
  intros Hrun. exists (exit_status strict is_valid v).
  unfold main. rewrite Hrun. simpl. split; [done|].
  assert (is_valid = (length (errors v) =? 0)%nat) as ->.
  { unfold validate in Hrun. by inv_ok. }
  unfold exit_status. destruct v as [es ws ss]. simpl.
  destruct es as [|e es], ws as [|w ws], strict; simpl;
    intuition (discriminate || congruence).
Qed.

(** C3. For every mapping entry of a document whose key is a sensitive
    field and whose value is a string that does not start with the variable
    sentinel, the variable-usage evaluator appends exactly one error naming
    the rendered path, the file and the literal value, entry by entry in
    document order; no other entry produces an error, and the evaluator
    appends nothing to the warnings and suggestions. *)
Theorem hardcoded_sensitive_fields_reported job_config file_path v :
  exists v',
    check_variable_usage_policy job_config file_path v = Ok v' /\
    errors v' = errors v ++ omap (hardcoded file_path) (occurrences job_config []) /\
    warnings v' = warnings v /\
    suggestions v' = suggestions v.
Proof.
  eexists. split; [apply check_variable_usage_policy_spec|]. done.
Qed.

(** C6. When the read of a job file fails, whatever the failure, the loader
    returns the empty mapping and appends exactly one error holding the file
    path and the error text; it returns normally, and [validate_job_file]
    stops there: no evaluator adds a finding for that file. *)
Theorem load_failure_recorded_once (f : job_file) why err v :
  jf_read f = ReadFails why err ->
  load_yaml (jf_path f) (jf_read f) v
  = (YDict [],
     mkValidator (errors v ++ [LoadFailure (jf_path f) err])
       (warnings v) (suggestions v)) /\
  validate_job_file yaml_dump py_repr f v
  = Ok (mkValidator (errors v ++ [LoadFailure (jf_path f) err])
          (warnings v) (suggestions v)).
Proof.
  intros Hread. unfold validate_job_file. rewrite Hread. by simpl.
Qed.

(** C9, as the code has it.  The orchestrator does not test whether
    [databricks.yml] is there: the consistency stage always goes through the
    loader.  When the file is absent the stage appends exactly one error, the
    load failure with the path and the error text, and no warning and no
    suggestion; a run that completes then reports failure. *)
Theorem absent_bundle_recorded_as_error (p : project) err v :
  databricks_read p = ReadFails MissingFile err ->
  validate_environment_consistency set_iter p v
  = Ok (mkValidator (errors v ++ [LoadFailure (databricks_yaml p) err])
          (warnings v) (suggestions v)) /\
  (forall is_valid v',
      validate yaml_dump py_repr set_iter p v = Ok (is_valid, v') ->
      is_valid = false).
Proof.
  intros Hread.
  assert (Hstage : validate_environment_consistency set_iter p v
    = Ok (mkValidator (errors v ++ [LoadFailure (databricks_yaml p) err])
            (warnings v) (suggestions v))).
  { unfold validate_environment_consistency, extract_environment_variables.
    rewrite Hread. by simpl. }
  split; [done|]. intros is_valid v' Hrun.
  unfold validate in Hrun. rewrite Hstage in Hrun. simpl in Hrun.
  apply bind_Ok in Hrun as (v1 & Hfiles & Hrun). injection Hrun as <- <-.
  assert (Hgrows : grows
            (mkValidator (errors v ++ [LoadFailure (databricks_yaml p) err])
               (warnings v) (suggestions v)) v1).
  { destruct (jobs_dir_exists p).
    - by eapply job_files_grow.
    - by injection Hfiles as <-. }
  destruct Hgrows as [[rest Herr] _ _]. simpl in Herr. rewrite Herr.
  rewrite !length_app. simpl. apply Nat.eqb_neq. lia.
Qed.

(** C4, the code at the failing input.  [yaml.dump] prints the string
    [hunter2] as a plain scalar, so the text the evaluator scans has no quote
    after [password:]; none of the four patterns matches and no finding is
    appended for the document that holds [password: "hunter2"]. *)
Theorem quoted_password_not_reported file_path v :
  yaml_dump hunter2_doc = hunter2_dump ->
  check_security_compliance yaml_dump hunter2_doc file_path v = Ok v.
Proof.
  intros Hdump. unfold check_security_compliance, py_dump.
  assert (prints hunter2_doc = true) as -> by (vm_compute; reflexivity).
  simpl bind. rewrite Hdump.
  destruct v as [es ws ss]. vm_compute. reflexivity.
Qed.

(** C5. With fewer than two environments the consistency checker adds
    nothing to what the load of the bundle document left, and a document
    that was read leaves the validator as it was.  With two or more, it adds
    to the warnings, and only to them, exactly one finding for each variable
    name of the union that some environment lacks, naming the variable and
    the environments that lack it. *)
Theorem environment_consistency_findings (p : project) v env v1 :
  extract_environment_variables p v = Ok (env, v1) ->
  ((length env < 2)%nat ->
   validate_environment_consistency set_iter p v = Ok v1) /\
  ((2 <= length env)%nat ->
   exists ws,
     validate_environment_consistency set_iter p v
     = Ok (mkValidator (errors v1) (warnings v1 ++ ws) (suggestions v1)) /\
     ws ≡ₚ omap (consistency_finding env) (elements (all_variable_names env))) /\
  (forall doc, databricks_read p = Parsed doc -> v1 = v).
Proof.
  intros Hex. split; [|split].
  - by apply consistency_few.
  - intros Hlen.
    destruct (databricks_read p) as [why err|doc] eqn:Hread.
    + rewrite (extract_failed_read _ _ _ _ Hread) in Hex.
      injection Hex as <- <-. simpl in Hlen. lia.
    + destruct (extract_environments _ _ _ _ _ Hread Hex) as [_ Hdicts].
      eexists. split; [by apply consistency_many; auto|].
      by rewrite set_iter_perm.
  - intros doc Hread. apply extract_loaded in Hex. rewrite Hread in Hex.
    by simpl in Hex.
Qed.

(** C7, as the code has it.  On a loaded document of the expected shape
    (mappings where the evaluators call [get] and [items], sequences where
    they loop, a digit string for [num_workers] short enough for [int]),
    whose integers are all within the limit of [str] and which is nested no
    deeper than [max_nesting], the six evaluators all complete, and what
    they do is append findings.  The evaluators have no guard of their own:
    on another shape they raise, and so they do on an integer beyond the
    limit.  A value of type [yaml] is a tree, so the statement is about
    documents without aliases.  The recursion limit of the interpreter is
    not part of the embedding: [yaml.dump] recurses over the document and
    raises on one nested too deep, which the bound on the nesting leaves
    out. *)
Theorem evaluators_complete_on_expected_shape job_config file_path v :
  wf_config job_config = true ->
  prints job_config = true ->
  (depth job_config <= max_nesting)%nat ->
  exists job_config' v',
    run_checks yaml_dump py_repr job_config file_path v = Ok (job_config', v') /\
    grows v v'.
Proof.
  intros H Hp _.
  destruct (run_checks_total yaml_dump py_repr job_config file_path v H Hp)
    as (v' & Hrun).
  do 2 eexists. split; [exact Hrun|].
  by apply (run_checks_grows _ _ _ _ _ _ Hrun).
Qed.

(** C8, the code at the failing input.  The sample job has a [tags] mapping
    with the one name [team] and a cluster with the custom tag
    [cost_center].  After the suite the document is another one: the job's
    [tags] mapping holds [cost_center] as well. *)
Theorem required_tag_check_rewrites_tags v :
  exists job_config' v',
    run_checks yaml_dump py_repr sample_job_doc "resources/nightly.yml" v
    = Ok (job_config', v') /\
    job_config' <> sample_job_doc /\
    map (fun job => own_tags (snd job)) (jobs_in sample_job_doc)
    = [[("team", YStr "data")]] /\
    map (fun job => own_tags (snd job)) (jobs_in job_config')
    = [[("team", YStr "data"); ("cost_center", YStr "cc1")]].
Proof.
  assert (Hwf : wf_config sample_job_doc = true) by (vm_compute; reflexivity).
  assert (Hp : prints sample_job_doc = true) by (vm_compute; reflexivity).
  destruct (run_checks_total yaml_dump py_repr sample_job_doc
              "resources/nightly.yml" v Hwf Hp) as (v' & Hrun).
  do 2 eexists. split; [exact Hrun|].
  split; [|split]; [|reflexivity|reflexivity].
  intros Heq.
  apply (f_equal (fun c => map (fun job => own_tags (snd job)) (jobs_in c)))
    in Heq.
  vm_compute in Heq. discriminate Heq.
Qed.

(** C10. Whatever the targets are, each environment the bundle document
    gives holds every name of the top-level [variables] mapping, and the
    consistency checker never reports such a name as missing. *)
Theorem global_variables_never_reported_missing (p : project) v doc env v1 :
  databricks_read p = Parsed doc ->
  extract_environment_variables p v = Ok (env, v1) ->
  (forall e, e ∈ env -> global_variable_names doc ⊆ env_var_names (snd e)) /\
  exists ws,
    validate_environment_consistency set_iter p v
    = Ok (mkValidator (errors v) (warnings v ++ ws) (suggestions v)) /\
    (forall var_name envs,
        VariableMissing var_name envs ∈ ws ->
        var_name ∉ global_variable_names doc).
Proof.
  intros Hread Hex.
  destruct (extract_environments _ _ _ _ _ Hread Hex) as [Hglobal Hdicts].
  assert (v1 = v) as ->.
  { apply extract_loaded in Hex. rewrite Hread in Hex. by simpl in Hex. }
  split; [by apply Forall_forall|].
  destruct (decide (length env < 2)%nat) as [Hfew|Hmany].
  - exists []. split.
    + rewrite (consistency_few set_iter _ _ _ _ Hex Hfew).
      rewrite app_nil_r. by destruct v.
    + intros var_name envs Hin. by apply elem_of_nil in Hin.
  - eexists. split.
    + apply consistency_many; [exact Hex|lia|apply Hdicts; lia].
    + intros var_name envs Hin Hg.
      apply list_elem_of_omap in Hin as (var & _ & Hfinding).
      unfold consistency_finding in Hfinding.
      destruct (lacking env var) as [|e0 es] eqn:Hlack; [done|].
      injection Hfinding as Hvar Henvs. subst var.
      assert (He0 : e0 ∈ lacking env var_name) by (rewrite Hlack; left).
      unfold lacking in He0.
      apply list_elem_of_fmap in He0 as (e & _ & He).
      apply list_elem_of_filter in He as [Hnot He].
      rewrite Forall_forall in Hglobal. apply Hnot. by apply (Hglobal e He).
Qed.

End Claims.

(** C1 at a concrete run: the sample project under [--strict]. *)
Lemma exit_code_policy_witness :
  exists code,
    main dump_plain_mapping sample_repr elements true sample_project = Ok code /\
    code = 1%Z.
Proof.
  edestruct (exit_code_policy dump_plain_mapping sample_repr elements
               true sample_project) as (code & Hmain & _ & H1 & _).
  - vm_compute. reflexivity.
  - exists code. split; [exact Hmain|]. apply H1. left. discriminate.
Defined.

(** C4 at a dump that prints plain scalars. *)
Lemma quoted_password_not_reported_witness :
  dump_plain_mapping hunter2_doc = hunter2_dump /\
  check_security_compliance dump_plain_mapping hunter2_doc "resources/job.yml"
    new_validator = Ok new_validator.
Proof.
  split; [reflexivity|].
  apply (quoted_password_not_reported dump_plain_mapping
           "resources/job.yml" new_validator).
  reflexivity.
Defined.

(** C5 at the sample project: [dev] defines [x] and [y] on top of the global
    [catalog], [prod] defines [x]; the one warning reports [y] missing from
    [prod]. *)
Lemma environment_consistency_findings_witness :
  extract_environment_variables sample_project new_validator
  = Ok (sample_environments, new_validator) /\
  validate_environment_consistency elements sample_project new_validator
  = Ok (mkValidator [] [VariableMissing "y" ["prod"]] []).
Proof.
  split; [reflexivity|].
  destruct (environment_consistency_findings elements
              (fun X => reflexivity (elements X))
              sample_project new_validator sample_environments new_validator
              eq_refl) as (_ & Hmany & _).
  destruct Hmany as (ws & Hrun & Hws); [simpl; lia|].
  rewrite Hrun. simpl. do 2 f_equal.
  assert (Hone : omap (consistency_finding sample_environments)
                   (elements (all_variable_names sample_environments))
                 = [VariableMissing "y" ["prod"]]) by (vm_compute; reflexivity).
  rewrite Hone in Hws. by apply Permutation_singleton_r in Hws.
Defined.

(** C6 at the unreadable job file of the sample project. *)
Lemma load_failure_recorded_once_witness :
  validate_job_file dump_plain_mapping sample_repr
    (mkJobFile "resources/broken.yml" "resources/broken.yml"
       (ReadFails MalformedSyntax "mapping values are not allowed here"))
    new_validator
  = Ok (mkValidator
          [LoadFailure "resources/broken.yml"
             "mapping values are not allowed here"] [] []).
Proof.
  apply (load_failure_recorded_once dump_plain_mapping sample_repr
           (mkJobFile "resources/broken.yml" "resources/broken.yml"
              (ReadFails MalformedSyntax "mapping values are not allowed here"))
           MalformedSyntax "mapping values are not allowed here" new_validator).
  reflexivity.
Defined.

(** C7 at the sample job. *)
Lemma evaluators_complete_on_expected_shape_witness :
  wf_config sample_job_doc = true /\
  prints sample_job_doc = true /\
  (depth sample_job_doc <= max_nesting)%nat /\
  exists job_config' v',
    run_checks dump_plain_mapping sample_repr sample_job_doc
      "resources/nightly.yml" new_validator = Ok (job_config', v') /\
    grows new_validator v'.
Proof.
  split; [vm_compute; reflexivity|].
  split; [vm_compute; reflexivity|].
  split; [vm_compute; lia|].
  apply (evaluators_complete_on_expected_shape dump_plain_mapping sample_repr
           sample_job_doc "resources/nightly.yml" new_validator).
  - vm_compute; reflexivity.
  - vm_compute; reflexivity.
  - vm_compute; lia.
Defined.

(** C7 as stated fails: a job definition that is a string makes three
    evaluators, and with them the suite, raise [AttributeError]; the sibling
    job is never looked at. *)
Lemma non_mapping_job_raises :
  py_truthy malformed_job_doc = true /\
  check_naming_conventions sample_repr malformed_job_doc "resources/jobs.yml"
    new_validator = Raise AttributeError /\
  check_security_compliance dump_plain_mapping malformed_job_doc
    "resources/jobs.yml" new_validator = Raise AttributeError /\
  check_best_practices malformed_job_doc "resources/jobs.yml" new_validator
  = Raise AttributeError /\
  run_checks dump_plain_mapping sample_repr malformed_job_doc
    "resources/jobs.yml" new_validator = Raise AttributeError.
Proof. repeat split; reflexivity. Qed.

(** C9 at a project without [databricks.yml]. *)
Lemma absent_bundle_recorded_as_error_witness :
  validate_environment_consistency elements absent_bundle new_validator
  = Ok (mkValidator
          [LoadFailure "databricks.yml"
             "[Errno 2] No such file or directory: 'databricks.yml'"] [] []) /\
  (forall is_valid v',
      validate dump_plain_mapping sample_repr elements absent_bundle
        new_validator = Ok (is_valid, v') ->
      is_valid = false).
Proof.
  apply (absent_bundle_recorded_as_error dump_plain_mapping sample_repr elements
           absent_bundle
           "[Errno 2] No such file or directory: 'databricks.yml'"
           new_validator).
  reflexivity.
Defined.

(** C9 as stated fails: with [databricks.yml] absent the consistency stage
    leaves an error behind and the run reports failure, with no job file in
    sight. *)
Lemma absent_bundle_fails_the_run :
  databricks_read absent_bundle
  = ReadFails MissingFile
      "[Errno 2] No such file or directory: 'databricks.yml'" /\
  validate_environment_consistency elements absent_bundle new_validator
  <> Ok new_validator /\
  validate dump_plain_mapping sample_repr elements absent_bundle new_validator
  = Ok (false,
        mkValidator
          [LoadFailure "databricks.yml"
             "[Errno 2] No such file or directory: 'databricks.yml'"] [] []).
Proof.
  split; [reflexivity|]. split; [|reflexivity].
  intros H. vm_compute in H. discriminate H.
Qed.

(** C10 at the sample project: the global [catalog] is in both
    environments. *)
Lemma global_variables_never_reported_missing_witness :
  (forall e, e ∈ sample_environments ->
             global_variable_names sample_bundle_doc ⊆ env_var_names (snd e)) /\
  exists ws,
    validate_environment_consistency elements sample_project new_validator
    = Ok (mkValidator (errors new_validator) (warnings new_validator ++ ws)
            (suggestions new_validator)) /\
    (forall var_name envs,
        VariableMissing var_name envs ∈ ws ->
        var_name ∉ global_variable_names sample_bundle_doc).
Proof.
  apply (global_variables_never_reported_missing elements sample_project
           new_validator sample_bundle_doc sample_environments new_validator);
    reflexivity.
Defined.

(** * Further properties *)

(** ** Appending findings *)

Lemma extend_new v : extend v new_validator = v.
Proof. destruct v. unfold extend. simpl. by rewrite !app_nil_r. Qed.

Lemma extend_assoc v d1 d2 : extend (extend v d1) d2 = extend v (extend d1 d2).
Proof. unfold extend. simpl. by rewrite !app_assoc. Qed.

Lemma appends_only_id : appends_only (fun v => v).
Proof. exists new_validator. intros w. by rewrite extend_new. Qed.

Lemma appends_only_error f step :
  appends_only step -> appends_only (fun v => add_error f (step v)).
Proof.
  intros [d Hd]. exists (add_error f d). intros w. rewrite Hd.
  unfold extend, add_error. simpl. by rewrite app_assoc.
Qed.

Lemma appends_only_warning f step :
  appends_only step -> appends_only (fun v => add_warning f (step v)).
Proof.
  intros [d Hd]. exists (add_warning f d). intros w. rewrite Hd.
  unfold extend, add_warning. simpl. by rewrite app_assoc.
Qed.

Lemma appends_only_suggestion f step :
  appends_only step -> appends_only (fun v => add_suggestion f (step v)).
Proof.
  intros [d Hd]. exists (add_suggestion f d). intros w. rewrite Hd.
  unfold extend, add_suggestion. simpl. by rewrite app_assoc.
Qed.

Lemma appends_only_if (c : bool) step1 step2 :
  appends_only step1 -> appends_only step2 ->
  appends_only (fun v => if c then step1 v else step2 v).
Proof. by destruct c. Qed.

Ltac appends_only_auto :=
  repeat first
    [ apply appends_only_id
    | apply appends_only_error
    | apply appends_only_warning
    | apply appends_only_suggestion
    | apply appends_only_if
    | match goal with
      | |- appends_only (fun v => match ?x with _ => _ end) => destruct x
      end ].

Lemma uniform_raise e : uniform (fun _ => Raise e).
Proof. intros v v' H. discriminate H. Qed.

Lemma uniform_unmodelled : uniform (fun _ => Unmodelled).
Proof. intros v v' H. discriminate H. Qed.

Lemma uniform_pure step : appends_only step -> uniform (fun v => Ok (step v)).
Proof. intros [d Hd] v v' _. exists d. intros w. by rewrite Hd. Qed.

Lemma uniform_bind (run : validator -> result validator)
  (next : validator -> result validator) :
  uniform run -> uniform next -> uniform (fun v => v1 <- run v ;; next v1).
Proof.
  intros Hrun Hnext v v' H. apply bind_Ok in H as (v1 & H1 & H2).
  destruct (Hrun _ _ H1) as [d1 Hd1]. destruct (Hnext _ _ H2) as [d2 Hd2].
  exists (extend d1 d2). intros w. rewrite Hd1. simpl. rewrite Hd2.
  by rewrite extend_assoc.
Qed.

Lemma uniform_after step (run : validator -> result validator) :
  appends_only step -> uniform run -> uniform (fun v => run (step v)).
Proof.
  intros [d Hd] Hrun v v' H. destruct (Hrun _ _ H) as [d' Hd'].
  exists (extend d d'). intros w. rewrite Hd, Hd'. by rewrite extend_assoc.
Qed.

Lemma for_each_uniform {A : Type} (xs : list A)
  (body : A -> validator -> result validator) :
  (forall x, uniform (body x)) -> uniform (for_each xs body).
Proof.
  intros Hbody. induction xs as [|x xs IH]; simpl.
  - apply (uniform_pure (fun v => v)), appends_only_id.
  - apply uniform_bind; [apply Hbody|exact IH].
Qed.

(** Settles the computations of a body that do not read the validator, then
    the steps that append to it. *)
Ltac uniform_auto :=
  repeat first
    [ apply uniform_raise
    | apply uniform_unmodelled
    | match goal with
      | |- uniform (fun v => bind ?m _) =>
          destruct m; cbn [bind]
      | |- uniform (fun v => if ?c then _ else _) => destruct c
      | |- uniform (fun v => match ?x with _ => _ end) => destruct x
      | |- uniform (fun v => Ok _) => apply uniform_pure; appends_only_auto
      end ].

(** ** No evaluator reads the findings *)

Lemma naming_cluster_uniform cluster : uniform (naming_cluster cluster).
Proof. unfold naming_cluster. uniform_auto. Qed.

Lemma cost_cluster_uniform job_name cluster :
  uniform (cost_cluster job_name cluster).
Proof. unfold cost_cluster. uniform_auto. Qed.

Lemma security_task_uniform job_name task : uniform (security_task job_name task).
Proof. unfold security_task. uniform_auto. Qed.

Lemma naming_job_uniform py_repr file_path job :
  uniform (naming_job py_repr file_path job).
Proof.
  unfold naming_job. destruct job as [job_name job_def].
  cbv zeta. uniform_auto;
    match goal with
    | |- uniform (fun v => for_each ?xs ?body (@?step v)) =>
        apply (uniform_after step (for_each xs body));
        [appends_only_auto|apply for_each_uniform, naming_cluster_uniform]
    end.
Qed.

Lemma cost_job_uniform job : uniform (cost_job job).
Proof.
  unfold cost_job. destruct job as [job_name job_def]. uniform_auto.
  apply for_each_uniform, cost_cluster_uniform.
Qed.

Lemma security_job_uniform job : uniform (security_job job).
Proof.
  unfold security_job. destruct job as [job_name job_def]. uniform_auto.
  apply uniform_bind; [apply for_each_uniform, security_task_uniform|].
  uniform_auto.
Qed.

Lemma best_practices_job_uniform job : uniform (best_practices_job job).
Proof.
  unfold best_practices_job. destruct job as [job_name job_def].
  cbv zeta. uniform_auto.
Qed.

Lemma check_variable_usage_policy_uniform job_config file_path :
  uniform (check_variable_usage_policy job_config file_path).
Proof.
  intros v v' _.
  exists (mkValidator (omap (hardcoded file_path) (occurrences job_config []))
            [] []).
  intros w. rewrite check_variable_usage_policy_spec.
  unfold extend. simpl. by rewrite !app_nil_r.
Qed.

Lemma check_naming_conventions_uniform py_repr job_config file_path :
  uniform (check_naming_conventions py_repr job_config file_path).
Proof.
  unfold check_naming_conventions. uniform_auto.
  apply for_each_uniform, naming_job_uniform.
Qed.

Lemma check_cost_optimization_uniform job_config file_path :
  uniform (check_cost_optimization job_config file_path).
Proof.
  unfold check_cost_optimization. uniform_auto.
  apply for_each_uniform, cost_job_uniform.
Qed.

Lemma check_best_practices_uniform job_config file_path :
  uniform (check_best_practices job_config file_path).
Proof.
  unfold check_best_practices. uniform_auto.
  apply for_each_uniform, best_practices_job_uniform.
Qed.

Lemma scan_secrets_appends file_path job_str :
  appends_only (scan_secrets file_path job_str).
Proof.
  unfold scan_secrets. generalize security_patterns. intros ps.
  induction ps as [|p ps IH]; simpl.
  - apply appends_only_id.
  - destruct IH as [d Hd].
    destruct (search_secret p job_str).
    + exists (extend (add_error (HardcodedSecret file_path) new_validator) d).
      intros w. rewrite Hd, <- extend_assoc. f_equal.
      unfold extend, add_error. simpl. by rewrite !app_nil_r.
    + exists d. intros w. apply Hd.
Qed.

Lemma check_security_compliance_uniform yaml_dump job_config file_path :
  uniform (check_security_compliance yaml_dump job_config file_path).
Proof.
  unfold check_security_compliance. cbv zeta. uniform_auto.
  match goal with
  | |- uniform (fun v => for_each ?xs ?body (@?step v)) =>
      apply (uniform_after step (for_each xs body))
  end.
  - apply scan_secrets_appends.
  - apply for_each_uniform, security_job_uniform.
Qed.

(** The required-tag evaluator: the document it leaves does not depend on
    the findings either. *)
Lemma required_tags_loop_uniform file_path jobs : forall done v done' v',
  for_each jobs (required_tags_job file_path) (done, v) = Ok (done', v') ->
  exists d, forall w,
    for_each jobs (required_tags_job file_path) (done, w)
    = Ok (done', extend w d).
Proof.
  induction jobs as [|[job_name job_def] jobs IH]; intros done v done' v' H;
    simpl in H.
  - injection H as <- <-. exists new_validator. intros w. simpl.
    by rewrite extend_new.
  - apply bind_Ok in H as ([done1 v1] & Hjob & Hrest).
    destruct (IH _ _ _ _ Hrest) as [d2 Hd2].
    unfold required_tags_job in Hjob.
    apply bind_Ok in Hjob as (tags & Htags & Hjob).
    apply bind_Ok in Hjob as (clusters & Hclusters & Hjob).
    apply bind_Ok in Hjob as (tags' & Hmerge & Hjob).
    apply bind_Ok in Hjob as (keys & Hkeys & Hjob).
    injection Hjob as <- <-.
    set (missing := required_tags ∖ keys) in *.
    set (finding := MissingRequiredTags job_name file_path missing) in *.
    exists (extend (if bool_decide (missing ≠ ∅)
                    then add_error finding new_validator else new_validator) d2).
    intros w. simpl. unfold required_tags_job at 1.
    rewrite Htags. simpl. rewrite Hclusters. simpl. rewrite Hmerge. simpl.
    rewrite Hkeys. simpl. fold missing. fold finding.
    assert (Hstep : (if bool_decide (missing ≠ ∅) then add_error finding w else w)
                    = extend w (if bool_decide (missing ≠ ∅)
                                then add_error finding new_validator
                                else new_validator)).
    { destruct (bool_decide (missing ≠ ∅)); [|by rewrite extend_new].
      unfold extend, add_error. simpl. by rewrite !app_nil_r. }
    rewrite Hstep, Hd2. by rewrite extend_assoc.
Qed.

Lemma check_required_tags_uniform job_config file_path v job_config' v' :
  check_required_tags job_config file_path v = Ok (job_config', v') ->
  exists d, forall w,
    check_required_tags job_config file_path w = Ok (job_config', extend w d).
Proof.
  unfold check_required_tags. intros H.
  apply bind_Ok in H as (jobs & Hjobs & H).
  apply bind_Ok in H as ([done' v1] & Hloop & H). injection H as <- <-.
  destruct (required_tags_loop_uniform _ _ _ _ _ _ Hloop) as [d Hd].
  exists d. intros w. rewrite Hjobs. simpl. rewrite Hd. by simpl.
Qed.

Lemma run_checks_uniform yaml_dump py_repr job_config file_path v job_config' v' :
  run_checks yaml_dump py_repr job_config file_path v = Ok (job_config', v') ->
  exists d, forall w,
    run_checks yaml_dump py_repr job_config file_path w
    = Ok (job_config', extend w d).
Proof.
  unfold run_checks. intros H.
  apply bind_Ok in H as (v1 & H1 & H).
  apply bind_Ok in H as (v2 & H2 & H).
  apply bind_Ok in H as ([c3 v3] & H3 & H).
  apply bind_Ok in H as (v4 & H4 & H).
  apply bind_Ok in H as (v5 & H5 & H).
  apply bind_Ok in H as (v6 & H6 & H). injection H as <- <-.
  apply check_variable_usage_policy_uniform in H1 as [d1 H1].
  apply check_naming_conventions_uniform in H2 as [d2 H2].
  apply check_required_tags_uniform in H3 as [d3 H3].
  apply check_security_compliance_uniform in H4 as [d4 H4].
  apply check_cost_optimization_uniform in H5 as [d5 H5].
  apply check_best_practices_uniform in H6 as [d6 H6].
  exists (extend d1 (extend d2 (extend d3 (extend d4 (extend d5 d6))))).
  intros w. rewrite H1. simpl. rewrite H2. simpl. rewrite H3. simpl.
  rewrite H4. simpl. rewrite H5. simpl. rewrite H6. simpl.
  by rewrite !extend_assoc.
Qed.

Lemma validate_job_file_uniform yaml_dump py_repr f :
  uniform (validate_job_file yaml_dump py_repr f).
Proof.
  intros v v' H. unfold validate_job_file in *.
  destruct (jf_read f) as [why err|doc]; simpl in *.
  - exists (add_error (LoadFailure (jf_path f) err) new_validator).
    intros w. f_equal. unfold extend, add_error. simpl. by rewrite !app_nil_r.
  - destruct (py_truthy (if py_truthy doc then doc else YDict [])); simpl in *.
    + apply bind_Ok in H as ([c1 v1] & Hrun & _).
      apply run_checks_uniform in Hrun as [d Hd].
      exists d. intros w. by rewrite Hd.
    + exists new_validator. intros w. by rewrite extend_new.
Qed.

(** ** The order of the job files *)

Global Instance same_findings_equiv : Equivalence same_findings.
Proof.
  split.
  - intros v. by repeat split.
  - intros v1 v2 (? & ? & ?). by repeat split.
  - intros v1 v2 v3 (? & ? & ?) (? & ? & ?). repeat split; by etrans.
Qed.

Lemma same_findings_extend v1 v2 d :
  same_findings v1 v2 -> same_findings (extend v1 d) (extend v2 d).
Proof.
  intros (He & Hw & Hs). unfold extend. repeat split; simpl; by f_equiv.
Qed.

Lemma same_findings_swap v d1 d2 :
  same_findings (extend (extend v d1) d2) (extend (extend v d2) d1).
Proof.
  unfold extend. repeat split; simpl; rewrite <- !app_assoc; f_equiv;
    apply Permutation_app_comm.
Qed.

Lemma uniform_result (run : validator -> result validator) v v' d :
  run v = Ok v' -> (forall w, run w = Ok (extend w d)) -> v' = extend v d.
Proof. intros H Hd. rewrite Hd in H. by injection H as <-. Qed.

Lemma for_each_reorder {A : Type} (body : A -> validator -> result validator)
  (xs ys : list A) :
  (forall x, uniform (body x)) ->
  xs ≡ₚ ys ->
  forall v v1, for_each xs body v = Ok v1 ->
  exists v2, for_each ys body v = Ok v2 /\ same_findings v1 v2.
Proof.
  intros Hbody Hperm.
  induction Hperm as [|x xs ys _ IH|x y l|xs ys zs _ IH1 _ IH2]; intros v v1 H.
  - exists v1. by split.
  - simpl in *. apply bind_Ok in H as (a & Ha & H). rewrite Ha. simpl.
    by apply IH.
  - simpl in *. apply bind_Ok in H as (a & Ha & H).
    apply bind_Ok in H as (b & Hb & H).
    destruct (Hbody y _ _ Ha) as [dy Hy].
    destruct (Hbody x _ _ Hb) as [dx Hx].
    destruct (for_each_uniform l body Hbody _ _ H) as [dl Hl].
    rewrite (uniform_result _ _ _ _ Ha Hy) in Hb.
    rewrite (uniform_result _ _ _ _ Hb Hx) in H.
    rewrite (uniform_result _ _ _ _ H Hl).
    rewrite Hx. simpl. rewrite Hy. simpl. rewrite Hl. eexists. split; [done|].
    apply same_findings_extend, same_findings_swap.
  - destruct (IH1 _ _ H) as (v2 & H2 & Hs2).
    destruct (IH2 _ _ H2) as (v3 & H3 & Hs3).
    exists v3. split; [done|]. by etrans.
Qed.

Lemma exit_status_same_findings strict v1 v2 :
  same_findings v1 v2 ->
  (length (errors v1) =? 0)%nat = (length (errors v2) =? 0)%nat /\
  forall is_valid, exit_status strict is_valid v1 = exit_status strict is_valid v2.
Proof.
  intros (He & Hw & _). split.
  - by rewrite (Permutation_length He).
  - intros is_valid. unfold exit_status.
    destruct (warnings v1) as [|w1 ws1], (warnings v2) as [|w2 ws2]; try done.
    + by apply Permutation_nil_cons in Hw.
    + symmetry in Hw. by apply Permutation_nil_cons in Hw.
Qed.

(** ** The consistency stage only appends *)

Lemma consistency_var_grows env var_name v v' :
  consistency_var env var_name v = Ok v' -> grows v v'.
Proof. unfold consistency_var. intros H. inv_ok; grows_chain. Qed.

Lemma validate_environment_consistency_grows set_iter p v v' :
  validate_environment_consistency set_iter p v = Ok v' -> grows v v'.
Proof.
  unfold validate_environment_consistency. intros H.
  apply bind_Ok in H as ([env v0] & Hex & H).
  apply extract_loaded in Hex. subst v0.
  pose proof (load_yaml_grows (databricks_yaml p) (databricks_read p) v) as Hload.
  destruct (length env <? 2)%nat.
  - by injection H as <-.
  - apply bind_Ok in H as (names & _ & H).
    etrans; [exact Hload|].
    eapply for_each_grows; [|exact H]. apply consistency_var_grows.
Qed.

Lemma validate_grows yaml_dump py_repr set_iter p v is_valid v' :
  validate yaml_dump py_repr set_iter p v = Ok (is_valid, v') -> grows v v'.
Proof.
  unfold validate. intros H.
  apply bind_Ok in H as (v1 & H1 & H). apply bind_Ok in H as (v2 & H2 & H).
  injection H as _ <-.
  apply validate_environment_consistency_grows in H1.
  etrans; [exact H1|].
  destruct (jobs_dir_exists p).
  - by eapply job_files_grow.
  - by injection H2 as <-.
Qed.

Section Run.
Variable yaml_dump : yaml -> string.
Variable py_repr : yaml -> string.
Variable set_iter : gset string -> list string.

(** X1. Over a whole run findings are only appended: each of the three
    lists the run starts from is a prefix of the list it ends with, so no
    finding is removed or reordered. *)
Theorem run_only_appends (p : project) v is_valid v' :
  validate yaml_dump py_repr set_iter p v = Ok (is_valid, v') ->
  errors v `prefix_of` errors v' /\
  warnings v `prefix_of` warnings v' /\
  suggestions v `prefix_of` suggestions v'.
Proof.
  intros H. apply validate_grows in H as [He Hw Hs]. by repeat split.
Qed.

(** X2. What a job file adds does not depend on the findings already
    recorded: when [validate_job_file] completes from one validator, it
    completes from every validator and appends the same findings. *)
Theorem job_file_findings_independent (f : job_file) v v' :
  validate_job_file yaml_dump py_repr f v = Ok v' ->
  exists d,
    v' = extend v d /\
    forall w, validate_job_file yaml_dump py_repr f w = Ok (extend w d).
Proof.
  intros H. destruct (validate_job_file_uniform _ _ _ _ _ H) as [d Hd].
  exists d. split; [|done]. by eapply uniform_result.
Qed.

(** X3. The order in which the job files are discovered changes neither
    the flag [validate] returns nor the exit status, and changes the three
    lists of findings only by a reordering. *)
Theorem discovery_order_irrelevant (p : project) (files : list job_file)
  v is_valid v1 :
  job_files p ≡ₚ files ->
  validate yaml_dump py_repr set_iter p v = Ok (is_valid, v1) ->
  exists v2,
    validate yaml_dump py_repr set_iter (with_job_files p files) v
    = Ok (is_valid, v2) /\
    same_findings v1 v2 /\
    forall strict, exit_status strict is_valid v2 = exit_status strict is_valid v1.
Proof.
  intros Hperm H. unfold validate in *.
  apply bind_Ok in H as (v0 & Hstage & H).
  apply bind_Ok in H as (v1' & Hfiles & H). injection H as <- <-.
  assert (Hstage' :
    validate_environment_consistency set_iter (with_job_files p files) v = Ok v0).
  { exact Hstage. }
  rewrite Hstage'. simpl.
  destruct (jobs_dir_exists p).
  - destruct (for_each_reorder (validate_job_file yaml_dump py_repr)
                (job_files p) files
                (validate_job_file_uniform yaml_dump py_repr) Hperm _ _ Hfiles)
      as (v2 & Hrun & Hsame).
    rewrite Hrun. simpl.
    destruct (exit_status_same_findings true _ _ Hsame) as [Hflag _].
    rewrite Hflag. eexists. split; [done|]. split; [done|].
    intros strict. symmetry.
    by apply (exit_status_same_findings strict _ _ Hsame).
  - injection Hfiles as <-. simpl. eexists. split; [done|]. by split.
Qed.

End Run.

(** ** Which list an evaluator writes to *)

Global Instance keeps_preorder list_of : PreOrder (keeps list_of).
Proof.
  split.
  - intros v. reflexivity.
  - intros v1 v2 v3 H12 H23. unfold keeps in *. congruence.
Qed.

Lemma for_each_keeps {A : Type} list_of (xs : list A)
  (body : A -> validator -> result validator) :
  (forall x v v', body x v = Ok v' -> keeps list_of v v') ->
  forall v v', for_each xs body v = Ok v' -> keeps list_of v v'.
Proof.
  intros Hbody. apply for_each_rel; [apply _|]. intros x s s' _. apply Hbody.
Qed.

(** Closes a goal on one list of the validator a body ends with. *)
Ltac keeps_auto :=
  unfold keeps in *;
  repeat match goal with
    | |- context [if ?c then _ else _] => destruct c
    | |- context [match ?x with _ => _ end] => destruct x
    | H : context [if ?c then _ else _] |- _ => destruct c
    end;
  simpl in *; congruence.

Lemma naming_cluster_keeps cluster v v' :
  naming_cluster cluster v = Ok v' ->
  keeps errors v v' /\ keeps suggestions v v'.
Proof. unfold naming_cluster. intros H. inv_ok; split; keeps_auto. Qed.

Lemma naming_job_keeps py_repr file_path job v v' :
  naming_job py_repr file_path job v = Ok v' ->
  keeps errors v v' /\ keeps suggestions v v'.
Proof.
  unfold naming_job. destruct job as [job_name job_def]. intros H. inv_ok.
  split.
  - apply (for_each_keeps errors) in H; [|intros; by eapply naming_cluster_keeps].
    keeps_auto.
  - apply (for_each_keeps suggestions) in H;
      [|intros; by eapply naming_cluster_keeps].
    keeps_auto.
Qed.

Lemma cost_cluster_keeps job_name cluster v v' :
  cost_cluster job_name cluster v = Ok v' ->
  keeps errors v v' /\ keeps warnings v v'.
Proof. unfold cost_cluster. intros H. inv_ok; split; keeps_auto. Qed.

Lemma cost_job_keeps job v v' :
  cost_job job v = Ok v' -> keeps errors v v' /\ keeps warnings v v'.
Proof.
  unfold cost_job. destruct job as [job_name job_def]. intros H. inv_ok.
  split; (eapply for_each_keeps; [|exact H]);
    intros; by eapply cost_cluster_keeps.
Qed.

Lemma best_practices_job_keeps job v v' :
  best_practices_job job v = Ok v' ->
  keeps errors v v' /\ keeps warnings v v'.
Proof.
  unfold best_practices_job. destruct job as [job_name job_def]. intros H.
  inv_ok; split; keeps_auto.
Qed.

Lemma security_task_keeps job_name task v v' :
  security_task job_name task v = Ok v' ->
  keeps errors v v' /\ keeps suggestions v v'.
Proof. unfold security_task. intros H. inv_ok; split; keeps_auto. Qed.

Lemma security_job_keeps job v v' :
  security_job job v = Ok v' -> keeps errors v v' /\ keeps suggestions v v'.
Proof.
  unfold security_job. destruct job as [job_name job_def]. intros H.
  inv_ok;
    match goal with
    | H : for_each _ (security_task _) _ = Ok _ |- _ => rename H into Hloop
    end;
    (split;
     [ apply (for_each_keeps errors) in Hloop;
         [|intros; by eapply security_task_keeps]
     | apply (for_each_keeps suggestions) in Hloop;
         [|intros; by eapply security_task_keeps] ];
     keeps_auto).
Qed.

Lemma exit_status_keeps strict is_valid v v' :
  keeps warnings v v' -> exit_status strict is_valid v' = exit_status strict is_valid v.
Proof. unfold keeps, exit_status. by intros ->. Qed.

Lemma filter_patterns_bound (job_str : string) :
  (length (filter (fun w => search_secret w job_str = true) security_patterns)
   <= 4)%nat.
Proof.
  etrans; [apply length_filter|]. reflexivity.
Qed.

Lemma scan_secrets_suggestions file_path job_str v :
  suggestions (scan_secrets file_path job_str v) = suggestions v.
Proof.
  unfold scan_secrets. generalize security_patterns. intros ps. revert v.
  induction ps as [|p ps IH]; intros v; simpl; [done|].
  rewrite IH. by destruct (search_secret p job_str).
Qed.

Section Severity.
Variable yaml_dump : yaml -> string.
Variable py_repr : yaml -> string.

(** X4. The naming evaluator writes warnings only: whenever it completes,
    the errors and the suggestions are as before, so what it finds cannot
    fail a run that is not strict. *)
Theorem naming_only_warns job_config file_path v v' :
  check_naming_conventions py_repr job_config file_path v = Ok v' ->
  errors v' = errors v /\
  suggestions v' = suggestions v /\
  forall is_valid, exit_status false is_valid v' = exit_status false is_valid v.
Proof.
  unfold check_naming_conventions. intros H. inv_ok.
  repeat split.
  - eapply (for_each_keeps errors); [|exact H].
    intros; by eapply naming_job_keeps.
  - eapply (for_each_keeps suggestions); [|exact H].
    intros; by eapply naming_job_keeps.
Qed.

(** X5. The cost evaluator writes suggestions only: whenever it completes,
    the errors and the warnings are as before, and the exit status is the
    same with and without its findings, strict or not. *)
Theorem cost_only_suggests job_config file_path v v' :
  check_cost_optimization job_config file_path v = Ok v' ->
  errors v' = errors v /\
  warnings v' = warnings v /\
  forall strict is_valid,
    exit_status strict is_valid v' = exit_status strict is_valid v.
Proof.
  unfold check_cost_optimization. intros H. inv_ok.
  assert (Hw : keeps warnings v v').
  { eapply for_each_keeps; [|exact H]. intros; by eapply cost_job_keeps. }
  repeat split; [|exact Hw|intros; by apply exit_status_keeps].
  eapply (for_each_keeps errors); [|exact H]. intros; by eapply cost_job_keeps.
Qed.

(** X6. The best-practice evaluator writes suggestions only, at most three
    for each job: whenever it completes, the errors and the warnings are as
    before and the exit status is the same with and without its findings. *)
Theorem best_practices_only_suggest job_config file_path v v' :
  check_best_practices job_config file_path v = Ok v' ->
  errors v' = errors v /\
  warnings v' = warnings v /\
  (forall strict is_valid,
      exit_status strict is_valid v' = exit_status strict is_valid v) /\
  (length (suggestions v')
   <= length (suggestions v) + 3 * length (jobs_in job_config))%nat.
Proof.
  unfold check_best_practices, jobs_in. intros H.
  apply bind_Ok in H as (jobs & Hjobs & H). rewrite Hjobs.
  assert (Hw : keeps warnings v v').
  { eapply for_each_keeps; [|exact H].
    intros; by eapply best_practices_job_keeps. }
  split; [|split; [exact Hw|split; [intros; by apply exit_status_keeps|]]].
  - eapply (for_each_keeps errors); [|exact H].
    intros; by eapply best_practices_job_keeps.
  - clear Hw Hjobs. revert v H.
    induction jobs as [|job jobs IH]; intros v H; simpl in H.
    + injection H as <-. simpl. lia.
    + apply bind_Ok in H as (v1 & Hjob & H). apply IH in H.
      assert (length (suggestions v1) <= length (suggestions v) + 3)%nat.
      { clear H IH. unfold best_practices_job in Hjob.
        destruct job as [job_name job_def]. inv_ok.
        repeat match goal with
          | |- context [if ?c then _ else _] => destruct c
          end; simpl; rewrite ?length_app; simpl; lia. }
      simpl. lia.
Qed.

(** X7. The security evaluator appends at most four errors for a file, one
    for each of the four patterns that matches the dump, however often a
    pattern matches; it never writes a suggestion. *)
Theorem secrets_one_finding_per_pattern job_config file_path v v' :
  check_security_compliance yaml_dump job_config file_path v = Ok v' ->
  exists n,
    n = length (filter (fun w => search_secret w (yaml_dump job_config) = true)
                  security_patterns) /\
    (n <= 4)%nat /\
    errors v' = errors v ++ replicate n (HardcodedSecret file_path) /\
    suggestions v' = suggestions v.
Proof.
  unfold check_security_compliance. intros H.
  apply bind_Ok in H as (job_str & Hdump & H).
  unfold py_dump in Hdump. destruct (prints job_config); [|discriminate].
  injection Hdump as <-. inv_ok.
  eexists. split; [reflexivity|]. split; [apply filter_patterns_bound|].
  pose proof (scan_secrets_per_pattern file_path (yaml_dump job_config) v) as Hscan.
  split.
  - assert (Hk : keeps errors (scan_secrets file_path (yaml_dump job_config) v) v').
    { eapply for_each_keeps; [|exact H]. intros; by eapply security_job_keeps. }
    unfold keeps in Hk. rewrite Hk, Hscan. f_equal.
    generalize (filter (fun w => search_secret w (yaml_dump job_config) = true)
                  security_patterns).
    intros l. induction l; simpl; by f_equal.
  - assert (Hk : keeps suggestions
                   (scan_secrets file_path (yaml_dump job_config) v) v').
    { eapply for_each_keeps; [|exact H]. intros; by eapply security_job_keeps. }
    unfold keeps in Hk. rewrite Hk. apply scan_secrets_suggestions.
Qed.

End Severity.

(** ** The required-tag evaluator on any document *)

Lemma required_tags_loop_shape file_path jobs : forall done v done' v',
  for_each jobs (required_tags_job file_path) (done, v) = Ok (done', v') ->
  warnings v' = warnings v /\
  suggestions v' = suggestions v /\
  exists es,
    errors v' = errors v ++ es /\
    (length es <= length jobs)%nat /\
    Forall (fun e => exists job_name missing,
                e = MissingRequiredTags job_name file_path missing /\
                job_name ∈ map fst jobs /\
                missing ≠ ∅ /\ missing ⊆ required_tags) es.
Proof.
  induction jobs as [|[job_name job_def] jobs IH]; intros done v done' v' H;
    simpl in H.
  - injection H as <- <-. repeat split. exists []. rewrite app_nil_r.
    repeat split; [simpl; lia|constructor].
  - apply bind_Ok in H as ([done1 v1] & Hjob & Hrest).
    apply IH in Hrest as (Hw & Hs & es & He & Hlen & Hall). clear IH.
    unfold required_tags_job in Hjob.
    apply bind_Ok in Hjob as (tags & _ & Hjob).
    apply bind_Ok in Hjob as (clusters & _ & Hjob).
    apply bind_Ok in Hjob as (tags' & _ & Hjob).
    apply bind_Ok in Hjob as (keys & _ & Hjob).
    injection Hjob as <- <-.
    assert (Hlater : Forall (fun e => exists name missing,
                e = MissingRequiredTags name file_path missing /\
                name ∈ map fst ((job_name, job_def) :: jobs) /\
                missing ≠ ∅ /\ missing ⊆ required_tags) es).
    { eapply Forall_impl; [exact Hall|].
      intros e (name & missing & -> & Hin & Hne & Hsub).
      exists name, missing. repeat split; try done. simpl. by right. }
    case_bool_decide as Hmissing.
    + split; [by rewrite Hw|]. split; [by rewrite Hs|].
      eexists (_ :: es). split; [rewrite He; simpl; by rewrite <- app_assoc|].
      split; [simpl; lia|]. constructor; [|done].
      eexists _, _. split; [reflexivity|]. split; [simpl; left|].
      split; [done|]. set_solver.
    + split; [done|]. split; [done|].
      exists es. split; [done|]. split; [simpl; lia|done].
Qed.

(** ** Texts without a quote *)

Lemma skip_has_quote p s : has_quote s = false -> has_quote (skip p s) = false.
Proof.
  induction s as [|c s IH]; simpl; [done|].
  intros H. apply orb_false_iff in H as [Hc Hs].
  destruct (p c); [by apply IH|]. simpl. by rewrite Hc, Hs.
Qed.

Lemma match_word_has_quote w : forall s r,
  match_word w s = Some r -> has_quote s = false -> has_quote r = false.
Proof.
  induction w as [|a w IH]; intros s r H Hs; simpl in H.
  - by injection H as <-.
  - destruct s as [|b s]; [done|].
    destruct (Ascii.eqb (lower a) (lower b)); [|done].
    simpl in Hs. apply orb_false_iff in Hs as [_ Hs]. by eapply IH.
Qed.

Lemma match_secret_here_no_quote w s :
  has_quote s = false -> match_secret_here w s = false.
Proof.
  intros Hs. unfold match_secret_here.
  destruct (match_word w s) as [r|] eqn:Hw; [|done].
  apply (match_word_has_quote _ _ _ Hw) in Hs.
  assert (Hr : has_quote
                 (match r with
                  | String c r' => if Ascii.eqb (lower c) "s" then r' else r
                  | EmptyString => r
                  end) = false).
  { destruct r as [|c r']; [done|]. simpl in Hs.
    apply orb_false_iff in Hs as [Hc Hr'].
    destruct (Ascii.eqb (lower c) "s"); [done|]. simpl. by rewrite Hc, Hr'. }
  apply (skip_has_quote is_space) in Hr.
  destruct (skip is_space _) as [|c1 r1]; [done|].
  simpl in Hr. apply orb_false_iff in Hr as [_ Hr1].
  apply (skip_has_quote is_space) in Hr1.
  destruct (skip is_space r1) as [|q r2]; [by rewrite andb_false_r|].
  simpl in Hr1. apply orb_false_iff in Hr1 as [Hq _].
  rewrite Hq. simpl. by rewrite andb_false_r.
Qed.

Lemma search_secret_no_quote w s :
  has_quote s = false -> search_secret w s = false.
Proof.
  induction s as [|c s IH]; intros Hs.
  - simpl. by rewrite match_secret_here_no_quote.
  - cbn [search_secret]. rewrite match_secret_here_no_quote by done.
    simpl in Hs. apply orb_false_iff in Hs as [_ Hs]. simpl. by apply IH.
Qed.

(** ** The cluster-key pattern *)

Lemma skip_all_chars p s : all_chars p s = true -> skip p s = EmptyString.
Proof.
  induction s as [|c s IH]; simpl; [done|].
  intros H. apply andb_prop in H as [Hc Hs]. rewrite Hc. by apply IH.
Qed.

Lemma append_cons c a b : String c a +:+ b = String c (a +:+ b).
Proof. reflexivity. Qed.

Lemma append_nil b : EmptyString +:+ b = b.
Proof. reflexivity. Qed.

Lemma skip_stops p body c rest :
  all_chars p body = true -> p c = false ->
  skip p (body +:+ String c rest) = String c rest.
Proof.
  intros Hbody Hc. induction body as [|b body IH].
  - rewrite append_nil. simpl. by rewrite Hc.
  - simpl in Hbody. apply andb_prop in Hbody as [Hb Hbody].
    rewrite append_cons. simpl. rewrite Hb. by apply IH.
Qed.

Lemma skip_split p s :
  exists body, s = body +:+ skip p s /\ all_chars p body = true.
Proof.
  induction s as [|c s (body & Hs & Hbody)]; simpl.
  - by exists EmptyString.
  - destruct (p c) eqn:Hc.
    + exists (String c body). rewrite append_cons. simpl. rewrite Hc.
      split; [by f_equal|done].
    + by exists EmptyString.
Qed.

Lemma append_empty s : s +:+ EmptyString = s.
Proof.
  induction s as [|c s IH]; [done|]. rewrite append_cons. by f_equal.
Qed.

Section Patterns.
Variable yaml_dump : yaml -> string.

(** X8. Whatever the document, when the required-tag evaluator completes
    it has written errors only: at most one for each job, each naming a job
    of the document and a set of missing tags that is not empty and holds
    required tags only. *)
Theorem required_tags_errors_shape job_config file_path v job_config' v' :
  check_required_tags job_config file_path v = Ok (job_config', v') ->
  warnings v' = warnings v /\
  suggestions v' = suggestions v /\
  exists es,
    errors v' = errors v ++ es /\
    (length es <= length (jobs_in job_config))%nat /\
    Forall (fun e => exists job_name missing,
                e = MissingRequiredTags job_name file_path missing /\
                job_name ∈ map fst (jobs_in job_config) /\
                missing ≠ ∅ /\ missing ⊆ required_tags) es.
Proof.
  unfold check_required_tags, jobs_in. intros H.
  apply bind_Ok in H as (jobs & Hjobs & H).
  apply bind_Ok in H as ([done' v1] & Hloop & H). injection H as _ <-.
  rewrite Hjobs. by eapply required_tags_loop_shape.
Qed.

(** X9. A dump without a quote character is never flagged: none of the
    four patterns matches a text that holds neither a single nor a double
    quote, and the security evaluator then appends no error. *)
Theorem no_quote_no_secret job_config file_path v v' :
  has_quote (yaml_dump job_config) = false ->
  check_security_compliance yaml_dump job_config file_path v = Ok v' ->
  (forall w, search_secret w (yaml_dump job_config) = false) /\
  errors v' = errors v.
Proof.
  intros Hq H. split; [intros w; by apply search_secret_no_quote|].
  unfold check_security_compliance in H.
  apply bind_Ok in H as (job_str & Hdump & H).
  unfold py_dump in Hdump. destruct (prints job_config); [|discriminate].
  injection Hdump as <-. apply bind_Ok in H as (jobs & _ & H).
  assert (Hk : keeps errors
                 (scan_secrets file_path (yaml_dump job_config) v) v').
  { eapply for_each_keeps; [|exact H]. intros; by eapply security_job_keeps. }
  unfold keeps in Hk. rewrite Hk, scan_secrets_per_pattern.
  unfold security_patterns. rewrite !filter_cons, filter_nil.
  rewrite !search_secret_no_quote by done.
  repeat (rewrite decide_False by done). simpl. by rewrite app_nil_r.
Qed.

End Patterns.

(** X10. The cluster-key pattern accepts exactly the strings made of a
    lower-case letter followed by lower-case letters, digits and
    underscores, and those strings followed by one newline: the end anchor
    also holds before a final newline. *)
Theorem cluster_key_pattern (s : string) :
  match_cluster_key s = true <->
  exists c body,
    is_lower c = true /\ all_chars key_char body = true /\
    (s = String c body \/ s = String c (body +:+ newline)).
Proof.
  split.
  - destruct s as [|c s']; [done|]. simpl. intros H.
    apply andb_prop in H as [Hc H].
    destruct (skip_split key_char s') as (body & Hs & Hbody).
    change (fun c0 : ascii => is_lower c0 || is_digit c0 || Ascii.eqb c0 "_")
      with key_char in H.
    exists c, body. split; [done|]. split; [done|].
    apply orb_prop in H as [H|H]; apply String.eqb_eq in H; rewrite H in Hs.
    + left. f_equal. by rewrite append_empty in Hs.
    + right. by f_equal.
  - intros (c & body & Hc & Hbody & [->| ->]); simpl; rewrite Hc; simpl.
    + change (fun c0 : ascii => is_lower c0 || is_digit c0 || Ascii.eqb c0 "_")
        with key_char.
      by rewrite skip_all_chars.
    + change (fun c0 : ascii => is_lower c0 || is_digit c0 || Ascii.eqb c0 "_")
        with key_char.
      unfold newline. by rewrite skip_stops.
Qed.

(** ** What the merge of the tags leaves alone *)

Lemma dict_set_same k v d : dict_lookup k d = Some v -> dict_set k v d = d.
Proof.
  induction d as [|[k1 v1] d IH]; simpl; [done|].
  destruct (String.eqb k k1); [by intros [= ->]|].
  intros H. f_equal. by apply IH.
Qed.

Lemma merged_tags_no_custom job_def :
  Forall (fun c => custom_tags_of c = []) (clusters_of job_def) ->
  merged_tags job_def = own_tags job_def.
Proof.
  unfold merged_tags. intros Hnone. generalize (own_tags job_def).
  induction Hnone as [|c cs Hc _ IH]; intros tags; simpl; [done|].
  rewrite Hc. apply IH.
Qed.

Lemma tagged_no_custom job :
  tags_job (snd job) = true ->
  Forall (fun c => custom_tags_of c = []) (clusters_of (snd job)) ->
  tagged job = job.
Proof.
  destruct job as [job_name job_def]. simpl. intros Hshape Hnone.
  unfold tagged. simpl. f_equal. rewrite (merged_tags_no_custom _ Hnone).
  apply tags_job_inv in Hshape as (j & tags & cs & -> & Htags & _).
  simpl. rewrite Htags. unfold dict_mem, field in *.
  destruct (dict_lookup "tags" j) as [x|] eqn:Hl; [|done].
  subst x. f_equal. by apply dict_set_same.
Qed.

Lemma store_jobs_same job_config :
  tags_config job_config = true ->
  store_jobs job_config (jobs_in job_config) = job_config.
Proof.
  intros H. pose proof H as Hjobs.
  apply jobs_shaped_jobs in Hjobs as (jobs & Hjobs & _).
  unfold jobs_in. rewrite Hjobs.
  apply jobs_shaped_inv in H as (c & r & jobs0 & -> & Hr & Hj & _).
  unfold jobs_of in Hjobs. simpl in Hjobs. rewrite Hr in Hjobs. simpl in Hjobs.
  rewrite Hj in Hjobs. injection Hjobs as <-.
  simpl. unfold field in Hr, Hj.
  destruct (dict_lookup "resources" c) as [x|] eqn:Hlr; [|done]. subst x.
  destruct (dict_lookup "jobs" r) as [y|] eqn:Hlj; [|done]. subst y.
  f_equal. rewrite (dict_set_same "jobs" _ r Hlj). by apply dict_set_same.
Qed.

(** X11. A document that holds no custom tag on any cluster comes out of
    the required-tag evaluator as it went in. *)
Theorem tree_unchanged_without_custom_tags job_config file_path v :
  tags_config job_config = true ->
  Forall (fun job =>
            Forall (fun c => custom_tags_of c = []) (clusters_of (snd job)))
    (jobs_in job_config) ->
  exists v', check_required_tags job_config file_path v = Ok (job_config, v').
Proof.
  intros Hshape Hnone. rewrite (check_required_tags_wf _ _ _ Hshape).
  eexists. do 2 f_equal.
  assert (Hsame : map tagged (jobs_in job_config) = jobs_in job_config).
  { apply jobs_shaped_jobs in Hshape as (jobs & Hjobs & Hwf).
    unfold jobs_in in *. rewrite Hjobs in *. clear Hjobs.
    induction Hwf as [|job jobs Hjob _ IH]; simpl; [done|].
    apply Forall_cons in Hnone as [Hnjob Hnrest].
    rewrite (tagged_no_custom _ Hjob Hnjob). f_equal. by apply IH. }
  rewrite Hsame. by apply store_jobs_same.
Qed.

Section Empty.
Variable yaml_dump : yaml -> string.
Variable py_repr : yaml -> string.
Variable set_iter : gset string -> list string.

(** X14. An empty document (null, an empty mapping, sequence or string,
    zero, false) is passed over in silence: as a job file it is given to no
    evaluator, as the bundle document it yields no environment, and neither
    adds a finding. *)
Theorem empty_document_skipped (doc : yaml) v :
  py_truthy doc = false ->
  (forall f, jf_read f = Parsed doc ->
             validate_job_file yaml_dump py_repr f v = Ok v) /\
  (forall p, databricks_read p = Parsed doc ->
             extract_environment_variables p v = Ok ([], v) /\
             validate_environment_consistency set_iter p v = Ok v).
Proof.
  intros Hempty. split.
  - intros f Hread. unfold validate_job_file. rewrite Hread. simpl.
    by rewrite Hempty.
  - intros p Hread.
    assert (Hex : extract_environment_variables p v = Ok ([], v)).
    { unfold extract_environment_variables. rewrite Hread. simpl.
      by rewrite Hempty. }
    split; [done|].
    unfold validate_environment_consistency. by rewrite Hex.
Qed.

End Empty.

(** ** The environments of a bundle of the expected shape *)

Lemma dict_set_fresh k v d :
  k ∉ map fst d -> dict_set k v d = d ++ [(k, v)].
Proof.
  induction d as [|[k1 v1] d IH]; simpl; [done|].
  intros Hk. destruct (String.eqb_spec k k1) as [->|Hne].
  - exfalso. apply Hk. left.
  - f_equal. apply IH. intros Hin. apply Hk. by right.
Qed.

Lemma dict_lookup_None k d : k ∉ map fst d -> dict_lookup k d = None.
Proof.
  induction d as [|[k1 v1] d IH]; simpl; [done|].
  intros Hk. destruct (String.eqb_spec k k1) as [->|Hne].
  - exfalso. apply Hk. left.
  - apply IH. intros Hin. apply Hk. by right.
Qed.

Lemma dict_lookup_update k d o :
  NoDup (map fst o) ->
  dict_lookup k (dict_update d o)
  = match dict_lookup k o with
    | Some x => Some x
    | None => dict_lookup k d
    end.
Proof.
  unfold dict_update. revert d.
  induction o as [|[k1 v1] o IH]; intros d Hnd; simpl; [done|].
  apply NoDup_cons in Hnd as [Hk1 Hnd]. rewrite IH by done.
  rewrite dict_lookup_set.
  destruct (String.eqb_spec k k1) as [->|Hne]; [|done].
  by rewrite dict_lookup_None.
Qed.

Lemma dict_lookup_app_fresh k d d' :
  k ∉ map fst d -> dict_lookup k (d ++ d') = dict_lookup k d'.
Proof.
  induction d as [|[k1 v1] d IH]; simpl; [done|].
  intros Hk. destruct (String.eqb_spec k k1) as [->|Hne].
  - exfalso. apply Hk. left.
  - apply IH. intros Hin. apply Hk. by right.
Qed.

Lemma extract_loop_shape doc targets : forall env0,
  Forall (fun target =>
            match snd target with
            | YDict t => is_dict (field t "variables" (YDict [])) = true
            | _ => False
            end) targets ->
  NoDup (map fst env0 ++ map fst targets) ->
  for_each targets
    (fun target env_variables =>
       let '(target_name, target_config) := target in
       target_variables <- py_get target_config "variables" (YDict []) ;;
       merged_variables <- py_merge (YDict (global_variables_of doc))
                             target_variables ;;
       Ok (dict_set target_name merged_variables env_variables)) env0
  = Ok (env0 ++ map (environment_of doc) targets).
Proof.
  induction targets as [|[name config] targets IH]; intros env0 Hwf Hnd; simpl.
  - by rewrite app_nil_r.
  - apply Forall_cons in Hwf as [Hconfig Hwf]. simpl in Hconfig.
    destruct config as [| | | | | |t]; try done. simpl.
    destruct (field t "variables" (YDict [])) as [| | | | | |tv] eqn:Htv;
      try done.
    simpl.
    assert (Hfresh : name ∉ map fst env0).
    { apply NoDup_app in Hnd as (_ & Hdisj & _). intros Hin.
      apply (Hdisj name Hin). left. }
    rewrite (dict_set_fresh _ _ _ Hfresh).
    rewrite IH; [|done|].
    + rewrite <- app_assoc. simpl. do 3 f_equal.
      unfold environment_of, target_variables_of. simpl. by rewrite Htv.
    + rewrite map_app. simpl. rewrite <- app_assoc. exact Hnd.
Qed.

Lemma wf_bundle_inv doc :
  wf_bundle doc = true ->
  exists c,
    doc = YDict c /\
    field c "variables" (YDict []) = YDict (global_variables_of doc) /\
    field c "targets" (YDict []) = YDict (targets_of doc) /\
    Forall (fun target =>
              match snd target with
              | YDict t => is_dict (field t "variables" (YDict [])) = true
              | _ => False
              end) (targets_of doc).
Proof.
  unfold wf_bundle. intros H. destruct doc as [| | | | | |c]; try done.
  apply andb_prop in H as [Hg Hts]. exists c. simpl.
  destruct (field c "variables" (YDict [])) as [| | | | | |g]; try done.
  destruct (field c "targets" (YDict [])) as [| | | | | |ts]; try done.
  repeat split. apply Forall_forall. intros target Hin.
  rewrite forallb_forall in Hts. apply list_elem_of_In, Hts in Hin.
  by destruct (snd target).
Qed.

Lemma extract_wf_bundle p doc v :
  databricks_read p = Parsed doc ->
  wf_bundle doc = true ->
  py_truthy doc = true ->
  NoDup (map fst (targets_of doc)) ->
  extract_environment_variables p v
  = Ok (match targets_of doc, global_variables_of doc with
        | [], [] => []
        | [], g => [("global", YDict g)]
        | targets, _ => map (environment_of doc) targets
        end, v).
Proof.
  intros Hread Hwf Htruthy Hnd. unfold extract_environment_variables.
  rewrite Hread. cbn [load_yaml]. rewrite Htruthy. cbn beta iota.
  rewrite Htruthy. cbn [negb].
  apply wf_bundle_inv in Hwf as (c & Hdoc & Hg & Hts & Hwf).
  pose proof (extract_loop_shape doc (targets_of doc) [] Hwf Hnd) as Hloop.
  remember (global_variables_of doc) as g eqn:Heqg.
  remember (targets_of doc) as ts eqn:Heqts.
  remember (map (environment_of doc) ts) as envs eqn:Heqenvs.
  clear Heqg. subst doc. cbn [py_get bind]. rewrite Hg, Hts.
  cbn [py_items bind]. rewrite Hloop. cbn [bind app].
  destruct ts as [|t ts]; simpl in Heqenvs; subst envs; simpl; [|done].
  by destruct g.
Qed.

Lemma lacking_length env var_name :
  var_name ∈ all_variable_names env ->
  (length (lacking env var_name) < length env)%nat.
Proof.
  unfold all_variable_names, lacking. rewrite length_map.
  induction env as [|e env IH]; simpl.
  - intros Hin. by apply elem_of_empty in Hin.
  - intros Hin. rewrite filter_cons.
    destruct (decide (var_name ∉ env_var_names (snd e))) as [Hnot|Hyes].
    + simpl. apply elem_of_union in Hin as [Hin|Hin]; [done|].
      apply IH in Hin. lia.
    + pose proof (length_filter (fun env0 => var_name ∉ env_var_names (snd env0)) env).
      lia.
Qed.

Lemma lacking_sublist env var_name :
  lacking env var_name `sublist_of` map fst env.
Proof. unfold lacking. apply (fmap_sublist fst), sublist_filter. Qed.

Lemma dict_lookup_map_member (f : string * yaml -> string * yaml) ts name config :
  (forall t, fst (f t) = fst t) ->
  NoDup (map fst ts) ->
  (name, config) ∈ ts ->
  dict_lookup name (map f ts) = Some (snd (f (name, config))).
Proof.
  intros Hf. induction ts as [|[k1 c1] ts IH]; intros Hnd Hin; simpl.
  - by apply elem_of_nil in Hin.
  - apply NoDup_cons in Hnd as [Hk1 Hnd].
    destruct (f (k1, c1)) as [k1' m1] eqn:Hf1.
    assert (k1' = k1) as ->.
    { pose proof (Hf (k1, c1)) as Hk. rewrite Hf1 in Hk. exact Hk. }
    apply elem_of_cons in Hin as [[= -> ->]|Hin].
    + by rewrite String.eqb_refl, Hf1.
    + destruct (String.eqb_spec name k1) as [->|Hne]; [|by apply IH].
      exfalso. apply Hk1. apply list_elem_of_fmap. by exists (k1, config).
Qed.

Lemma lacking_nobody env var_name :
  (forall e, e ∈ env -> var_name ∈ env_var_names (snd e)) ->
  lacking env var_name = [].
Proof.
  unfold lacking. induction env as [|e env IH]; intros Hall; [done|].
  rewrite filter_cons. rewrite decide_False.
  - apply IH. intros e' He'. apply Hall. by right.
  - intros Hnot. apply Hnot, Hall. left.
Qed.

Section Environments.
Variable set_iter : gset string -> list string.
Hypothesis set_iter_perm : forall X, set_iter X ≡ₚ elements X.

(** X15. For a bundle document of the expected shape with at least one
    target, there is one environment for each target, under its name and in
    the order of the targets, and in it a variable has the value the target
    gives it, or else the global one: the target overrides the global. *)
Theorem environments_follow_targets (p : project) (doc : yaml) v :
  databricks_read p = Parsed doc ->
  wf_bundle doc = true ->
  NoDup (map fst (targets_of doc)) ->
  targets_of doc ≠ [] ->
  exists env,
    extract_environment_variables p v = Ok (env, v) /\
    map fst env = map fst (targets_of doc) /\
    forall name config,
      (name, config) ∈ targets_of doc ->
      NoDup (map fst (target_variables_of config)) ->
      exists merged,
        dict_lookup name env = Some (YDict merged) /\
        forall k,
          dict_lookup k merged
          = match dict_lookup k (target_variables_of config) with
            | Some x => Some x
            | None => dict_lookup k (global_variables_of doc)
            end.
Proof.
  intros Hread Hwf Hnd Htargets.
  assert (Htruthy : py_truthy doc = true).
  { destruct doc as [| | | | | |c]; try done. destruct c; [|done].
    by destruct Htargets. }
  rewrite (extract_wf_bundle _ _ _ Hread Hwf Htruthy Hnd).
  destruct (targets_of doc) as [|t ts] eqn:Hts; [done|].
  eexists. split; [reflexivity|]. split.
  - rewrite <- list_fmap_compose. by apply list_fmap_ext.
  - intros name config Hin Hvars. eexists. split.
    + by apply (dict_lookup_map_member (environment_of doc)).
    + intros k. simpl. by apply dict_lookup_update.
Qed.

(** X16. A bundle document of the expected shape without targets gives
    the single environment [global] holding the global variables, or none
    when there is no global variable either; the consistency checker then
    adds nothing. *)
Theorem global_fallback (p : project) (doc : yaml) v :
  databricks_read p = Parsed doc ->
  wf_bundle doc = true ->
  py_truthy doc = true ->
  targets_of doc = [] ->
  extract_environment_variables p v
  = Ok (match global_variables_of doc with
        | [] => []
        | g => [("global", YDict g)]
        end, v) /\
  validate_environment_consistency set_iter p v = Ok v.
Proof.
  intros Hread Hwf Htruthy Htargets.
  assert (Hex : extract_environment_variables p v
                = Ok (match global_variables_of doc with
                      | [] => []
                      | g => [("global", YDict g)]
                      end, v)).
  { rewrite (extract_wf_bundle _ _ _ Hread Hwf Htruthy);
      rewrite Htargets; [|constructor].
    by destruct (global_variables_of doc). }
  split; [done|].
  eapply consistency_few; [exact Hex|].
  destruct (global_variables_of doc); simpl; lia.
Qed.

(** X17. Every warning of the consistency checker names a variable that
    some environment defines, and a list of environments that is not empty,
    follows the order of the environments and leaves at least one of them
    out; the checker writes nothing but such warnings. *)
Theorem consistency_warnings_shape (p : project) v env v1 :
  extract_environment_variables p v = Ok (env, v1) ->
  exists ws,
    validate_environment_consistency set_iter p v
    = Ok (mkValidator (errors v1) (warnings v1 ++ ws) (suggestions v1)) /\
    Forall (fun f => exists var_name envs,
                f = VariableMissing var_name envs /\
                var_name ∈ all_variable_names env /\
                envs ≠ [] /\
                envs `sublist_of` map fst env /\
                (length envs < length env)%nat) ws.
Proof.
  intros Hex.
  destruct (decide (length env < 2)%nat) as [Hfew|Hmany].
  - exists []. split; [|constructor].
    rewrite (consistency_few set_iter _ _ _ _ Hex Hfew).
    rewrite app_nil_r. by destruct v1.
  - assert (Hdicts : Forall (fun e => is_dict (snd e) = true) env).
    { destruct (databricks_read p) as [why err|doc] eqn:Hread.
      - rewrite (extract_failed_read _ _ _ _ Hread) in Hex.
        injection Hex as <- <-. constructor.
      - destruct (extract_environments _ _ _ _ _ Hread Hex) as [_ Hd].
        apply Hd. lia. }
    eexists. split; [apply consistency_many; [exact Hex|lia|exact Hdicts]|].
    apply Forall_forall. intros f Hin.
    apply list_elem_of_omap in Hin as (var_name & Hvar & Hfinding).
    unfold consistency_finding in Hfinding.
    destruct (lacking env var_name) as [|e0 es] eqn:Hlack; [done|].
    injection Hfinding as <-.
    assert (Hunion : var_name ∈ all_variable_names env).
    { rewrite set_iter_perm in Hvar. by apply elem_of_elements in Hvar. }
    exists var_name, (e0 :: es). repeat split; try done.
    + rewrite <- Hlack. apply lacking_sublist.
    + rewrite <- Hlack. by apply lacking_length.
Qed.

(** X18. When every environment defines every variable name that occurs
    in some environment, the consistency checker adds no finding. *)
Theorem consistent_environments_pass (p : project) v env v1 :
  extract_environment_variables p v = Ok (env, v1) ->
  (forall e, e ∈ env -> all_variable_names env ⊆ env_var_names (snd e)) ->
  validate_environment_consistency set_iter p v = Ok v1.
Proof.
  intros Hex Hall.
  destruct (decide (length env < 2)%nat) as [Hfew|Hmany].
  - by eapply consistency_few.
  - assert (Hdicts : Forall (fun e => is_dict (snd e) = true) env).
    { destruct (databricks_read p) as [why err|doc] eqn:Hread.
      - rewrite (extract_failed_read _ _ _ _ Hread) in Hex.
        injection Hex as <- <-. constructor.
      - destruct (extract_environments _ _ _ _ _ Hread Hex) as [_ Hd].
        apply Hd. lia. }
    rewrite (consistency_many set_iter _ _ _ _ Hex) by (lia || done).
    assert (Hnone : omap (consistency_finding env)
                      (set_iter (all_variable_names env)) = []).
    { assert (Hvars : Forall (fun x => x ∈ all_variable_names env)
                        (set_iter (all_variable_names env))).
      { apply Forall_forall. intros x Hx. rewrite set_iter_perm in Hx.
        by apply elem_of_elements in Hx. }
      induction Hvars as [|x xs Hx _ IH]; [done|].
      assert (Hlack : lacking env x = []).
      { apply lacking_nobody. intros e He. by apply (Hall e He). }
      simpl. unfold consistency_finding at 1. rewrite Hlack. exact IH. }
    rewrite Hnone, app_nil_r. by destruct v1.
Qed.

End Environments.

(** ** The report *)

Lemma append_assoc a b c : (a +:+ b) +:+ c = a +:+ (b +:+ c).
Proof.
  induction a as [|x a IH]; [done|]. rewrite !append_cons. by f_equal.
Qed.

Lemma text_of_app l1 l2 : text_of (l1 ++ l2) = text_of l1 +:+ text_of l2.
Proof.
  induction l1 as [|m l1 IH]; [done|]. simpl. rewrite IH.
  by rewrite !append_assoc.
Qed.

Lemma emit_nil r : emit [] r = r.
Proof.
  destruct r as [c [text|]]; unfold emit; simpl; rewrite app_nil_r; [|done].
  by rewrite append_empty.
Qed.

Lemma emit_emit l1 l2 r : emit l2 (emit l1 r) = emit (l1 ++ l2) r.
Proof.
  destruct r as [c [text|]]; unfold emit; simpl; rewrite app_assoc; [|done].
  by rewrite text_of_app, append_assoc.
Qed.

Lemma write_output_emit message r : write_output true message r = emit [message] r.
Proof.
  destruct r as [c [text|]]; unfold write_output, emit; simpl; [|done].
  by rewrite append_empty.
Qed.

Section ReportLemmas.
Variable render : finding -> string.
Variable timestamp : string.
Variable project_path : string.

Lemma write_numbered_emit fs : forall i r,
  write_numbered render fs i r
  = emit (imap (fun j f => pad2 (i + j) +:+ ". " +:+ render f) fs) r.
Proof.
  induction fs as [|f fs IH]; intros i r; simpl.
  - by rewrite emit_nil.
  - rewrite IH, write_output_emit, emit_emit. simpl. rewrite Nat.add_0_r.
    do 2 f_equal. apply imap_ext. intros j x _. simpl.
    by rewrite Nat.add_succ_r.
Qed.

Lemma write_section_emit title dashes fs r :
  write_section render title dashes fs r
  = emit (section_lines render title dashes fs) r.
Proof.
  unfold write_section, section_lines. destruct fs as [|f fs]; simpl.
  - by rewrite emit_nil.
  - rewrite write_numbered_emit, !write_output_emit, !emit_emit. reflexivity.
Qed.

(** The report proper goes to the console and the file alike, whatever
    they held before. *)
Lemma print_results_lines output_file opened v :
  let wanted := match output_file with
                | Some name => negb (String.eqb name EmptyString)
                | None => false
                end in
  let name := match output_file with Some name => name | None => EmptyString end in
  let start :=
    if wanted then
      match opened with
      | Opened => mkReport [] (Some (report_header timestamp project_path))
      | OpenFails err =>
          mkReport ["Warning: Could not create output file '" +:+ name +:+
                    "': " +:+ err] None
      end
    else mkReport [] None in
  let body := emit (report_lines render v) start in
  print_results render timestamp project_path output_file opened v
  = if wanted && bool_decide (written body ≠ None) &&
       negb (length (errors v) + length (warnings v) + length (suggestions v)
             =? 0)%nat
    then write_output false
           (newline +:+ "Validation report saved to: " +:+ name) body
    else body.
Proof.
  intros wanted name start body. unfold print_results.
  fold wanted. fold name. fold start.
  rewrite !write_section_emit, !write_output_emit, !emit_emit.
  unfold body, report_lines.
  destruct (errors v) as [|e es] eqn:He, (warnings v) as [|w ws] eqn:Hw,
    (suggestions v) as [|s ss] eqn:Hs; simpl length;
    cbn [Nat.add Nat.eqb negb andb];
    rewrite ?andb_false_r, ?andb_true_r; try reflexivity;
    rewrite <- ?app_assoc; reflexivity.
Qed.

End ReportLemmas.

Section ReportProperties.
Variable render : finding -> string.
Variable timestamp : string.
Variable project_path : string.

(** X19. Without a report file the console shows the report proper and
    nothing else: the heading, then either the statement of compliance or
    the non-empty sections in the order errors, warnings, suggestions, each
    finding on a line of its own numbered from 1, then the summary. *)
Theorem report_on_console (opened : file_open) v :
  print_results render timestamp project_path None opened v
  = mkReport (report_lines render v) None.
Proof.
  pose proof (print_results_lines render timestamp project_path None opened v)
    as H.
  cbv zeta in H. rewrite H. by simpl.
Qed.

(** X20. With a report file that opens, the file holds the header and then
    every message of the report proper on a line of its own, in the order
    of the console; the console shows the same messages and, when there is
    a finding, a closing notice that names the file. *)
Theorem report_file_mirrors_console (name : string) v :
  name ≠ EmptyString ->
  let r := print_results render timestamp project_path (Some name) Opened v in
  written r
  = Some (report_header timestamp project_path +:+ text_of (report_lines render v)) /\
  console r
  = report_lines render v ++
    (if (length (errors v) + length (warnings v) + length (suggestions v) =? 0)%nat
     then []
     else [newline +:+ "Validation report saved to: " +:+ name]).
Proof.
  intros Hname r. unfold r.
  pose proof (print_results_lines render timestamp project_path (Some name)
                Opened v) as H.
  cbv zeta in H. rewrite H.
  apply String.eqb_neq in Hname. rewrite Hname. simpl.
  destruct (length (errors v) + length (warnings v) + length (suggestions v)
            =? 0)%nat; simpl; [by rewrite app_nil_r|done].
Qed.

(** X21. When the report file cannot be created the report is not lost:
    nothing is written, and the console shows one warning that names the
    file and the error, followed by exactly what it shows when no file is
    asked for. *)
Theorem report_survives_open_failure (name err : string) v :
  name ≠ EmptyString ->
  let r := print_results render timestamp project_path (Some name)
             (OpenFails err) v in
  written r = None /\
  console r
  = ("Warning: Could not create output file '" +:+ name +:+ "': " +:+ err)
    :: console (print_results render timestamp project_path None
                  (OpenFails err) v).
Proof.
  intros Hname r. unfold r.
  pose proof (print_results_lines render timestamp project_path (Some name)
                (OpenFails err) v) as H.
  pose proof (print_results_lines render timestamp project_path None
                (OpenFails err) v) as Hnone.
  cbv zeta in H, Hnone. rewrite H, Hnone.
  apply String.eqb_neq in Hname. rewrite Hname. by simpl.
Qed.

End ReportProperties.

(** ** The further properties at concrete inputs *)

(** X1 at the sample project. *)
Lemma run_only_appends_witness :
  exists is_valid v',
    validate dump_plain_mapping sample_repr elements sample_project new_validator
    = Ok (is_valid, v') /\
    errors new_validator `prefix_of` errors v' /\
    warnings new_validator `prefix_of` warnings v' /\
    suggestions new_validator `prefix_of` suggestions v'.
Proof.
  do 2 eexists. split; [vm_compute; reflexivity|].
  eapply (run_only_appends dump_plain_mapping sample_repr elements
            sample_project new_validator).
  vm_compute. reflexivity.
Defined.

(** X2 at the sample job file. *)
Lemma job_file_findings_independent_witness :
  exists v' d,
    validate_job_file dump_plain_mapping sample_repr sample_job_file new_validator
    = Ok v' /\
    v' = extend new_validator d /\
    forall w, validate_job_file dump_plain_mapping sample_repr sample_job_file w
              = Ok (extend w d).
Proof.
  eexists.
  edestruct (job_file_findings_independent dump_plain_mapping sample_repr
               sample_job_file new_validator) as (d & Hd & Hall).
  - vm_compute. reflexivity.
  - exists d. split; [vm_compute; reflexivity|]. split; [exact Hd|exact Hall].
Defined.

(** X3 at the sample project with its two job files swapped. *)
Lemma discovery_order_irrelevant_witness :
  exists is_valid v1 v2,
    validate dump_plain_mapping sample_repr elements sample_project new_validator
    = Ok (is_valid, v1) /\
    validate dump_plain_mapping sample_repr elements
      (with_job_files sample_project [broken_job_file; sample_job_file])
      new_validator = Ok (is_valid, v2) /\
    same_findings v1 v2.
Proof.
  do 2 eexists.
  edestruct (discovery_order_irrelevant dump_plain_mapping sample_repr elements
               sample_project [broken_job_file; sample_job_file] new_validator)
    as (v2 & Hrun & Hsame & _).
  - apply Permutation_swap.
  - vm_compute. reflexivity.
  - exists v2. split; [vm_compute; reflexivity|]. split; [exact Hrun|exact Hsame].
Defined.

(** X4 at the sample job. *)
Lemma naming_only_warns_witness :
  exists v',
    check_naming_conventions sample_repr sample_job_doc "resources/nightly.yml"
      new_validator = Ok v' /\
    errors v' = [] /\ suggestions v' = [].
Proof.
  eexists. split; [vm_compute; reflexivity|].
  edestruct (naming_only_warns sample_repr sample_job_doc
               "resources/nightly.yml" new_validator) as (He & Hs & _).
  - vm_compute. reflexivity.
  - split; [exact He|exact Hs].
Defined.

(** X5 at the sample job. *)
Lemma cost_only_suggests_witness :
  exists v',
    check_cost_optimization sample_job_doc "resources/nightly.yml" new_validator
    = Ok v' /\
    errors v' = [] /\ warnings v' = [].
Proof.
  eexists. split; [vm_compute; reflexivity|].
  edestruct (cost_only_suggests sample_job_doc "resources/nightly.yml"
               new_validator) as (He & Hw & _).
  - vm_compute. reflexivity.
  - split; [exact He|exact Hw].
Defined.

(** X6 at the sample job. *)
Lemma best_practices_only_suggest_witness :
  exists v',
    check_best_practices sample_job_doc "resources/nightly.yml" new_validator
    = Ok v' /\
    errors v' = [] /\ warnings v' = [] /\
    (length (suggestions v') <= 3)%nat.
Proof.
  eexists. split; [vm_compute; reflexivity|].
  edestruct (best_practices_only_suggest sample_job_doc "resources/nightly.yml"
               new_validator) as (He & Hw & _ & Hlen).
  - vm_compute. reflexivity.
  - split; [exact He|]. split; [exact Hw|exact Hlen].
Defined.

(** X7 at the dump of the document with the two passwords. *)
Lemma secrets_one_finding_per_pattern_witness :
  exists v' n,
    check_security_compliance dump_plain_mapping hunter2_doc "resources/job.yml"
      new_validator = Ok v' /\
    (n <= 4)%nat /\
    errors v' = replicate n (HardcodedSecret "resources/job.yml").
Proof.
  eexists.
  edestruct (secrets_one_finding_per_pattern dump_plain_mapping hunter2_doc
               "resources/job.yml" new_validator) as (n & _ & Hn & He & _).
  - vm_compute. reflexivity.
  - exists n. split; [vm_compute; reflexivity|]. split; [exact Hn|exact He].
Defined.

(** X8 at the sample job. *)
Lemma required_tags_errors_shape_witness :
  exists job_config' v' es,
    check_required_tags sample_job_doc "resources/nightly.yml" new_validator
    = Ok (job_config', v') /\
    errors v' = es /\ (length es <= 1)%nat.
Proof.
  do 2 eexists.
  edestruct (required_tags_errors_shape sample_job_doc "resources/nightly.yml"
               new_validator) as (_ & _ & es & He & Hlen & _).
  - vm_compute. reflexivity.
  - exists es. split; [vm_compute; reflexivity|]. split; [exact He|exact Hlen].
Defined.

(** X9 at the dump of the document with the two passwords. *)
Lemma no_quote_no_secret_witness :
  has_quote (dump_plain_mapping hunter2_doc) = false /\
  exists v',
    check_security_compliance dump_plain_mapping hunter2_doc "resources/job.yml"
      new_validator = Ok v' /\
    errors v' = [].
Proof.
  split; [reflexivity|]. eexists. split; [vm_compute; reflexivity|].
  edestruct (no_quote_no_secret dump_plain_mapping hunter2_doc
               "resources/job.yml" new_validator) as (_ & He).
  - reflexivity.
  - vm_compute. reflexivity.
  - exact He.
Defined.

(** X11 at a job without custom tags. *)
Lemma tree_unchanged_without_custom_tags_witness :
  tags_config plain_job_doc = true /\
  exists v',
    check_required_tags plain_job_doc "resources/hourly.yml" new_validator
    = Ok (plain_job_doc, v').
Proof.
  split; [reflexivity|].
  apply (tree_unchanged_without_custom_tags plain_job_doc
           "resources/hourly.yml" new_validator).
  - reflexivity.
  - vm_compute. repeat constructor.
Defined.

(** X14 at the empty mapping. *)
Lemma empty_document_skipped_witness :
  py_truthy (YDict []) = false /\
  validate_job_file dump_plain_mapping sample_repr
    (mkJobFile "resources/empty.yml" "resources/empty.yml" (Parsed (YDict [])))
    new_validator = Ok new_validator.
Proof.
  split; [reflexivity|].
  edestruct (empty_document_skipped dump_plain_mapping sample_repr elements
               (YDict []) new_validator) as (Hfile & _).
  - reflexivity.
  - apply Hfile. reflexivity.
Defined.

(** X15 at the sample project: [dev] overrides nothing and adds [x], [y]. *)
Lemma environments_follow_targets_witness :
  wf_bundle sample_bundle_doc = true /\
  exists env,
    extract_environment_variables sample_project new_validator
    = Ok (env, new_validator) /\
    map fst env = ["dev"; "prod"].
Proof.
  split; [reflexivity|].
  edestruct (environments_follow_targets sample_project sample_bundle_doc
               new_validator) as (env & Hex & Hnames & _).
  - reflexivity.
  - reflexivity.
  - apply (bool_decide_unpack _). vm_compute. exact I.
  - discriminate.
  - exists env. split; [exact Hex|exact Hnames].
Defined.

(** X16 at a bundle without targets. *)
Lemma global_fallback_witness :
  targets_of untargeted_bundle_doc = [] /\
  extract_environment_variables untargeted_project new_validator
  = Ok ([("global", YDict [("catalog", YDict [("default", YStr "main")])])],
        new_validator) /\
  validate_environment_consistency elements untargeted_project new_validator
  = Ok new_validator.
Proof.
  split; [reflexivity|].
  apply (global_fallback elements untargeted_project untargeted_bundle_doc
           new_validator); reflexivity.
Defined.

(** X17 at the sample project. *)
Lemma consistency_warnings_shape_witness :
  extract_environment_variables sample_project new_validator
  = Ok (sample_environments, new_validator) /\
  exists ws,
    validate_environment_consistency elements sample_project new_validator
    = Ok (mkValidator [] ([] ++ ws) []) /\
    (length ws <= 1)%nat.
Proof.
  split; [reflexivity|].
  edestruct (consistency_warnings_shape elements
               (fun X => reflexivity (elements X))
               sample_project new_validator sample_environments new_validator)
    as (ws & Hrun & _).
  - reflexivity.
  - exists ws. split; [exact Hrun|].
    assert (Hcomputed :
      validate_environment_consistency elements sample_project new_validator
      = Ok (mkValidator [] [VariableMissing "y" ["prod"]] []))
      by (vm_compute; reflexivity).
    rewrite Hcomputed in Hrun. injection Hrun as <-. simpl. lia.
Defined.

(** X18 at a bundle whose targets define the same variable. *)
Lemma consistent_environments_pass_witness :
  extract_environment_variables consistent_project new_validator
  = Ok (consistent_environments, new_validator) /\
  validate_environment_consistency elements consistent_project new_validator
  = Ok new_validator.
Proof.
  split; [reflexivity|].
  apply (consistent_environments_pass elements
           (fun X => reflexivity (elements X))
           consistent_project new_validator consistent_environments
           new_validator).
  - reflexivity.
  - apply Forall_forall. apply (bool_decide_unpack _). vm_compute. exact I.
Defined.

(** X20 at a report on an error and a suggestion. *)
Lemma report_file_mirrors_console_witness :
  let v := mkValidator [HardcodedSecret "job.yml"] [] [NoTimeout "Nightly"] in
  let r := print_results sample_render "2026-01-01 00:00:00" "."
             (Some "report.txt") Opened v in
  written r
  = Some (report_header "2026-01-01 00:00:00" "." +:+
          text_of (report_lines sample_render v)) /\
  length (console r) = 13%nat.
Proof.
  intros v r.
  destruct (report_file_mirrors_console sample_render "2026-01-01 00:00:00" "."
              "report.txt" v) as (Hfile & Hconsole).
  - discriminate.
  - split; [exact Hfile|]. fold r in Hconsole. rewrite Hconsole. reflexivity.
Defined.

(** X21 at the same report. *)
Lemma report_survives_open_failure_witness :
  let v := mkValidator [HardcodedSecret "job.yml"] [] [NoTimeout "Nightly"] in
  let r := print_results sample_render "2026-01-01 00:00:00" "."
             (Some "report.txt") (OpenFails "Permission denied") v in
  written r = None /\ length (console r) = 13%nat.
Proof.
  intros v r.
  destruct (report_survives_open_failure sample_render "2026-01-01 00:00:00"
              "." "report.txt" "Permission denied" v) as (Hfile & Hconsole).
  - discriminate.
  - split; [exact Hfile|]. fold r in Hconsole. rewrite Hconsole. reflexivity.
Defined.

(** * Properties of the evaluator on shared mappings *)

Lemma entry_of_lookup k d : entry_of k d = Shared.dict_lookup k d.
Proof.
  unfold entry_of. induction d as [|[k' x] d IH]; simpl; [done|].
  destruct (String.eqb_spec k k') as [->|Hne].
  - by rewrite decide_True.
  - rewrite decide_False by (simpl; congruence). rewrite <- IH.
    by destruct (list_find _ d) as [[i [k2 x2]]|].
Qed.

Lemma names_of_keys d : names_of d = Shared.dict_keys d.
Proof. done. Qed.

Lemma shared_dict_keys_set k x d :
  Shared.dict_keys (Shared.dict_set k x d) = {[k]} ∪ Shared.dict_keys d.
Proof.
  unfold Shared.dict_keys. induction d as [|[k1 x1] d IH]; simpl.
  - set_solver.
  - destruct (String.eqb_spec k k1) as [->|Hne]; simpl.
    + set_solver.
    + rewrite IH. set_solver.
Qed.

Lemma shared_dict_keys_update other : forall d,
  Shared.dict_keys (Shared.dict_update d other)
  = Shared.dict_keys d ∪ Shared.dict_keys other.
Proof.
  unfold Shared.dict_update.
  induction other as [|[k x] other IH]; intros d; simpl.
  - unfold Shared.dict_keys at 3. simpl. set_solver.
  - rewrite IH, shared_dict_keys_set. unfold Shared.dict_keys at 4. simpl.
    set_solver.
Qed.

(** *** Objects that stay *)

Lemma keeps_objects_refl W h : keeps_objects W h h.
Proof. by intros l o _ H. Qed.

Lemma keeps_objects_trans W1 W2 h1 h2 h3 :
  keeps_objects W1 h1 h2 -> keeps_objects W2 h2 h3 ->
  keeps_objects (W1 ++ W2) h1 h3.
Proof.
  intros H12 H23 l o Hl Ho. apply not_elem_of_app in Hl as [Hl1 Hl2].
  apply H23; [done|]. by apply H12.
Qed.

Lemma keeps_objects_weaken W W' h h' :
  (forall l, l ∈ W -> l ∈ W') -> keeps_objects W h h' -> keeps_objects W' h h'.
Proof. intros Hsub H l o Hl Ho. apply H; [|done]. intros Hin. by apply Hl, Hsub. Qed.

Lemma keeps_objects_alloc W h o : keeps_objects W h (h ++ [o]).
Proof. intros l o' _ H. by apply lookup_app_l_Some. Qed.

Lemma keeps_objects_insert h t o : keeps_objects [t] h (<[t:=o]> h).
Proof.
  intros l o' Hl H. rewrite list_lookup_insert_ne; [done|].
  intros ->. apply Hl. by left.
Qed.

(** *** What [get] returns *)

Lemma py_get_mapping h x k default d :
  mapping_at h x = Some d ->
  Shared.py_get h x k default
  = match entry_of k d with
    | Some y => Ok (y, h)
    | None => Ok (Shared.VRef (length h), h ++ [default])
    end.
Proof.
  unfold mapping_at, Shared.py_get. intros H.
  destruct x as [| | | | |l]; try done.
  destruct (h !! l) as [[d'|xs]|]; try done. injection H as ->.
  by rewrite entry_of_lookup.
Qed.

Lemma mapping_at_inv h x d :
  mapping_at h x = Some d ->
  exists l, x = Shared.VRef l /\ h !! l = Some (Shared.ODict d).
Proof.
  unfold mapping_at. intros H. destruct x as [| | | | |l]; try done.
  destruct (h !! l) as [[d'|xs]|] eqn:Hl; try done. injection H as ->. eauto.
Qed.

Lemma sequence_at_inv h x xs :
  sequence_at h x = Some xs ->
  exists l, x = Shared.VRef l /\ h !! l = Some (Shared.OList xs).
Proof.
  unfold sequence_at. intros H. destruct x as [| | | | |l]; try done.
  destruct (h !! l) as [[d'|xs']|] eqn:Hl; try done. injection H as ->. eauto.
Qed.

Lemma refers_to_mapping_inv h x :
  refers_to_mapping h x = true ->
  exists l d, x = Shared.VRef l /\ h !! l = Some (Shared.ODict d).
Proof.
  unfold refers_to_mapping. intros H. apply bool_decide_eq_true_1 in H as [d H].
  apply mapping_at_inv in H as (l & -> & H). eauto.
Qed.

Lemma mapping_at_ref h l d :
  h !! l = Some (Shared.ODict d) -> mapping_at h (Shared.VRef l) = Some d.
Proof. intros H. simpl. by rewrite H. Qed.

(** *** One cluster *)

Lemma shared_cluster_view h cluster :
  shared_cluster h cluster = true ->
  cluster_view h cluster (custom_tags_at h cluster) (read_locs_cluster h cluster).
Proof.
  unfold shared_cluster. intros H. apply andb_prop in H as [Hc H].
  apply refers_to_mapping_inv in Hc as (lc & cd & -> & Hlc).
  unfold custom_tags_at, read_locs_cluster, child.
  rewrite (mapping_at_ref _ _ _ Hlc). simpl.
  unfold child in H. rewrite (mapping_at_ref _ _ _ Hlc) in H. simpl in H.
  destruct (entry_of "new_cluster" cd) as [nc|] eqn:Hnc; simpl in *.
  2:{ by eapply cluster_plain. }
  apply andb_prop in H as [Hm H].
  apply refers_to_mapping_inv in Hm as (lnc & ncd & -> & Hlnc).
  rewrite (mapping_at_ref _ _ _ Hlnc) in *. simpl in *.
  destruct (entry_of "custom_tags" ncd) as [ct|] eqn:Hct; simpl in *.
  2:{ by eapply cluster_untagged. }
  apply refers_to_mapping_inv in H as (lct & ctd & -> & Hlct).
  rewrite (mapping_at_ref _ _ _ Hlct). simpl.
  by eapply cluster_tagged.
Qed.

Lemma shared_dict_update_nil d : Shared.dict_update d [] = d.
Proof. done. Qed.

(** The merge of one cluster, on a heap where the cluster is as it was in
    [h]: the object of the tags gets the custom tags, every other object
    stays. *)
Lemma merge_cluster_tags_view h k t acc cluster tags locs :
  cluster_view h cluster tags locs ->
  (forall l o, l ∈ locs -> h !! l = Some o -> k !! l = Some o) ->
  k !! t = Some (Shared.ODict acc) ->
  exists k',
    Shared.merge_cluster_tags (Shared.VRef t) cluster k = Ok k' /\
    k' !! t = Some (Shared.ODict (Shared.dict_update acc tags)) /\
    keeps_objects [t] k k'.
Proof.
  intros Hview Hsame Ht.
  assert (Hlen : (t < length k)%nat) by (by eapply lookup_lt_Some).
  unfold Shared.merge_cluster_tags.
  destruct Hview as [lc cd -> Hlc Hnc|lc cd lnc ncd -> Hlc Hnc Hlnc Hct
                    |lc cd lnc ncd lct ctd -> Hlc Hnc Hlnc Hct Hlct].
  - (* no [new_cluster]: two defaults *)
    apply Hsame in Hlc; [|by left].
    rewrite (py_get_mapping _ _ _ _ cd) by (by apply mapping_at_ref).
    rewrite Hnc. cbn [bind].
    rewrite (py_get_mapping _ _ _ _ []).
    2:{ apply mapping_at_ref. by rewrite list_lookup_middle. }
    change (entry_of "custom_tags" []) with (@None Shared.value).
    cbn [bind]. unfold Shared.py_update.
    assert (H1 : ((k ++ [Shared.ODict []]) ++ [Shared.ODict []]) !! t
                 = Some (Shared.ODict acc))
      by (by do 2 apply lookup_app_l_Some).
    assert (H2 : ((k ++ [Shared.ODict []]) ++ [Shared.ODict []])
                   !! length (k ++ [Shared.ODict []])
                 = Some (Shared.ODict []))
      by (by apply list_lookup_middle).
    rewrite H1. cbv beta iota. rewrite H2.
    eexists. split; [reflexivity|]. split.
    + apply list_lookup_insert_eq. rewrite !length_app. simpl. lia.
    + intros l o Hl Ho. rewrite list_lookup_insert_ne.
      * by apply lookup_app_l_Some, lookup_app_l_Some.
      * intros ->. apply Hl. by left.
  - (* a [new_cluster] without [custom_tags]: one default *)
    apply Hsame in Hlc; [|by left].
    apply Hsame in Hlnc; [|by right; left].
    rewrite (py_get_mapping _ _ _ _ cd) by (by apply mapping_at_ref).
    rewrite Hnc. cbn [bind].
    rewrite (py_get_mapping _ _ _ _ ncd) by (by apply mapping_at_ref).
    rewrite Hct. cbn [bind]. unfold Shared.py_update.
    assert (H1 : (k ++ [Shared.ODict []]) !! t = Some (Shared.ODict acc))
      by (by apply lookup_app_l_Some).
    assert (H2 : (k ++ [Shared.ODict []]) !! length k = Some (Shared.ODict []))
      by (by apply list_lookup_middle).
    rewrite H1. cbv beta iota. rewrite H2.
    eexists. split; [reflexivity|]. split.
    + apply list_lookup_insert_eq. rewrite length_app. simpl. lia.
    + intros l o Hl Ho. rewrite list_lookup_insert_ne.
      * by apply lookup_app_l_Some.
      * intros ->. apply Hl. by left.
  - apply Hsame in Hlc; [|by left].
    apply Hsame in Hlnc; [|by right; left].
    apply Hsame in Hlct; [|by right; right; left].
    rewrite (py_get_mapping _ _ _ _ cd) by (by apply mapping_at_ref).
    rewrite Hnc. cbn [bind].
    rewrite (py_get_mapping _ _ _ _ ncd) by (by apply mapping_at_ref).
    rewrite Hct. cbn [bind]. unfold Shared.py_update. rewrite Ht.
    cbv beta iota. rewrite Hlct.
    eexists. split; [reflexivity|]. split.
    + by apply list_lookup_insert_eq.
    + apply keeps_objects_insert.
Qed.

Lemma merge_clusters_unshared h cs : forall k t acc,
  Forall (fun c => shared_cluster h c = true) cs ->
  (forall l o, l ∈ cs ≫= read_locs_cluster h -> h !! l = Some o ->
               k !! l = Some o /\ l <> t) ->
  k !! t = Some (Shared.ODict acc) ->
  exists k',
    for_each cs (Shared.merge_cluster_tags (Shared.VRef t)) k = Ok k' /\
    k' !! t
    = Some (Shared.ODict
              (fold_left
                 (fun tags c => Shared.dict_update tags (custom_tags_at h c))
                 cs acc)) /\
    keeps_objects [t] k k'.
Proof.
  induction cs as [|c cs IH]; intros k t acc Hwf Hsame Ht; simpl.
  - eexists. split; [reflexivity|]. split; [done|apply keeps_objects_refl].
  - apply Forall_cons in Hwf as [Hc Hcs].
    destruct (merge_cluster_tags_view h k t acc c _ _
                (shared_cluster_view _ _ Hc)) as (k1 & -> & Ht1 & Hk1); [|done|].
    { intros l o Hl Ho. apply Hsame; [|done]. rewrite bind_cons.
      apply elem_of_app. by left. }
    simpl.
    destruct (IH k1 t (Shared.dict_update acc (custom_tags_at h c)) Hcs)
      as (k2 & -> & Ht2 & Hk2); [|done|].
    { intros l o Hl Ho.
      destruct (Hsame l o) as [Hk Hne]; [|done|].
      { rewrite bind_cons. apply elem_of_app. by right. }
      split; [|done]. apply Hk1; [|done].
      intros Hin. apply list_elem_of_singleton in Hin. done. }
    eexists. split; [reflexivity|]. split; [done|].
    eapply keeps_objects_weaken; [|by eapply keeps_objects_trans].
    intros l Hl. apply elem_of_app in Hl as [Hl|Hl]; done.
Qed.

(** *** One job *)

Lemma child_ref h l d k :
  h !! l = Some (Shared.ODict d) -> child h (Shared.VRef l) k = entry_of k d.
Proof. intros H. unfold child. by rewrite (mapping_at_ref _ _ _ H). Qed.

Lemma names_of_merged h job_def :
  names_of (merged_tags_at h job_def) = present_tags_at h job_def.
Proof.
  unfold merged_tags_at, present_tags_at.
  generalize (own_tags_at h job_def).
  induction (clusters_at h job_def) as [|c cs IH]; intros tags; simpl.
  - set_solver.
  - rewrite IH, (names_of_keys (Shared.dict_update _ _)).
    rewrite shared_dict_keys_update, <- !names_of_keys. set_solver.
Qed.

(** [job_def.get("tags", {})] on a heap where the job is as it was in [h]:
    the object under the key, or a new empty one. *)
Lemma job_tags_get h k lj jd :
  h !! lj = Some (Shared.ODict jd) ->
  k !! lj = Some (Shared.ODict jd) ->
  absent_or (refers_to_mapping h) (entry_of "tags" jd) = true ->
  (forall l o, l ∈ locs_of (entry_of "tags" jd) -> h !! l = Some o ->
               k !! l = Some o) ->
  exists t k1,
    Shared.py_get k (Shared.VRef lj) "tags" (Shared.ODict [])
    = Ok (Shared.VRef t, k1) /\
    k1 !! t = Some (Shared.ODict (own_tags_at h (Shared.VRef lj))) /\
    keeps_objects [] k k1 /\
    (forall l o, k !! l = Some o -> l ∉ locs_of (entry_of "tags" jd) -> l <> t) /\
    (forall l, l ∈ locs_of (entry_of "tags" jd) -> l = t).
Proof.
  intros Hh Hk Hshape Hsame.
  rewrite (py_get_mapping _ _ _ _ jd) by (by apply mapping_at_ref).
  unfold own_tags_at. rewrite (child_ref _ _ _ _ Hh).
  destruct (entry_of "tags" jd) as [tags|]; simpl in *.
  - apply refers_to_mapping_inv in Hshape as (t & own & -> & Ht).
    exists t, k. simpl. rewrite Ht. simpl.
    split; [done|]. split; [apply (Hsame t); [by left|done]|].
    split; [apply keeps_objects_refl|]. split.
    + intros l o _ Hl ->. apply Hl. by left.
    + intros l Hl. by apply list_elem_of_singleton in Hl.
  - exists (length k), (k ++ [Shared.ODict []]).
    split; [done|]. split; [by apply list_lookup_middle|].
    split; [apply keeps_objects_alloc|]. split.
    + intros l o Hl _ ->. apply lookup_lt_Some in Hl. lia.
    + intros l Hl. by apply elem_of_nil in Hl.
Qed.

(** [job_def.get("job_clusters", [])] and the items the loop visits. *)
Lemma job_clusters_get h k lj jd :
  h !! lj = Some (Shared.ODict jd) ->
  k !! lj = Some (Shared.ODict jd) ->
  absent_or (fun clusters => bool_decide (is_Some (sequence_at h clusters)))
    (entry_of "job_clusters" jd) = true ->
  (forall l o, l ∈ locs_of (entry_of "job_clusters" jd) -> h !! l = Some o ->
               k !! l = Some o) ->
  exists clusters k1,
    Shared.py_get k (Shared.VRef lj) "job_clusters" (Shared.OList [])
    = Ok (clusters, k1) /\
    Shared.py_iter k1 clusters = Ok (clusters_at h (Shared.VRef lj)) /\
    keeps_objects [] k k1.
Proof.
  intros Hh Hk Hshape Hsame.
  rewrite (py_get_mapping _ _ _ _ jd) by (by apply mapping_at_ref).
  unfold clusters_at. rewrite (child_ref _ _ _ _ Hh).
  destruct (entry_of "job_clusters" jd) as [clusters|]; simpl in *.
  - apply bool_decide_eq_true_1 in Hshape as [cs Hcs].
    rewrite Hcs. simpl.
    apply sequence_at_inv in Hcs as (lcs & -> & Hcs).
    exists (Shared.VRef lcs), k. split; [done|].
    split; [|apply keeps_objects_refl].
    simpl. rewrite (Hsame lcs _ ltac:(by left) Hcs). done.
  - exists (Shared.VRef (length k)), (k ++ [Shared.OList []]).
    split; [done|]. split; [|apply keeps_objects_alloc].
    simpl. by rewrite list_lookup_middle.
Qed.

Lemma shared_job_inv h job_def :
  shared_job h job_def = true ->
  exists lj jd,
    job_def = Shared.VRef lj /\ h !! lj = Some (Shared.ODict jd) /\
    absent_or (refers_to_mapping h) (entry_of "tags" jd) = true /\
    absent_or (fun clusters => bool_decide (is_Some (sequence_at h clusters)))
      (entry_of "job_clusters" jd) = true /\
    Forall (fun c => shared_cluster h c = true) (clusters_at h job_def).
Proof.
  unfold shared_job. intros H.
  apply andb_prop in H as [H Hcs]. apply andb_prop in H as [Hj Htags].
  apply refers_to_mapping_inv in Hj as (lj & jd & -> & Hlj).
  rewrite (child_ref _ _ _ "tags" Hlj) in Htags.
  rewrite (child_ref _ _ _ "job_clusters" Hlj) in Hcs.
  exists lj, jd. split; [done|]. split; [done|]. split; [done|].
  unfold clusters_at. rewrite (child_ref _ _ _ _ Hlj).
  destruct (entry_of "job_clusters" jd) as [clusters|]; simpl in *.
  - destruct (sequence_at h clusters) as [cs|] eqn:Hseq; [|done].
    split; [by apply bool_decide_eq_true_2|].
    simpl. apply Forall_forall. intros c Hin.
    rewrite forallb_forall in Hcs. apply Hcs. by apply list_elem_of_In.
  - split; [done|]. simpl. constructor.
Qed.

(** On a heap where the job and what it refers to are as they were in [h],
    and where the object of its tags is none of the objects read on the
    way, the body of the loop appends the finding the rule calls for, writes
    the merged tags to the object of the tags and leaves every other object
    as it was. *)
Lemma required_tags_job_unshared h k file_path job v :
  shared_job h (snd job) = true ->
  (forall l o, l ∈ read_locs_job h (snd job) ++ tags_locs_job h (snd job) ->
               h !! l = Some o -> k !! l = Some o) ->
  (forall l, l ∈ tags_locs_job h (snd job) -> l ∉ read_locs_job h (snd job)) ->
  exists k',
    Shared.required_tags_job file_path job (k, v)
    = Ok (k', match missing_finding_at h file_path job with
              | Some f => add_error f v
              | None => v
              end) /\
    keeps_objects (tags_locs_job h (snd job)) k k' /\
    (forall t, t ∈ tags_locs_job h (snd job) ->
               k' !! t = Some (Shared.ODict (merged_tags_at h (snd job)))).
Proof.
  destruct job as [job_name job_def]. simpl. intros Hshape Hsame Hfresh.
  apply shared_job_inv in Hshape as (lj & jd & -> & Hlj & Htags & Hseq & Hcs).
  unfold tags_locs_job, read_locs_job in Hsame, Hfresh.
  rewrite (child_ref _ _ _ "tags" Hlj) in Hsame, Hfresh.
  rewrite (child_ref _ _ _ "job_clusters" Hlj) in Hsame, Hfresh.
  assert (Hklj : k !! lj = Some (Shared.ODict jd)).
  { apply Hsame; [|done]. apply elem_of_app. left. simpl. by left. }
  destruct (job_tags_get h k lj jd Hlj Hklj Htags)
    as (t & k1 & Hget1 & Ht1 & Hk1 & Hnew & Hold).
  { intros l o Hl. apply Hsame. apply elem_of_app. by right. }
  assert (Hk1lj : k1 !! lj = Some (Shared.ODict jd)).
  { apply Hk1; [by apply not_elem_of_nil|done]. }
  destruct (job_clusters_get h k1 lj jd Hlj Hk1lj Hseq)
    as (clusters & k2 & Hget2 & Hiter & Hk2).
  { intros l o Hl Ho. apply Hk1; [by apply not_elem_of_nil|].
    apply Hsame; [|done]. apply elem_of_app. left. simpl. right.
    apply elem_of_app. by left. }
  assert (Ht2 : k2 !! t = Some (Shared.ODict (own_tags_at h (Shared.VRef lj)))).
  { apply Hk2; [by apply not_elem_of_nil|done]. }
  assert (Hreads : forall l o,
             l ∈ clusters_at h (Shared.VRef lj) ≫= read_locs_cluster h ->
             h !! l = Some o -> k2 !! l = Some o /\ l <> t).
  { intros l o Hl Ho.
    assert (Hin : l ∈ lj :: locs_of (entry_of "job_clusters" jd) ++
                       (clusters_at h (Shared.VRef lj) ≫= read_locs_cluster h)).
    { right. apply elem_of_app. by right. }
    assert (Hkl : k !! l = Some o).
    { apply Hsame; [|done]. apply elem_of_app. by left. }
    split.
    - apply Hk2; [by apply not_elem_of_nil|].
      apply Hk1; [by apply not_elem_of_nil|done].
    - apply (Hnew l o Hkl). intros Htl. by apply (Hfresh l Htl). }
  destruct (merge_clusters_unshared h _ k2 t _ Hcs Hreads Ht2)
    as (k3 & Hloop & Ht3 & Hk3).
  exists k3. split; [|split].
  - unfold Shared.required_tags_job. rewrite Hget1. cbn [bind].
    rewrite Hget2. cbn [bind]. rewrite Hiter. cbn [bind].
    rewrite Hloop. cbn [bind]. unfold Shared.py_keys. rewrite Ht3.
    cbn [bind]. do 2 f_equal.
    unfold missing_finding_at, missing_tags_at. simpl.
    change (Shared.dict_keys (fold_left _ _ _))
      with (names_of (merged_tags_at h (Shared.VRef lj))).
    rewrite names_of_merged.
    set (missing := required_tags ∖ _).
    destruct (decide (missing = ∅)) as [He|Hne].
    + rewrite (bool_decide_eq_true_2 _ He).
      by rewrite bool_decide_eq_false_2 by (by intros ?).
    + rewrite (bool_decide_eq_false_2 _ Hne).
      by rewrite bool_decide_eq_true_2.
  - intros l o Hl Ho.
    unfold tags_locs_job in Hl. rewrite (child_ref _ _ _ "tags" Hlj) in Hl.
    apply Hk3.
    + intros Hin. apply list_elem_of_singleton in Hin.
      exact (Hnew l o Ho Hl Hin).
    + apply Hk2; [by apply not_elem_of_nil|].
      apply Hk1; [by apply not_elem_of_nil|done].
  - intros t' Ht'.
    unfold tags_locs_job in Ht'. rewrite (child_ref _ _ _ "tags" Hlj) in Ht'.
    apply Hold in Ht' as ->. exact Ht3.
Qed.

(** *** The loop over the jobs *)

(** The loop over [jobs.items()] when every iteration leaves the dict of
    the jobs as it is. *)
Lemma for_items_invariant ljobs jobs body
  (I : nat -> Shared.heap * validator -> Prop) st0 :
  I 0%nat st0 ->
  (forall i st, I i st -> fst st !! ljobs = Some (Shared.ODict jobs)) ->
  (forall i job st, jobs !! i = Some job -> I i st ->
                    exists st', body job st = Ok st' /\ I (S i) st') ->
  exists st',
    Shared.for_items ljobs (length jobs) body st0 = Ok st' /\
    I (length jobs) st'.
Proof.
  intros H0 Hjobs Hbody. unfold Shared.for_items.
  set (step := fun (i : nat) (st : Shared.heap * validator) => _).
  assert (Hloop : forall m i st,
             (i + m = length jobs)%nat -> I i st ->
             exists st', for_each (seq i m) step st = Ok st' /\
                         I (length jobs) st').
  { induction m as [|m IH]; intros i st Hlen Hi; simpl.
    - replace (length jobs) with i by lia. eauto.
    - destruct (lookup_lt_is_Some_2 jobs i) as [job Hjob]; [lia|].
      destruct (Hbody i job st Hjob Hi) as (st1 & Hst1 & Hi1).
      unfold step at 1. unfold Shared.next_item.
      rewrite (Hjobs i st Hi), Nat.eqb_refl. cbn [bind]. rewrite Hjob, Hst1.
      cbn [bind]. apply IH; [lia|done]. }
  destruct (Hloop (length jobs) 0%nat st0) as (st' & -> & Hst'); [lia|done|].
  cbn [bind]. unfold Shared.next_item.
  rewrite (Hjobs _ _ Hst'), Nat.eqb_refl. cbn [bind]. eauto.
Qed.

Lemma tags_locs_split h (jobs : Shared.entries) i job :
  jobs !! i = Some job ->
  jobs ≫= (fun job => tags_locs_job h (snd job))
  = (take i jobs ≫= (fun job => tags_locs_job h (snd job))) ++
    tags_locs_job h (snd job) ++
    (drop (S i) jobs ≫= (fun job => tags_locs_job h (snd job))).
Proof.
  intros Hjob. rewrite <- (take_drop_middle jobs i job Hjob) at 1.
  by rewrite bind_app, bind_cons.
Qed.

(** The loop of the evaluator over the jobs [jobs] of the dict at [ljobs],
    from a heap [k] that holds every object of [h]. *)
Lemma required_tags_loop_unshared h k ljobs jobs file_path v :
  Forall (fun job => shared_job h (snd job) = true) jobs ->
  NoDup (jobs ≫= (fun job => tags_locs_job h (snd job))) ->
  (forall l job, job ∈ jobs -> l ∈ tags_locs_job h (snd job) ->
                 l <> ljobs /\
                 forall job', job' ∈ jobs -> l ∉ read_locs_job h (snd job')) ->
  keeps_objects [] h k ->
  k !! ljobs = Some (Shared.ODict jobs) ->
  exists k',
    Shared.for_items ljobs (length jobs) (Shared.required_tags_job file_path)
      (k, v)
    = Ok (k',
          mkValidator
            (errors v ++ omap (missing_finding_at h file_path) jobs)
            (warnings v) (suggestions v)) /\
    keeps_objects (jobs ≫= (fun job => tags_locs_job h (snd job))) h k' /\
    (forall job t, job ∈ jobs -> t ∈ tags_locs_job h (snd job) ->
                   k' !! t = Some (Shared.ODict (merged_tags_at h (snd job)))).
Proof.
  intros Hwf Hdup Hsep Hk Hjobs.
  set (T := fun js : Shared.entries =>
              js ≫= (fun job => tags_locs_job h (snd job))).
  set (I := fun (i : nat) (st : Shared.heap * validator) =>
              fst st !! ljobs = Some (Shared.ODict jobs) /\
              keeps_objects (T (take i jobs)) h (fst st) /\
              snd st = mkValidator
                         (errors v ++
                          omap (missing_finding_at h file_path) (take i jobs))
                         (warnings v) (suggestions v) /\
              (forall job t, job ∈ take i jobs ->
                             t ∈ tags_locs_job h (snd job) ->
                             fst st !! t
                             = Some (Shared.ODict (merged_tags_at h (snd job))))).
  destruct (for_items_invariant ljobs jobs
              (Shared.required_tags_job file_path) I (k, v))
    as ([k' v'] & Hrun & Hl & Hkeeps & Hv & Hmerged).
  - (* before the first job *)
    split; [done|]. split; [|split].
    + rewrite take_0. exact Hk.
    + rewrite take_0. simpl. rewrite app_nil_r. by destruct v.
    + rewrite take_0. intros job t Hin. by apply elem_of_nil in Hin.
  - by intros i st (Hl & _).
  - (* one job *)
    intros i job [k1 v1] Hjob (Hl1 & Hkeeps1 & Hv1 & Hmerged1). simpl in *.
    assert (Hin : job ∈ jobs) by (by eapply list_elem_of_lookup_2).
    pose proof (tags_locs_split h jobs i job Hjob) as Hsplit.
    fold (T jobs) in Hsplit, Hdup. fold (T (take i jobs)) in Hsplit.
    rewrite Hsplit in Hdup.
    apply NoDup_app in Hdup as (_ & Hdone & Hdup).
    apply NoDup_app in Hdup as (_ & _ & _).
    assert (Hnot_done : forall l, l ∈ tags_locs_job h (snd job) ->
                                  l ∉ T (take i jobs)).
    { intros l Hl Hd. apply (Hdone l Hd). apply elem_of_app. by left. }
    destruct (required_tags_job_unshared h k1 file_path job v1)
      as (k2 & Hstep & Hkeeps2 & Hmerged2).
    + rewrite Forall_forall in Hwf. by apply Hwf.
    + intros l o Hlin Ho. apply Hkeeps1; [|done].
      apply elem_of_app in Hlin as [Hr|Ht]; [|by apply Hnot_done].
      intros Hd. unfold T in Hd. apply list_elem_of_bind in Hd as (job' & Ht' & Hj').
      apply elem_of_take in Hj' as (j & Hj' & _).
      apply list_elem_of_lookup_2 in Hj'.
      destruct (Hsep l job' Hj' Ht') as [_ Hnr]. by apply (Hnr job Hin).
    + intros l Ht. destruct (Hsep l job Hin Ht) as [_ Hnr]. by apply Hnr.
    + exists (k2, match missing_finding_at h file_path job with
                  | Some f => add_error f v1
                  | None => v1
                  end).
      split; [exact Hstep|]. unfold I.
      rewrite (take_S_r _ _ _ Hjob). simpl.
      split; [|split; [|split]].
      * apply Hkeeps2; [|done]. intros Ht.
        by destruct (Hsep ljobs job Hin Ht) as [Hne _].
      * unfold T. rewrite bind_app, bind_cons. simpl. rewrite app_nil_r.
        by eapply keeps_objects_trans.
      * rewrite omap_app. simpl. rewrite Hv1.
        destruct (missing_finding_at h file_path job); simpl.
        -- unfold add_error. simpl. by rewrite <- app_assoc.
        -- by rewrite app_nil_r.
      * intros job' t Hin' Ht.
        apply elem_of_app in Hin' as [Hin'|Hin'].
        -- apply Hkeeps2; [|by apply Hmerged1].
           intros Htjob. apply (Hnot_done t Htjob).
           unfold T. apply list_elem_of_bind. eauto.
        -- apply list_elem_of_singleton in Hin' as ->. by apply Hmerged2.
  - rewrite firstn_all in *. simpl in *. subst v'. eauto.
Qed.

(** *** The evaluator *)

Lemma shared_config_inv h config :
  shared_config h config = true ->
  exists lc c,
    config = Shared.VRef lc /\ h !! lc = Some (Shared.ODict c) /\
    match entry_of "resources" c with
    | None => jobs_at h config = []
    | Some resources =>
        exists lr rd,
          resources = Shared.VRef lr /\ h !! lr = Some (Shared.ODict rd) /\
          match entry_of "jobs" rd with
          | None => jobs_at h config = []
          | Some jobs =>
              exists ljobs,
                jobs = Shared.VRef ljobs /\
                h !! ljobs = Some (Shared.ODict (jobs_at h config)) /\
                ljobs ∈ read_locs h config /\
                Forall (fun job => shared_job h (snd job) = true)
                  (jobs_at h config)
          end
    end.
Proof.
  unfold shared_config. intros H. apply andb_prop in H as [Hc H].
  apply refers_to_mapping_inv in Hc as (lc & c & -> & Hlc).
  rewrite (child_ref _ _ _ "resources" Hlc) in H.
  exists lc, c. split; [done|]. split; [done|].
  unfold jobs_at, read_locs. rewrite (child_ref _ _ _ "resources" Hlc).
  destruct (entry_of "resources" c) as [resources|]; simpl in *; [|done].
  apply andb_prop in H as [Hr H].
  apply refers_to_mapping_inv in Hr as (lr & rd & -> & Hlr).
  rewrite (child_ref _ _ _ "jobs" Hlr) in *.
  exists lr, rd. split; [done|]. split; [done|].
  destruct (entry_of "jobs" rd) as [jobs|]; simpl in *; [|done].
  destruct (mapping_at h jobs) as [js|] eqn:Hjs; [|done]. simpl.
  apply mapping_at_inv in Hjs as (ljobs & -> & Hljobs).
  exists ljobs. split; [done|]. split; [done|]. split.
  - right. right. by left.
  - apply Forall_forall. intros job Hin. rewrite forallb_forall in H.
    apply H. by apply list_elem_of_In.
Qed.

Lemma read_locs_job_in h config job l :
  job ∈ jobs_at h config -> l ∈ read_locs_job h (snd job) ->
  l ∈ read_locs h config.
Proof.
  intros Hjob Hl. unfold read_locs. rewrite !elem_of_app. right. right. right.
  apply list_elem_of_bind. eauto.
Qed.

(** On a document of the shape the evaluator reads in which no [tags]
    mapping is shared, the evaluator completes, appends the findings the
    rule calls for, job by job, leaves every object other than the [tags]
    mappings as it was, and leaves in each [tags] mapping the merged tags
    of its job. *)
Lemma check_required_tags_unshared h config file_path v :
  shared_config h config = true ->
  tags_unshared h config ->
  exists h',
    Shared.check_required_tags h config file_path v
    = Ok (h',
          mkValidator
            (errors v ++
             omap (missing_finding_at h file_path) (jobs_at h config))
            (warnings v) (suggestions v)) /\
    keeps_objects (tags_locs h config) h h' /\
    (forall job t, job ∈ jobs_at h config -> t ∈ tags_locs_job h (snd job) ->
                   h' !! t = Some (Shared.ODict (merged_tags_at h (snd job)))).
Proof.
  intros Hshape [Hdup Hsep]. rewrite Forall_forall in Hsep.
  apply shared_config_inv in Hshape as (lc & c & -> & Hlc & Hshape).
  unfold Shared.check_required_tags, tags_locs in *.
  rewrite (py_get_mapping _ _ _ _ c) by (by apply mapping_at_ref).
  destruct (entry_of "resources" c) as [resources|].
  - destruct Hshape as (lr & rd & -> & Hlr & Hshape). cbn [bind].
    rewrite (py_get_mapping _ _ _ _ rd) by (by apply mapping_at_ref).
    destruct (entry_of "jobs" rd) as [jobs|].
    + destruct Hshape as (ljobs & -> & Hljobs & Hread & Hwf). cbn [bind].
      rewrite Hljobs.
      apply required_tags_loop_unshared;
        [done|done| |apply keeps_objects_refl|done].
      intros l job Hjob Hl.
      assert (Hin : l ∈ jobs_at h (Shared.VRef lc) ≫=
                        (fun job => tags_locs_job h (snd job))).
      { apply list_elem_of_bind. eauto. }
      apply Hsep in Hin. split.
      * by intros ->.
      * intros job' Hjob' Hl'. apply Hin. by eapply read_locs_job_in.
    + rewrite Hshape in *. cbn [bind].
      rewrite list_lookup_middle by done.
      apply (required_tags_loop_unshared h _ (length h) []);
        [constructor|constructor| |apply keeps_objects_alloc
        |by apply list_lookup_middle].
      intros l job Hjob. by apply elem_of_nil in Hjob.
  - rewrite Hshape in *. cbn [bind].
    rewrite (py_get_mapping _ _ _ _ []).
    2:{ apply mapping_at_ref. by apply list_lookup_middle. }
    change (entry_of "jobs" []) with (@None Shared.value). cbn [bind].
    rewrite list_lookup_middle by done.
    apply (required_tags_loop_unshared h _ (length (h ++ [Shared.ODict []])) []);
      [constructor|constructor| | |by apply list_lookup_middle].
    + intros l job Hjob. by apply elem_of_nil in Hjob.
    + intros l o _ Ho. by do 2 apply lookup_app_l_Some.
Qed.

(** C2, the code at the failing input.  The two jobs of the anchored
    document refer to one [tags] mapping, which holds [team].  The rule
    calls for one finding: [Report] has no cluster and lacks [cost_center]
    and [environment].  The evaluator goes over [Ingest] first and writes
    the custom tags of its cluster into the shared mapping, so that when it
    comes to [Report] the mapping holds all three names: it completes with
    no finding at all. *)
Theorem shared_tags_hide_missing_tags v :
  shared_config anchored_heap anchored_config = true /\
  omap (missing_finding_at anchored_heap "resources/jobs.yml")
    (jobs_at anchored_heap anchored_config)
  = [MissingRequiredTags "Report" "resources/jobs.yml"
       {[ "cost_center"; "environment" ]}] /\
  exists h',
    Shared.check_required_tags anchored_heap anchored_config
      "resources/jobs.yml" v = Ok (h', v) /\
    h' !! 1%nat
    = Some (Shared.ODict [("team", Shared.VStr "data");
                          ("cost_center", Shared.VStr "cc1");
                          ("environment", Shared.VStr "prod")]).
Proof.
  split; [vm_compute; reflexivity|]. split; [vm_compute; reflexivity|].
  destruct v as [es ws ss]. eexists. split; vm_compute; reflexivity.
Qed.

(** X22. On a document of the shape the evaluator reads in which no [tags]
    mapping is shared, the required-tag evaluator completes and appends to
    the errors exactly one finding for each job that lacks a required tag,
    listing the names it lacks, job by job; it appends nothing else. *)
Theorem missing_tags_reported_without_sharing h config file_path v :
  shared_config h config = true ->
  tags_unshared h config ->
  exists h' v',
    Shared.check_required_tags h config file_path v = Ok (h', v') /\
    errors v' = errors v ++
                omap (missing_finding_at h file_path) (jobs_at h config) /\
    warnings v' = warnings v /\
    suggestions v' = suggestions v.
Proof.
  intros Hshape Hun.
  destruct (check_required_tags_unshared h config file_path v Hshape Hun)
    as (h' & Hrun & _).
  by do 2 eexists.
Qed.

(** X12. On such a document the evaluator writes to the [tags] mappings of
    the jobs and to nothing else: every other object of the document is
    afterwards what it was, and each [tags] mapping holds the tags of its
    job overlaid with the custom tags of the job's clusters. *)
Theorem required_tags_writes_tags_only h config file_path v h' v' :
  shared_config h config = true ->
  tags_unshared h config ->
  Shared.check_required_tags h config file_path v = Ok (h', v') ->
  (forall l o, l ∉ tags_locs h config -> h !! l = Some o -> h' !! l = Some o) /\
  (forall job t, job ∈ jobs_at h config -> t ∈ tags_locs_job h (snd job) ->
                 h' !! t = Some (Shared.ODict (merged_tags_at h (snd job)))).
Proof.
  intros Hshape Hun Hrun.
  destruct (check_required_tags_unshared h config file_path v Hshape Hun)
    as (h1 & Hrun1 & Hkeeps & Hmerged).
  rewrite Hrun in Hrun1. injection Hrun1 as -> _. by split.
Qed.

(** *** A second pass

    After a pass the objects the evaluator reads are as they were and the
    [tags] mappings hold the merged tags: the document has the same shape,
    the same jobs, and every job the same tag names. *)

Lemma refers_to_mapping_ref h l d :
  h !! l = Some (Shared.ODict d) -> refers_to_mapping h (Shared.VRef l) = true.
Proof.
  intros H. unfold refers_to_mapping. apply bool_decide_eq_true_2.
  exists d. by apply mapping_at_ref.
Qed.

Lemma cluster_view_shape h cluster tags locs :
  cluster_view h cluster tags locs ->
  shared_cluster h cluster = true /\
  custom_tags_at h cluster = tags /\
  read_locs_cluster h cluster = locs.
Proof.
  intros [lc cd -> Hlc Hnc|lc cd lnc ncd -> Hlc Hnc Hlnc Hct
         |lc cd lnc ncd lct ctd -> Hlc Hnc Hlnc Hct Hlct];
    unfold shared_cluster, custom_tags_at, read_locs_cluster;
    rewrite (refers_to_mapping_ref _ _ _ Hlc), !(child_ref _ _ _ _ Hlc), Hnc;
    simpl; [done| |].
  - rewrite (refers_to_mapping_ref _ _ _ Hlnc), !(child_ref _ _ _ _ Hlnc), Hct.
    done.
  - rewrite (refers_to_mapping_ref _ _ _ Hlnc), !(child_ref _ _ _ _ Hlnc), Hct.
    simpl. rewrite (refers_to_mapping_ref _ _ _ Hlct), Hlct. done.
Qed.

Lemma cluster_view_stable h h1 cluster tags locs :
  cluster_view h cluster tags locs ->
  (forall l o, l ∈ locs -> h !! l = Some o -> h1 !! l = Some o) ->
  cluster_view h1 cluster tags locs.
Proof.
  intros [lc cd -> Hlc Hnc|lc cd lnc ncd -> Hlc Hnc Hlnc Hct
         |lc cd lnc ncd lct ctd -> Hlc Hnc Hlnc Hct Hlct] Hsame.
  - eapply cluster_plain; [done| |done]. apply Hsame; [by left|done].
  - eapply cluster_untagged; [done| |done| |done].
    + apply Hsame; [by left|done].
    + apply Hsame; [by right; left|done].
  - eapply cluster_tagged; [done| |done| |done|].
    + apply Hsame; [by left|done].
    + apply Hsame; [by right; left|done].
    + apply Hsame; [by right; right; left|done].
Qed.

Lemma shared_cluster_stable h h1 cluster :
  shared_cluster h cluster = true ->
  (forall l o, l ∈ read_locs_cluster h cluster -> h !! l = Some o ->
               h1 !! l = Some o) ->
  shared_cluster h1 cluster = true /\
  custom_tags_at h1 cluster = custom_tags_at h cluster /\
  read_locs_cluster h1 cluster = read_locs_cluster h cluster.
Proof.
  intros Hshape Hsame. apply cluster_view_shape.
  eapply cluster_view_stable; [by apply shared_cluster_view|done].
Qed.

Lemma names_of_update d other :
  names_of (Shared.dict_update d other) = names_of d ∪ names_of other.
Proof. rewrite !names_of_keys. apply shared_dict_keys_update. Qed.

(** The names after one more overlay with the same custom tags. *)
Lemma names_of_overlay (customs : list Shared.entries) : forall tags,
  names_of (fold_left Shared.dict_update customs tags)
  = names_of tags ∪ ⋃ (names_of <$> customs).
Proof.
  induction customs as [|c cs IH]; intros tags; simpl.
  - set_solver.
  - rewrite IH, names_of_update. set_solver.
Qed.

Lemma merged_tags_overlay h job_def :
  merged_tags_at h job_def
  = fold_left Shared.dict_update (custom_tags_at h <$> clusters_at h job_def)
      (own_tags_at h job_def).
Proof.
  unfold merged_tags_at. generalize (own_tags_at h job_def).
  induction (clusters_at h job_def) as [|c cs IH]; intros tags; simpl; [done|].
  apply IH.
Qed.

Lemma present_tags_overlay h job_def :
  present_tags_at h job_def
  = names_of (own_tags_at h job_def) ∪
    ⋃ (names_of <$> (custom_tags_at h <$> clusters_at h job_def)).
Proof.
  unfold present_tags_at. f_equal. f_equal.
  by rewrite <- list_fmap_compose.
Qed.

(** One job after a pass. *)
Lemma shared_job_stable h h1 job_def :
  shared_job h job_def = true ->
  (forall l o, l ∈ read_locs_job h job_def -> h !! l = Some o ->
               h1 !! l = Some o) ->
  (forall t, t ∈ tags_locs_job h job_def ->
             h1 !! t = Some (Shared.ODict (merged_tags_at h job_def))) ->
  shared_job h1 job_def = true /\
  tags_locs_job h1 job_def = tags_locs_job h job_def /\
  read_locs_job h1 job_def = read_locs_job h job_def /\
  present_tags_at h1 job_def = present_tags_at h job_def.
Proof.
  intros Hshape Hsame Htags.
  pose proof Hshape as Hinv.
  apply shared_job_inv in Hinv as (lj & jd & -> & Hlj & Ht & Hseq & Hcs).
  assert (Hlj1 : h1 !! lj = Some (Shared.ODict jd)).
  { apply Hsame; [|done]. unfold read_locs_job. simpl. by left. }
  unfold tags_locs_job in *. unfold read_locs_job in Hsame.
  rewrite (child_ref _ _ _ "tags" Hlj) in Htags.
  rewrite (child_ref _ _ _ "job_clusters" Hlj) in Hsame.
  (* the clusters *)
  assert (Hclusters : clusters_at h1 (Shared.VRef lj)
                      = clusters_at h (Shared.VRef lj)).
  { unfold clusters_at.
    rewrite (child_ref _ _ _ "job_clusters" Hlj),
      (child_ref _ _ _ "job_clusters" Hlj1).
    destruct (entry_of "job_clusters" jd) as [clusters|]; simpl in *; [|done].
    apply bool_decide_eq_true_1 in Hseq as [cs Hseq]. rewrite Hseq.
    apply sequence_at_inv in Hseq as (lcs & -> & Hlcs).
    simpl. rewrite (Hsame lcs (Shared.OList cs)); [done| |done].
    right. apply elem_of_app. left. by left. }
  assert (Heach : Forall (fun c =>
                            shared_cluster h1 c = true /\
                            custom_tags_at h1 c = custom_tags_at h c /\
                            read_locs_cluster h1 c = read_locs_cluster h c)
                    (clusters_at h (Shared.VRef lj))).
  { rewrite Forall_forall in Hcs. apply Forall_forall. intros c Hc.
    apply shared_cluster_stable; [by apply Hcs|].
    intros l o Hl. apply Hsame. right. apply elem_of_app. right.
    apply list_elem_of_bind. eauto. }
  assert (Hcustom : custom_tags_at h1 <$> clusters_at h (Shared.VRef lj)
                    = custom_tags_at h <$> clusters_at h (Shared.VRef lj)).
  { apply Forall_fmap_ext_1. eapply Forall_impl; [exact Heach|].
    by intros c (_ & Hc & _). }
  assert (Hlocs : clusters_at h (Shared.VRef lj) ≫= read_locs_cluster h1
                  = clusters_at h (Shared.VRef lj) ≫= read_locs_cluster h).
  { apply Forall_bind_ext. eapply Forall_impl; [exact Heach|].
    by intros c (_ & _ & Hc). }
  split; [|split; [|split]].
  - unfold shared_job.
    rewrite (refers_to_mapping_ref _ _ _ Hlj1).
    rewrite (child_ref _ _ _ "tags" Hlj1),
      (child_ref _ _ _ "job_clusters" Hlj1). simpl.
    apply andb_true_intro. split.
    + destruct (entry_of "tags" jd) as [tags|]; simpl in *; [|done].
      apply refers_to_mapping_inv in Ht as (t & own & -> & Hown).
      eapply refers_to_mapping_ref. apply Htags. by left.
    + unfold clusters_at in Hclusters.
      rewrite (child_ref _ _ _ "job_clusters" Hlj),
        (child_ref _ _ _ "job_clusters" Hlj1) in Hclusters.
      destruct (entry_of "job_clusters" jd) as [clusters|] eqn:Hjc;
        simpl in *; [|done].
      apply bool_decide_eq_true_1 in Hseq as [cs Hseq].
      rewrite Hseq in Hclusters. simpl in Hclusters.
      destruct (sequence_at h1 clusters) as [cs1|] eqn:Hseq1.
      * simpl in Hclusters. subst cs1. apply forallb_forall. intros c Hc.
        apply list_elem_of_In in Hc. rewrite Forall_forall in Heach.
        unfold clusters_at in Heach.
        rewrite (child_ref _ _ _ "job_clusters" Hlj), Hjc in Heach.
        simpl in Heach. rewrite Hseq in Heach. simpl in Heach.
        by apply Heach.
      * apply sequence_at_inv in Hseq as (lcs & -> & Hlcs).
        simpl in Hseq1. rewrite (Hsame lcs (Shared.OList cs)) in Hseq1;
          [done| |done].
        right. apply elem_of_app. left. by left.
  - by rewrite (child_ref _ _ _ "tags" Hlj), (child_ref _ _ _ "tags" Hlj1).
  - unfold read_locs_job.
    rewrite (child_ref _ _ _ "job_clusters" Hlj),
      (child_ref _ _ _ "job_clusters" Hlj1), Hclusters, Hlocs. done.
  - rewrite !present_tags_overlay, Hclusters, Hcustom.
    assert (Hown : names_of (own_tags_at h1 (Shared.VRef lj))
                   ∪ ⋃ (names_of <$> (custom_tags_at h
                                        <$> clusters_at h (Shared.VRef lj)))
                   = names_of (own_tags_at h (Shared.VRef lj))
                     ∪ ⋃ (names_of <$> (custom_tags_at h
                                          <$> clusters_at h (Shared.VRef lj)))).
    { unfold own_tags_at at 1 2.
      rewrite (child_ref _ _ _ "tags" Hlj), (child_ref _ _ _ "tags" Hlj1).
      destruct (entry_of "tags" jd) as [tags|] eqn:Hentry; [|done].
      simpl in Ht.
      apply refers_to_mapping_inv in Ht as (t & own & -> & Hown).
      assert (Hown_h : own_tags_at h (Shared.VRef lj) = own).
      { unfold own_tags_at. rewrite (child_ref _ _ _ "tags" Hlj), Hentry.
        simpl. by rewrite Hown. }
      assert (Hown_h1 : mapping_at h1 (Shared.VRef t)
                        = Some (merged_tags_at h (Shared.VRef lj))).
      { apply mapping_at_ref. apply Htags. by left. }
      cbn [mbind option_bind default]. rewrite Hown_h1.
      rewrite (mapping_at_ref _ _ _ Hown). cbn [default].
      unfold id. rewrite merged_tags_overlay, names_of_overlay, Hown_h.
      set_solver. }
    exact Hown.
Qed.

(** The document after a pass. *)
Lemma shared_config_stable h h1 config :
  shared_config h config = true ->
  tags_unshared h config ->
  keeps_objects (tags_locs h config) h h1 ->
  (forall job t, job ∈ jobs_at h config -> t ∈ tags_locs_job h (snd job) ->
                 h1 !! t = Some (Shared.ODict (merged_tags_at h (snd job)))) ->
  shared_config h1 config = true /\
  jobs_at h1 config = jobs_at h config /\
  tags_locs h1 config = tags_locs h config /\
  read_locs h1 config = read_locs h config /\
  Forall (fun job => present_tags_at h1 (snd job) = present_tags_at h (snd job))
    (jobs_at h config).
Proof.
  intros Hshape [_ Hsep] Hkeeps Hmerged. rewrite Forall_forall in Hsep.
  assert (Hread : forall l o, l ∈ read_locs h config -> h !! l = Some o ->
                              h1 !! l = Some o).
  { intros l o Hl Ho. apply Hkeeps; [|done]. intros Ht. by apply (Hsep l Ht). }
  pose proof Hshape as Hinv.
  apply shared_config_inv in Hinv as (lc & c & -> & Hlc & Hinv).
  assert (Hlc1 : h1 !! lc = Some (Shared.ODict c)).
  { apply Hread; [|done]. unfold read_locs. simpl. by left. }
  destruct (entry_of "resources" c) as [resources|] eqn:Hres.
  2:{ assert (Hj1 : jobs_at h1 (Shared.VRef lc) = []).
      { unfold jobs_at. by rewrite (child_ref _ _ _ "resources" Hlc1), Hres. }
      unfold shared_config, tags_locs, read_locs.
      rewrite Hj1, Hinv, (refers_to_mapping_ref _ _ _ Hlc1).
      rewrite !(child_ref _ _ _ "resources" Hlc1).
      rewrite !(child_ref _ _ _ "resources" Hlc), Hres. simpl.
      repeat split; done. }
  destruct Hinv as (lr & rd & -> & Hlr & Hinv).
  assert (Hlr1 : h1 !! lr = Some (Shared.ODict rd)).
  { apply Hread; [|done]. unfold read_locs.
    rewrite (child_ref _ _ _ "resources" Hlc), Hres. simpl. right. by left. }
  destruct (entry_of "jobs" rd) as [jobs|] eqn:Hjobs.
  2:{ assert (Hj1 : jobs_at h1 (Shared.VRef lc) = []).
      { unfold jobs_at. rewrite (child_ref _ _ _ "resources" Hlc1), Hres.
        simpl. by rewrite (child_ref _ _ _ "jobs" Hlr1), Hjobs. }
      unfold shared_config, tags_locs, read_locs.
      rewrite Hj1, Hinv, (refers_to_mapping_ref _ _ _ Hlc1).
      rewrite !(child_ref _ _ _ "resources" Hlc1).
      rewrite !(child_ref _ _ _ "resources" Hlc), Hres. simpl.
      rewrite (refers_to_mapping_ref _ _ _ Hlr1).
      rewrite !(child_ref _ _ _ "jobs" Hlr1).
      rewrite !(child_ref _ _ _ "jobs" Hlr), Hjobs. simpl.
      repeat split; done. }
  destruct Hinv as (ljobs & -> & Hljobs & Hin & Hwf).
  assert (Hljobs1 : h1 !! ljobs
                    = Some (Shared.ODict (jobs_at h (Shared.VRef lc))))
    by (by apply Hread).
  assert (Hj1 : jobs_at h1 (Shared.VRef lc) = jobs_at h (Shared.VRef lc)).
  { unfold jobs_at at 1. rewrite (child_ref _ _ _ "resources" Hlc1), Hres.
    simpl. rewrite (child_ref _ _ _ "jobs" Hlr1), Hjobs. simpl.
    by rewrite Hljobs1. }
  assert (Heach : Forall (fun job =>
                            shared_job h1 (snd job) = true /\
                            tags_locs_job h1 (snd job) = tags_locs_job h (snd job) /\
                            read_locs_job h1 (snd job) = read_locs_job h (snd job) /\
                            present_tags_at h1 (snd job)
                            = present_tags_at h (snd job))
                    (jobs_at h (Shared.VRef lc))).
  { rewrite Forall_forall in Hwf. apply Forall_forall. intros job Hjob.
    apply shared_job_stable;
      [by apply Hwf| |intros t Ht; by apply (Hmerged job t)].
    intros l o Hl Ho. apply (Hread l o); [|done].
    by apply (read_locs_job_in h (Shared.VRef lc) job l). }
  split; [|split; [|split; [|split]]].
  - unfold shared_config.
    rewrite (refers_to_mapping_ref _ _ _ Hlc1).
    rewrite (child_ref _ _ _ "resources" Hlc1), Hres. simpl.
    rewrite (refers_to_mapping_ref _ _ _ Hlr1).
    rewrite (child_ref _ _ _ "jobs" Hlr1), Hjobs. simpl. rewrite Hljobs1.
    apply forallb_forall. intros job Hjob. apply list_elem_of_In in Hjob.
    rewrite Forall_forall in Heach. by apply Heach.
  - done.
  - unfold tags_locs. rewrite Hj1. apply Forall_bind_ext.
    eapply Forall_impl; [exact Heach|]. by intros job (_ & Ht & _).
  - unfold read_locs. rewrite Hj1.
    rewrite !(child_ref _ _ _ "resources" Hlc1).
    rewrite !(child_ref _ _ _ "resources" Hlc), Hres. simpl.
    rewrite !(child_ref _ _ _ "jobs" Hlr1).
    rewrite !(child_ref _ _ _ "jobs" Hlr). do 3 f_equal.
    apply Forall_bind_ext. eapply Forall_impl; [exact Heach|].
    by intros job (_ & _ & Hr & _).
  - eapply Forall_impl; [exact Heach|]. by intros job (_ & _ & _ & Hp).
Qed.

Lemma missing_findings_stable h h1 file_path (jobs : Shared.entries) :
  Forall (fun job => present_tags_at h1 (snd job) = present_tags_at h (snd job))
    jobs ->
  omap (missing_finding_at h1 file_path) jobs
  = omap (missing_finding_at h file_path) jobs.
Proof.
  induction 1 as [|job jobs Hjob _ IH]; [done|].
  change (omap ?f (job :: jobs))
    with (match f job with Some y => y :: omap f jobs | None => omap f jobs end).
  rewrite IH. unfold missing_finding_at, missing_tags_at. by rewrite Hjob.
Qed.

(** X13. On a document of the shape the evaluator reads in which no [tags]
    mapping is shared, a second pass of the evaluator over the document the
    first pass left completes and reports what the first pass reported, job
    by job: the merge adds to a job's tags only names that counted as
    present already. *)
Theorem second_pass_reports_the_same h config file_path v h1 v1 :
  shared_config h config = true ->
  tags_unshared h config ->
  Shared.check_required_tags h config file_path v = Ok (h1, v1) ->
  exists h2 v2 found,
    Shared.check_required_tags h1 config file_path v1 = Ok (h2, v2) /\
    errors v1 = errors v ++ found /\
    errors v2 = errors v1 ++ found /\
    warnings v2 = warnings v /\
    suggestions v2 = suggestions v.
Proof.
  intros Hshape Hun Hrun.
  destruct (check_required_tags_unshared h config file_path v Hshape Hun)
    as (h1' & Hrun1 & Hkeeps & Hmerged).
  rewrite Hrun in Hrun1. injection Hrun1 as <- ->.
  destruct (shared_config_stable h h1 config Hshape Hun Hkeeps Hmerged)
    as (Hshape1 & Hjobs & Htags & Hreads & Hpresent).
  assert (Hun1 : tags_unshared h1 config).
  { unfold tags_unshared. by rewrite Htags, Hreads. }
  destruct (check_required_tags_unshared h1 config file_path
              (mkValidator
                 (errors v ++
                  omap (missing_finding_at h file_path) (jobs_at h config))
                 (warnings v) (suggestions v)) Hshape1 Hun1)
    as (h2 & Hrun2 & _).
  rewrite Hjobs, (missing_findings_stable _ _ _ _ Hpresent) in Hrun2.
  exists h2. eexists. eexists. split; [exact Hrun2|]. by simpl.
Qed.

(** ** The evaluator on a heap and the evaluator on the tree it unfolds to *)

Lemma holds_list h l v :
  holds h (YList l) v <->
  exists loc vs,
    v = Shared.VRef loc /\ h !! loc = Some (Shared.OList vs) /\
    Forall2 (holds h) l vs.
Proof.
  simpl. split; intros (loc & vs & -> & Hloc & Hall); exists loc, vs;
    (split; [done|]); (split; [done|]).
  - clear Hloc. revert vs Hall. induction l as [|x l IH]; intros [|v vs] Hall;
      try done; try (by constructor).
    destruct Hall as [Hx Hall]. constructor; [done|by apply IH].
  - clear Hloc. induction Hall as [|x v l vs Hx _ IH]; [done|]. by split.
Qed.

Lemma holds_dict h d v :
  holds h (YDict d) v <->
  exists loc es,
    v = Shared.VRef loc /\ h !! loc = Some (Shared.ODict es) /\
    Forall2 (holds_entry h) d es.
Proof.
  simpl. split; intros (loc & es & -> & Hloc & Hall); exists loc, es;
    (split; [done|]); (split; [done|]).
  - clear Hloc. revert es Hall.
    induction d as [|[k x] d IH]; intros [|[k' v] es] Hall;
      try done; try (by constructor).
    destruct Hall as (Hk & Hx & Hall). constructor; [by split|by apply IH].
  - clear Hloc. induction Hall as [|[k x] [k' v] d es [Hk Hx] _ IH]; [done|].
    simpl in *. by split.
Qed.

Lemma holds_lookup h d es k :
  Forall2 (holds_entry h) d es ->
  match dict_lookup k d with
  | Some x => exists v, entry_of k es = Some v /\ holds h x v
  | None => entry_of k es = None
  end.
Proof.
  rewrite entry_of_lookup.
  induction 1 as [|[k1 x] [k2 v] d es [Hk Hx] _ IH]; simpl in *; [done|].
  subst k2. destruct (String.eqb k k1); [eauto|done].
Qed.

Lemma holds_names h d es :
  Forall2 (holds_entry h) d es -> names_of es = dict_keys d.
Proof.
  intros H. unfold names_of, dict_keys. f_equal.
  induction H as [|[k1 x] [k2 v] d es [Hk Hx] _ IH]; [done|].
  rewrite fmap_cons. simpl in *. subst k2. f_equal. exact IH.
Qed.

(** [d.get(k, {})] on the tree and on the heap *)
Lemma holds_field_dict h d es k sub :
  Forall2 (holds_entry h) d es ->
  field d k (YDict []) = YDict sub ->
  (entry_of k es = None /\ sub = []) \/
  (exists l ses,
      entry_of k es = Some (Shared.VRef l) /\
      h !! l = Some (Shared.ODict ses) /\
      Forall2 (holds_entry h) sub ses).
Proof.
  intros Hd Hf. pose proof (holds_lookup h d es k Hd) as Hk.
  unfold field in Hf. destruct (dict_lookup k d) as [x|].
  - subst x. destruct Hk as (v & Hv & Hx).
    apply holds_dict in Hx as (l & ses & -> & Hl & Hsub). right. eauto.
  - injection Hf as <-. by left.
Qed.

(** [d.get(k, [])] on the tree and on the heap *)
Lemma holds_field_list h d es k xs :
  Forall2 (holds_entry h) d es ->
  field d k (YList []) = YList xs ->
  (entry_of k es = None /\ xs = []) \/
  (exists l vs,
      entry_of k es = Some (Shared.VRef l) /\
      h !! l = Some (Shared.OList vs) /\
      Forall2 (holds h) xs vs).
Proof.
  intros Hd Hf. pose proof (holds_lookup h d es k Hd) as Hk.
  unfold field in Hf. destruct (dict_lookup k d) as [x|].
  - subst x. destruct Hk as (v & Hv & Hx).
    apply holds_list in Hx as (l & vs & -> & Hl & Hxs). right. eauto.
  - injection Hf as <-. by left.
Qed.

Lemma holds_cluster h x v :
  tags_cluster x = true -> holds h x v ->
  shared_cluster h v = true /\
  names_of (custom_tags_at h v) = dict_keys (custom_tags_of x).
Proof.
  intros Hshape Hx.
  apply tags_cluster_inv in Hshape as (c & nc & tags & -> & Hnc & Htags).
  apply holds_dict in Hx as (lc & ces & -> & Hlc & Hc).
  assert (Hof : custom_tags_of (YDict c) = tags).
  { unfold custom_tags_of. by rewrite Hnc, Htags. }
  rewrite Hof.
  assert (Hview : exists tes locs,
             cluster_view h (Shared.VRef lc) tes locs /\
             names_of tes = dict_keys tags).
  { destruct (holds_field_dict h c ces "new_cluster" nc Hc Hnc)
      as [[Hnone ->]|(lnc & nces & Hsome & Hlnc & Hncs)].
    - simpl in Htags. injection Htags as <-.
      exists [], [lc]. split; [by eapply cluster_plain|done].
    - destruct (holds_field_dict h nc nces "custom_tags" tags Hncs Htags)
        as [[Hnone ->]|(lct & tes & Hsome' & Hlct & Hts)].
      + exists [], [lc; lnc]. split; [by eapply cluster_untagged|done].
      + exists tes, [lc; lnc; lct].
        split; [by eapply cluster_tagged|by eapply holds_names]. }
  destruct Hview as (tes & locs & Hview & Hnames).
  apply cluster_view_shape in Hview as (Hs & Hc' & _).
  by rewrite Hc'.
Qed.

Lemma holds_job h x v :
  tags_job x = true -> holds h x v ->
  shared_job h v = true /\ present_tags_at h v = present_tag_names x.
Proof.
  intros Hshape Hx.
  apply tags_job_inv in Hshape as (j & tags & cs & -> & Htags & Hcs & Hwf).
  apply holds_dict in Hx as (lj & jes & -> & Hlj & Hj).
  unfold shared_job, present_tags_at, present_tag_names.
  unfold own_tags_at, own_tags, clusters_at, clusters_of.
  rewrite (refers_to_mapping_ref _ _ _ Hlj).
  rewrite !(child_ref _ _ _ "tags" Hlj), !(child_ref _ _ _ "job_clusters" Hlj).
  rewrite Htags, Hcs.
  (* the tags of the job *)
  assert (Hown : absent_or (refers_to_mapping h) (entry_of "tags" jes) = true /\
                 names_of (default [] (tags ← entry_of "tags" jes;
                                       mapping_at h tags))
                 = dict_keys tags).
  { destruct (holds_field_dict h j jes "tags" tags Hj Htags)
      as [[-> ->]|(lt & tes & -> & Hlt & Hts)]; simpl.
    - done.
    - rewrite (refers_to_mapping_ref _ _ _ Hlt), Hlt. simpl.
      split; [done|by eapply holds_names]. }
  destruct Hown as [-> ->].
  (* its clusters *)
  assert (Hclusters :
            absent_or
              (fun clusters =>
                 match sequence_at h clusters with
                 | Some cs => forallb (shared_cluster h) cs
                 | None => false
                 end) (entry_of "job_clusters" jes) = true /\
            (fun cluster => names_of (custom_tags_at h cluster)) <$>
              default [] (clusters ← entry_of "job_clusters" jes;
                          sequence_at h clusters)
            = map (fun cluster => dict_keys (custom_tags_of cluster)) cs).
  { destruct (holds_field_list h j jes "job_clusters" cs Hj Hcs)
      as [[-> ->]|(lcs & vs & -> & Hlcs & Hvs)]; simpl.
    - done.
    - rewrite Hlcs. simpl. clear Hlcs Hcs.
      induction Hvs as [|c v cs vs Hc _ IH]; [done|].
      apply Forall_cons in Hwf as [Hwc Hwf].
      destruct (holds_cluster h c v Hwc Hc) as [Hs Hn].
      destruct (IH Hwf) as [IH1 IH2]. split.
      + cbn [forallb]. by rewrite Hs, IH1.
      + rewrite fmap_cons. cbn [map]. f_equal; [exact Hn|exact IH2]. }
  destruct Hclusters as [-> ->]. done.
Qed.

Lemma jobs_in_shaped c r jobs :
  field c "resources" (YDict []) = YDict r ->
  field r "jobs" (YDict []) = YDict jobs ->
  jobs_in (YDict c) = jobs.
Proof.
  intros Hr Hj. unfold jobs_in, jobs_of. simpl. rewrite Hr. simpl.
  by rewrite Hj.
Qed.

Lemma holds_config h doc root :
  tags_config doc = true -> holds h doc root ->
  shared_config h root = true /\
  Forall2 (fun job job' =>
             fst job = fst job' /\
             present_tags_at h (snd job') = present_tag_names (snd job))
    (jobs_in doc) (jobs_at h root).
Proof.
  intros Hshape Hdoc.
  apply jobs_shaped_inv in Hshape as (c & r & jobs & -> & Hr & Hj & Hwf).
  rewrite (jobs_in_shaped _ _ _ Hr Hj).
  apply holds_dict in Hdoc as (lc & ces & -> & Hlc & Hc).
  unfold shared_config, jobs_at.
  rewrite (refers_to_mapping_ref _ _ _ Hlc).
  rewrite !(child_ref _ _ _ "resources" Hlc).
  destruct (holds_field_dict h c ces "resources" r Hc Hr)
    as [[-> ->]|(lr & res & -> & Hlr & Hrs)]; simpl.
  { simpl in Hj. injection Hj as <-. split; [done|constructor]. }
  rewrite (refers_to_mapping_ref _ _ _ Hlr).
  rewrite !(child_ref _ _ _ "jobs" Hlr).
  destruct (holds_field_dict h r res "jobs" jobs Hrs Hj)
    as [[-> ->]|(ljobs & jes & -> & Hljobs & Hjs)]; simpl.
  { split; [done|constructor]. }
  rewrite Hljobs. simpl. clear Hljobs Hj.
  induction Hjs as [|[name x] [name' v] jobs jes [Hname Hx] _ IH]; simpl in *.
  { split; [done|constructor]. }
  apply Forall_cons in Hwf as [Hjob Hwf]. simpl in Hjob.
  destruct (holds_job h x v Hjob Hx) as [Hs Hp].
  destruct (IH Hwf) as [IH1 IH2].
  rewrite Hs, IH1. split; [done|]. constructor; [by split|exact IH2].
Qed.

Lemma missing_findings_unfold h file_path jobs jobs' :
  Forall2 (fun (job : string * yaml) (job' : string * Shared.value) =>
             fst job = fst job' /\
             present_tags_at h (snd job') = present_tag_names (snd job))
    jobs jobs' ->
  omap (missing_finding_at h file_path) jobs'
  = omap (missing_tags_finding file_path) jobs.
Proof.
  induction 1 as [|job job' jobs jobs' [Hname Hp] _ IH]; [done|].
  change (omap ?f (?x :: ?l))
    with (match f x with Some y => y :: omap f l | None => omap f l end).
  rewrite IH.
  unfold missing_finding_at, missing_tags_finding, missing_tags_at,
    missing_tags_of.
  by rewrite Hname, Hp.
Qed.

(** X23. When the document in the heap unfolds to a tree of the shape the
    evaluator reads and no [tags] mapping is shared, the evaluator run on
    the heap and the evaluator run on the tree both complete and leave the
    same findings: apart from a shared [tags] mapping, aliases make no
    difference to what is reported. *)
Theorem evaluator_agrees_with_unfolding h root doc file_path v :
  holds h doc root ->
  tags_config doc = true ->
  tags_unshared h root ->
  exists h' doc' v',
    Shared.check_required_tags h root file_path v = Ok (h', v') /\
    check_required_tags doc file_path v = Ok (doc', v').
Proof.
  intros Hdoc Hshape Hun.
  destruct (holds_config h doc root Hshape Hdoc) as [Hshared Hjobs].
  destruct (check_required_tags_unshared h root file_path v Hshared Hun)
    as (h' & Hrun & _).
  rewrite (missing_findings_unfold _ _ _ _ Hjobs) in Hrun.
  do 3 eexists. split; [exact Hrun|]. by apply check_required_tags_wf.
Qed.

(** ** The properties on shared mappings at concrete inputs *)

(** X22 at the document with the tags written out in each job: [Report]
    lacks two tags. *)
Lemma missing_tags_reported_without_sharing_witness :
  shared_config unshared_heap unshared_config = true /\
  tags_unshared unshared_heap unshared_config /\
  exists h' v',
    Shared.check_required_tags unshared_heap unshared_config
      "resources/jobs.yml" new_validator = Ok (h', v') /\
    errors v' = [MissingRequiredTags "Report" "resources/jobs.yml"
                   {[ "cost_center"; "environment" ]}].
Proof.
  split; [vm_compute; reflexivity|]. split; [split; compute_done|].
  destruct (missing_tags_reported_without_sharing unshared_heap unshared_config
              "resources/jobs.yml" new_validator)
    as (h' & v' & Hrun & He & _).
  - vm_compute; reflexivity.
  - split; compute_done.
  - exists h', v'. split; [exact Hrun|]. rewrite He. vm_compute. reflexivity.
Defined.

(** X12 at the same document: the cluster of [Ingest] is as it was, and
    the [tags] mapping of [Ingest] holds the three names. *)
Lemma required_tags_writes_tags_only_witness :
  exists h' v',
    Shared.check_required_tags unshared_heap unshared_config
      "resources/jobs.yml" new_validator = Ok (h', v') /\
    h' !! 6%nat = unshared_heap !! 6%nat /\
    h' !! 4%nat
    = Some (Shared.ODict [("team", Shared.VStr "data");
                          ("cost_center", Shared.VStr "cc1");
                          ("environment", Shared.VStr "prod")]).
Proof.
  destruct (Shared.check_required_tags unshared_heap unshared_config
              "resources/jobs.yml" new_validator) as [[h' v']| |] eqn:Hrun;
    [|vm_compute in Hrun; discriminate Hrun..].
  destruct (required_tags_writes_tags_only unshared_heap unshared_config
              "resources/jobs.yml" new_validator h' v')
    as [Hkeeps Hmerged].
  - vm_compute; reflexivity.
  - split; compute_done.
  - exact Hrun.
  - exists h', v'. split; [reflexivity|]. split.
    + apply Hkeeps; [compute_done|reflexivity].
    + apply (Hmerged ("Ingest", Shared.VRef 3)); vm_compute; by left.
Defined.

(** X13 at the document with the tags written out in each job: both passes
    report [Report]. *)
Lemma second_pass_reports_the_same_witness :
  exists h1 v1 h2 v2,
    Shared.check_required_tags unshared_heap unshared_config
      "resources/jobs.yml" new_validator = Ok (h1, v1) /\
    Shared.check_required_tags h1 unshared_config "resources/jobs.yml" v1
    = Ok (h2, v2) /\
    length (errors v1) = 1%nat /\
    length (errors v2) = 2%nat.
Proof.
  destruct (Shared.check_required_tags unshared_heap unshared_config
              "resources/jobs.yml" new_validator) as [[h1 v1]| |] eqn:Hrun;
    [|vm_compute in Hrun; discriminate Hrun..].
  destruct (second_pass_reports_the_same unshared_heap unshared_config
              "resources/jobs.yml" new_validator h1 v1)
    as (h2 & v2 & found & Hrun2 & He1 & He2 & _).
  - vm_compute; reflexivity.
  - split; compute_done.
  - exact Hrun.
  - exists h1, v1, h2, v2. split; [reflexivity|]. split; [exact Hrun2|].
    assert (Hlen : length (errors v1) = 1%nat).
    { vm_compute in Hrun. by injection Hrun as <- <-. }
    split; [exact Hlen|].
    rewrite He2, length_app. rewrite He1, length_app in Hlen.
    simpl in Hlen. rewrite He1, length_app. simpl. lia.
Defined.

(** X23 at the document with the tags written out in each job. *)
Lemma evaluator_agrees_with_unfolding_witness :
  holds unshared_heap unshared_doc unshared_config /\
  tags_config unshared_doc = true /\
  tags_unshared unshared_heap unshared_config /\
  exists h' doc' v',
    Shared.check_required_tags unshared_heap unshared_config
      "resources/jobs.yml" new_validator = Ok (h', v') /\
    check_required_tags unshared_doc "resources/jobs.yml" new_validator
    = Ok (doc', v').
Proof.
  assert (Hdoc : holds unshared_heap unshared_doc unshared_config).
  { simpl. repeat (first [done | split | eexists]). }
  split; [exact Hdoc|]. split; [vm_compute; reflexivity|].
  split; [split; compute_done|].
  apply (evaluator_agrees_with_unfolding unshared_heap unshared_config
           unshared_doc "resources/jobs.yml" new_validator).
  - exact Hdoc.
  - vm_compute; reflexivity.
  - split; compute_done.
Defined.
